(** * LinkedIn job crawler: crawl orchestration and extraction pipeline

    A shallow embedding of [src/crawler/linkedin_crawler.py]
    (class [LinkedInCrawler]) and the properties of its search-URL
    construction, listing and detail stages, deduplication and
    orchestration.

    Conventions of the embedding.
    - A Python [str] is a [string] holding its UTF-8 bytes.  The only
      patterns the code searches for or replaces are ASCII, and UTF-8 is
      self-synchronising, so replacement, containment, splitting and
      emptiness agree with the code-point view.  Where the code works
      character by character ([for char in text], [str.strip]) the
      embedding works on [PyStr.chars], the code points of the string.
      [str.lower], which follows the Unicode character database, is
      taken from the environment and nothing is assumed about it.
    - [self.config] is a dictionary of sections.  The section
      ['crawler'] has been read by [__init__]; each of the sections
      ['browser'], ['search'] and ['credentials'] may be missing, and a
      plain subscript of a missing section raises [KeyError].
    - A Python [int] is a [Z]; [str(n)] is stdpp's [pretty].
    - A job record ([Dict[str, Any]], all of whose values are strings) is
      a [gmap string string].  The dictionary [unique_jobs], whose
      iteration order the code relies on, is an insertion-ordered
      association list.
    - The browser, the file system, the clock and the random generator
      are an oracle ([world]); the crawler's methods are computations in
      a state-and-exception monad over the crawler's mutable [state], in
      which every observable effect is appended to a trace. *)

From Stdlib Require Import ZArith Lia List Ascii String.
From stdpp Require Import base option list gmap strings pretty.

Local Open Scope Z_scope.

(* ===================================================================== *)
(** * Python strings *)
(* ===================================================================== *)

Module PyStr.

(** [s.replace(old, new)] for a pattern [old] of one character. *)
Fixpoint replace (old : ascii) (new s : string) : string :=
  match s with
  | EmptyString => EmptyString
  | String c s' =>
      if Ascii.eqb c old then new +:+ replace old new s'
      else String c (replace old new s')
  end.

(** [sub in s]. *)
Fixpoint contains (sub s : string) : bool :=
  String.prefix sub s ||
  match s with
  | EmptyString => false
  | String _ s' => contains sub s'
  end.

(** [sep.join(parts)]. *)
Definition join (sep : string) (parts : list string) : string :=
  String.concat sep parts.

(** The first occurrence of [sep] in [s]: the text before it and the text
    after it. *)
Fixpoint cut (sep s : string) : option (string * string) :=
  if String.prefix sep s
  then Some (EmptyString, String.substring (String.length sep)
                            (String.length s - String.length sep) s)
  else match s with
       | EmptyString => None
       | String c s' =>
           match cut sep s' with
           | Some (a, b) => Some (String c a, b)
           | None => None
           end
       end.

(** [s.split(sep)] for a non-empty [sep]; every cut consumes at least one
    character, so [String.length s] rounds are enough. *)
Fixpoint split_rounds (n : nat) (sep s : string) : list string :=
  match n with
  | O => [s]
  | S n' =>
      match cut sep s with
      | Some (a, b) => a :: split_rounds n' sep b
      | None => [s]
      end
  end.

Definition split (sep s : string) : list string :=
  split_rounds (String.length s) sep s.

(** A byte [10xxxxxx] continues the character started before it. *)
Definition is_continuation (c : ascii) : bool :=
  let n := nat_of_ascii c in (128 <=? n)%nat && (n <? 192)%nat.

(** [list(s)]: the characters (code points) of [s] in order, each one as
    the string of its UTF-8 bytes. *)
Fixpoint chars (s : string) : list string :=
  match s with
  | EmptyString => []
  | String c s' =>
      match chars s' with
      | String c' ch :: rest =>
          if is_continuation c' then String c (String c' ch) :: rest
          else String c EmptyString :: String c' ch :: rest
      | rest => String c EmptyString :: rest
      end
  end.

(** [ord(ch)] for a character given by its UTF-8 bytes. *)
Definition code_point (ch : string) : N :=
  match map N_of_ascii (list_ascii_of_string ch) with
  | [b0] => b0
  | [b0; b1] => (b0 mod 32) * 64 + b1 mod 64
  | [b0; b1; b2] => (b0 mod 16) * 4096 + (b1 mod 64) * 64 + b2 mod 64
  | [b0; b1; b2; b3] =>
      (b0 mod 8) * 262144 + (b1 mod 64) * 4096 + (b2 mod 64) * 64 + b3 mod 64
  | _ => 0
  end%N.

(** [ch.isspace()]: the white space of the Unicode character database,
    which is what [str.strip()] removes. *)
Definition is_space (ch : string) : bool :=
  let n := code_point ch in
  (((9 <=? n) && (n <=? 13)) || ((28 <=? n) && (n <=? 32))
   || (n =? 133) || (n =? 160) || (n =? 5760)
   || ((8192 <=? n) && (n <=? 8202))
   || (n =? 8232) || (n =? 8233) || (n =? 8239) || (n =? 8287)
   || (n =? 12288))%N.

Fixpoint lstrip_chars (chs : list string) : list string :=
  match chs with
  | [] => []
  | ch :: rest => if is_space ch then lstrip_chars rest else chs
  end.

Definition rstrip_chars (chs : list string) : list string :=
  rev (lstrip_chars (rev chs)).

(** [s.strip()]. *)
Definition strip (s : string) : string :=
  String.concat EmptyString (rstrip_chars (lstrip_chars (chars s))).

End PyStr.

(* ===================================================================== *)
(** * [construct_search_url] *)
(* ===================================================================== *)

Definition space : ascii := " "%char.

Definition construct_search_url (keyword location : string) (page : Z) : string :=
  let keyword_encoded := PyStr.replace space "%20" keyword in
  let location_encoded := PyStr.replace space "%20" location in
  let start := (page - 1) * 25 in
  let base_url := "https://www.linkedin.com/jobs/search/" in
  let params :=
    [ "keywords=" +:+ keyword_encoded;
      "location=" +:+ location_encoded;
      "f_TPR=r86400";
      "geoId=92000000";
      "start=" +:+ pretty start ] in
  base_url +:+ "?" +:+ PyStr.join "&" params.

(* ===================================================================== *)
(** * Job records and the deduplication dictionary *)
(* ===================================================================== *)

Abbreviation job := (gmap string string).

Inductive exn : Type :=
  | TimeoutException (msg : string)
  | KeyError (key : string)
  | WebDriverException (msg : string).

(** [str(e)]. *)
Definition str_exn (e : exn) : string :=
  match e with
  | TimeoutException msg => msg
  | KeyError key => "'" +:+ key +:+ "'"
  | WebDriverException msg => msg
  end.

Definition is_TimeoutException (e : exn) : bool :=
  match e with TimeoutException _ => true | _ => false end.

(** Every exception of the model is an instance of [Exception]. *)
Definition is_Exception (e : exn) : bool := true.

Inductive result (A : Type) : Type :=
  | Ok (a : A)
  | Raise (e : exn).
Arguments Ok {A} a.
Arguments Raise {A} e.

(** [d[key]]. *)
Definition getitem (d : job) (key : string) : result string :=
  match d !! key with
  | Some v => Ok v
  | None => Raise (KeyError key)
  end.

Module ODict.

(** A [dict] in insertion order. *)
Definition t : Type := list (string * job).

Definition empty : t := [].

(** [key in d]. *)
Fixpoint mem (key : string) (d : t) : bool :=
  match d with
  | [] => false
  | (k, _) :: d' => if decide (k = key) then true else mem key d'
  end.

(** [d[key] = v]: an existing key keeps its position, a new key goes last. *)
Fixpoint setitem (key : string) (v : job) (d : t) : t :=
  match d with
  | [] => [(key, v)]
  | (k, v0) :: d' =>
      if decide (k = key) then (k, v) :: d' else (k, v0) :: setitem key v d'
  end.

(** [list(d.values())]. *)
Definition values (d : t) : list job := map snd d.

Definition keys (d : t) : list string := map fst d.

End ODict.

(** The loop of [run] that fills [unique_jobs]. *)
Fixpoint dedup_loop (all_job_listings : list job) (unique_jobs : ODict.t)
  : result ODict.t :=
  match all_job_listings with
  | [] => Ok unique_jobs
  | job :: rest =>
      match getitem job "job_id" with
      | Raise e => Raise e
      | Ok job_id =>
          if negb (ODict.mem job_id unique_jobs)
          then dedup_loop rest (ODict.setitem job_id job unique_jobs)
          else dedup_loop rest unique_jobs
      end
  end.

(** [unique_job_listings] as computed by [run] from [all_job_listings]. *)
Definition deduplicate (all_job_listings : list job) : result (list job) :=
  match dedup_loop all_job_listings ODict.empty with
  | Ok unique_jobs => Ok (ODict.values unique_jobs)
  | Raise e => Raise e
  end.

(* ===================================================================== *)
(** * The crawler's environment *)
(* ===================================================================== *)

(** One [li] of the results list: what each lookup of the item extraction
    returns, and the clock and random values read while the item is
    processed.  [get_attribute("href")] is taken to return a string. *)
Record listing_item : Type := {
  li_link : result string;      (* a.job-card-container__link, href *)
  li_title : result string;     (* h3.job-card-container__title, text *)
  li_company : result string;   (* h4.job-card-container__company-name, text *)
  li_location : result string;  (* .job-card-container__metadata-item, text *)
  li_time : Z;                  (* int(time.time()) *)
  li_randint : Z;               (* the random source of random.randint *)
  li_now : string;              (* datetime.now().strftime("%Y-%m-%d %H:%M:%S") *)
}.

(** What the browser answers after one page load.  Two consecutive calls
    that sit in the same [try] block with no effect between them share
    one field: the wait for an element and the read that follows it. *)
Record page : Type := {
  pg_load : result unit;                   (* driver.get / driver.refresh *)
  pg_scroll : nat -> result unit;          (* k-th execute_script("window.scrollBy(0, 800);") *)
  pg_results : result (list listing_item); (* wait for .jobs-search__results-list, find_elements li *)
  pg_description : result string;          (* wait for .jobs-description__content, text *)
  pg_job_type : result (list (result string));
                                           (* find_elements job-insight span, text of each *)
  pg_criteria : result (list (result (string * string)));
                                           (* find_elements job-criteria-item; subheader and text of each *)
  pg_profile_nav : result nat;             (* len(find_elements profile-rail-card) *)
  pg_nav_button : result nat;              (* len(find_elements global-nav__primary-link) *)
  pg_username : result unit;               (* wait for #username *)
  pg_password : result unit;               (* wait for #password *)
  pg_send_keys : string -> nat -> result unit;
                                           (* element.send_keys of the k-th character *)
  pg_submit : result unit;                 (* wait for the submit button, click *)
  pg_timestamp : string;                   (* datetime.now().strftime("%Y%m%d_%H%M%S") *)
  pg_save_screenshot : result unit;        (* driver.save_screenshot *)
}.

Record cookie : Type := {
  ck_expiry : option (result Z);  (* int(cookie['expiry']) when the key is present *)
  ck_add : result unit;           (* driver.add_cookie(cookie) *)
}.

Record world : Type := {
  w_user_agent : result string;       (* UserAgent().random *)
  w_chrome : result unit;             (* uc.Chrome(options=options) *)
  w_stealth : result unit;            (* stealth(driver, ...) *)
  w_js_evasions : result unit;        (* driver.execute_script of apply_js_evasions *)
  w_set_page_load_timeout : result unit;
  w_cookie_file : option (result (list cookie));
                                      (* None: no file; otherwise open and json.load *)
  w_save_cookies : result unit;       (* driver.get_cookies(), json.dump *)
  w_page : nat -> page;               (* the page served by the n-th load *)
  w_lower : string -> string;         (* str.lower *)
}.

(** The section [self.config['browser']] with every [.get(key, default)]
    resolved; its entries only shape the browser's command line. *)
Record browser_section : Type := {
  window_size : Z * Z;
  disable_images : bool;
  disable_javascript : bool;
  disable_extensions : bool;
}.

(** The section [self.config['search']], resolved likewise. *)
Record search_section : Type := {
  keywords : list string;
  locations : list string;
  pages_per_search : Z;
}.

(** The section [self.config['credentials']], resolved likewise. *)
Record credentials_section : Type := {
  use_credentials : bool;
  email : string;
  password : string;
}.

(** [self.config].  The entries of the section ['crawler'], which
    [__init__] has read, come first, resolved; the other three sections
    are [None] when the dictionary has no such key. *)
Record config : Type := {
  random_user_agent : bool;
  save_screenshots : bool;
  screenshot_dir : string;
  cookie_file : string;
  cfg_browser : option browser_section;
  cfg_search : option search_section;
  cfg_credentials : option credentials_section;
}.

(** [self.config[name]]. *)
Definition getsection {A} (name : string) (section : option A) : result A :=
  match section with
  | Some s => Ok s
  | None => Raise (KeyError name)
  end.

Inductive level : Type := INFO | WARNING | ERROR.

Inductive event : Type :=
  | EvLog (lvl : level) (msg : string)
  | EvChrome
  | EvGet (url : string)
  | EvRefresh
  | EvAddCookie
  | EvSendKeys (char : string)
  | EvClick
  | EvScroll
  | EvPause
  | EvRandomDelay (min_seconds max_seconds : nat)
  | EvScreenshot (filepath : string)
  | EvSaveCookies
  | EvQuit.

(** The crawler object and the local lists its methods append to. *)
Record state : Type := {
  st_driver : option bool;          (* self.driver; [Some b]: a session, open iff b *)
  st_navs : nat;                    (* page loads so far *)
  st_trace : list event;            (* effects so far, oldest first *)
  st_job_listings : list job;       (* job_listings of scrape_job_listings *)
  st_detailed_jobs : list job;      (* detailed_jobs of scrape_job_details *)
  st_all_job_listings : list job;   (* all_job_listings of run *)
  st_job_data : list job;           (* self.job_data *)
}.

(** [LinkedInCrawler.__init__]. *)
Definition init_state : state :=
  {| st_driver := None; st_navs := 0%nat; st_trace := [];
     st_job_listings := []; st_detailed_jobs := [];
     st_all_job_listings := []; st_job_data := [] |}.

(* ===================================================================== *)
(** * The state-and-exception monad *)
(* ===================================================================== *)

Definition M (A : Type) : Type := state -> result A * state.

Definition ret {A} (a : A) : M A := fun st => (Ok a, st).

Definition raise {A} (e : exn) : M A := fun st => (Raise e, st).

Definition bind {A B} (m : M A) (k : A -> M B) : M B :=
  fun st =>
    match m st with
    | (Ok a, st') => k a st'
    | (Raise e, st') => (Raise e, st')
    end.

Declare Scope crawl_scope.
Delimit Scope crawl_scope with crawl.
Notation "x <- m ;; k" := (bind m (fun x => k))
  (at level 100, m at next level, right associativity) : crawl_scope.
Notation "m ;; k" := (bind m (fun _ => k))
  (at level 100, right associativity) : crawl_scope.
Local Open Scope crawl_scope.

Definition lift {A} (r : result A) : M A := fun st => (r, st).

(** [try: body / except C as e: handler e], where [C] is the set of
    exceptions accepted by [catches]. *)
Definition try_except {A} (body : M A) (catches : exn -> bool)
    (handler : exn -> M A) : M A :=
  fun st =>
    match body st with
    | (Ok a, st') => (Ok a, st')
    | (Raise e, st') => if catches e then handler e st' else (Raise e, st')
    end.

(** [try: body / finally: cleanup]. *)
Definition try_finally {A} (body : M A) (cleanup : M unit) : M A :=
  fun st =>
    match body st with
    | (r, st') =>
        match cleanup st' with
        | (Ok _, st'') => (r, st'')
        | (Raise e, st'') => (Raise e, st'')
        end
    end.

(** [for x in xs: body x]. *)
Fixpoint for_each {X} (xs : list X) (body : X -> M unit) : M unit :=
  match xs with
  | [] => ret tt
  | x :: xs' => body x ;; for_each xs' body
  end.

(** [enumerate(xs)], counting from [i]. *)
Fixpoint enumerate_from {X} (i : nat) (xs : list X) : list (nat * X) :=
  match xs with
  | [] => []
  | x :: xs' => (i, x) :: enumerate_from (S i) xs'
  end.

Definition enumerate {X} (xs : list X) : list (nat * X) := enumerate_from 0 xs.

(** [range(lo, hi)]. *)
Definition range (lo hi : Z) : list Z :=
  map (fun k => lo + Z.of_nat k) (seq 0 (Z.to_nat (hi - lo))).

(** The error monad of the pure extraction steps. *)
Definition rbind {A B} (r : result A) (k : A -> result B) : result B :=
  match r with
  | Ok a => k a
  | Raise e => Raise e
  end.

(** ** Primitive effects *)

Definition emit (ev : event) : M unit :=
  fun st =>
    (Ok tt,
     {| st_driver := st_driver st; st_navs := st_navs st;
        st_trace := st_trace st ++ [ev];
        st_job_listings := st_job_listings st;
        st_detailed_jobs := st_detailed_jobs st;
        st_all_job_listings := st_all_job_listings st;
        st_job_data := st_job_data st |}).

Definition load_next_page : M unit :=
  fun st =>
    (Ok tt,
     {| st_driver := st_driver st; st_navs := S (st_navs st);
        st_trace := st_trace st;
        st_job_listings := st_job_listings st;
        st_detailed_jobs := st_detailed_jobs st;
        st_all_job_listings := st_all_job_listings st;
        st_job_data := st_job_data st |}).

Definition set_driver (d : option bool) : M unit :=
  fun st =>
    (Ok tt,
     {| st_driver := d; st_navs := st_navs st;
        st_trace := st_trace st;
        st_job_listings := st_job_listings st;
        st_detailed_jobs := st_detailed_jobs st;
        st_all_job_listings := st_all_job_listings st;
        st_job_data := st_job_data st |}).

Definition set_job_listings (l : list job) : M unit :=
  fun st =>
    (Ok tt,
     {| st_driver := st_driver st; st_navs := st_navs st;
        st_trace := st_trace st;
        st_job_listings := l;
        st_detailed_jobs := st_detailed_jobs st;
        st_all_job_listings := st_all_job_listings st;
        st_job_data := st_job_data st |}).

Definition set_detailed_jobs (l : list job) : M unit :=
  fun st =>
    (Ok tt,
     {| st_driver := st_driver st; st_navs := st_navs st;
        st_trace := st_trace st;
        st_job_listings := st_job_listings st;
        st_detailed_jobs := l;
        st_all_job_listings := st_all_job_listings st;
        st_job_data := st_job_data st |}).

Definition set_all_job_listings (l : list job) : M unit :=
  fun st =>
    (Ok tt,
     {| st_driver := st_driver st; st_navs := st_navs st;
        st_trace := st_trace st;
        st_job_listings := st_job_listings st;
        st_detailed_jobs := st_detailed_jobs st;
        st_all_job_listings := l;
        st_job_data := st_job_data st |}).

Definition set_job_data (l : list job) : M unit :=
  fun st =>
    (Ok tt,
     {| st_driver := st_driver st; st_navs := st_navs st;
        st_trace := st_trace st;
        st_job_listings := st_job_listings st;
        st_detailed_jobs := st_detailed_jobs st;
        st_all_job_listings := st_all_job_listings st;
        st_job_data := l |}).

Definition get {X} (field : state -> X) : M X := fun st => (Ok (field st), st).

(** The page the browser currently shows. *)
Definition current_page (w : world) : M page :=
  fun st => (Ok (w_page w (st_navs st)), st).

Definition logger_info (msg : string) : M unit := emit (EvLog INFO msg).
Definition logger_warning (msg : string) : M unit := emit (EvLog WARNING msg).
Definition logger_error (msg : string) : M unit := emit (EvLog ERROR msg).

(** [self.driver.get(url)]. *)
Definition driver_get (w : world) (url : string) : M unit :=
  emit (EvGet url) ;;
  load_next_page ;;
  pg <- current_page w ;;
  lift (pg_load pg).

(** [self.driver.refresh()]. *)
Definition driver_refresh (w : world) : M unit :=
  emit EvRefresh ;;
  load_next_page ;;
  pg <- current_page w ;;
  lift (pg_load pg).

(** [self.driver.quit()]. *)
Definition driver_quit : M unit :=
  emit EvQuit ;;
  set_driver (Some false).

(** [job_listings.append(job_data)] and its two siblings. *)
Definition append_job_listings (job_data : job) : M unit :=
  l <- get st_job_listings ;; set_job_listings (l ++ [job_data]).

Definition append_detailed_jobs (job_data : job) : M unit :=
  l <- get st_detailed_jobs ;; set_detailed_jobs (l ++ [job_data]).

Definition extend_all_job_listings (job_listings : list job) : M unit :=
  l <- get st_all_job_listings ;; set_all_job_listings (l ++ job_listings).

(* ===================================================================== *)
(** * The methods of [LinkedInCrawler] *)
(* ===================================================================== *)

Section Crawler.

Variable cfg : config.
Variable w : world.

(** [random_delay(min_seconds, max_seconds)]: a sleep; only its bounds
    are recorded. *)
Definition random_delay (min_seconds max_seconds : nat) : M unit :=
  emit (EvRandomDelay min_seconds max_seconds).

Definition take_screenshot (name : string) : M unit :=
  if negb (save_screenshots cfg) then ret tt
  else
    try_except
      (pg <- current_page w ;;
       let timestamp := pg_timestamp pg in
       let filename := name +:+ "_" +:+ timestamp +:+ ".png" in
       let filepath := screenshot_dir cfg +:+ "/" +:+ filename in
       lift (pg_save_screenshot pg) ;;
       emit (EvScreenshot filepath) ;;
       logger_info ("截图已保存: " +:+ filepath))
      is_Exception
      (fun e => logger_error ("保存截图时出错: " +:+ str_exn e)).

(** [scroll_page(max_scrolls=5)]; the optional pointer move is wrapped in
    a bare [except: pass] and leaves no trace. *)
Definition scroll_page : M unit :=
  try_except
    (for_each (seq 0 5) (fun k =>
       pg <- current_page w ;;
       lift (pg_scroll pg k) ;;
       emit EvScroll ;;
       emit EvPause))
    is_Exception
    (fun e => logger_warning ("滚动页面时出错: " +:+ str_exn e)).

Definition type_like_human (field : string) (text : string) : M unit :=
  for_each (enumerate (PyStr.chars text)) (fun '(k, char) =>
    pg <- current_page w ;;
    lift (pg_send_keys pg field k) ;;
    emit (EvSendKeys char) ;;
    emit EvPause).

(** [apply_js_evasions(driver)] of [anti_detect.py]. *)
Definition apply_js_evasions : M unit :=
  try_except
    (lift (w_js_evasions w) ;;
     logger_info "已应用JavaScript反检测脚本")
    is_Exception
    (fun e => logger_error ("应用JavaScript反检测脚本时出错: " +:+ str_exn e)).

(** [setup_anti_detection(driver)] of [anti_detect.py]. *)
Definition setup_anti_detection : M unit :=
  try_except
    (lift (w_stealth w) ;;
     apply_js_evasions ;;
     logger_info "已应用反检测措施")
    is_Exception
    (fun e => logger_error ("应用反检测措施时出错: " +:+ str_exn e)).

(** [setup_driver].  The options object is built from the sections
    ['browser'] and ['crawler']; its arguments only shape the browser's
    command line, but the first subscript of ['browser'] raises when the
    section is missing. *)
Definition setup_driver : M unit :=
  try_except
    (_ <- lift (getsection "browser" (cfg_browser cfg)) ;;
     (if random_user_agent cfg
      then (_ <- lift (w_user_agent w) ;; ret tt)
      else ret tt) ;;
     lift (w_chrome w) ;;
     emit EvChrome ;;
     set_driver (Some true) ;;
     setup_anti_detection ;;
     lift (w_set_page_load_timeout w) ;;
     logger_info "WebDriver初始化成功")
    is_Exception
    (fun e =>
       logger_error ("WebDriver初始化失败: " +:+ str_exn e) ;;
       raise e).

Definition load_cookies : M bool :=
  match w_cookie_file w with
  | None =>
      logger_warning ("Cookie文件不存在: " +:+ cookie_file cfg) ;;
      ret false
  | Some content =>
      try_except
        (driver_get w "https://www.linkedin.com" ;;
         random_delay 1 2 ;;
         cookies <- lift content ;;
         for_each cookies (fun cookie =>
           match ck_expiry cookie with
           | Some expiry => (_ <- lift expiry ;; ret tt)
           | None => ret tt
           end ;;
           try_except
             (lift (ck_add cookie) ;;
              emit EvAddCookie)
             is_Exception
             (fun e => logger_warning ("添加cookie时出错: " +:+ str_exn e))) ;;
         driver_refresh w ;;
         random_delay 2 3 ;;
         logger_info "成功加载Cookie" ;;
         ret true)
        is_Exception
        (fun e =>
           logger_error ("加载Cookie时出错: " +:+ str_exn e) ;;
           ret false)
  end.

Definition save_cookies : M unit :=
  try_except
    (lift (w_save_cookies w) ;;
     emit EvSaveCookies ;;
     logger_info ("Cookie已保存到: " +:+ cookie_file cfg))
    is_Exception
    (fun e => logger_error ("保存Cookie时出错: " +:+ str_exn e)).

Definition is_logged_in : M bool :=
  try_except
    (driver_get w "https://www.linkedin.com/feed/" ;;
     random_delay 2 3 ;;
     pg <- current_page w ;;
     profile_nav <- lift (pg_profile_nav pg) ;;
     nav_button <- lift (pg_nav_button pg) ;;
     ret ((0 <? profile_nav)%nat || (0 <? nav_button)%nat))
    is_Exception
    (fun e =>
       logger_error ("检查登录状态时出错: " +:+ str_exn e) ;;
       ret false).

(** The part of [login] after the cookie attempt.  The subscript
    [self.config['credentials']] that opens it stands outside the [try]. *)
Definition login_with_credentials : M bool :=
  creds <- lift (getsection "credentials" (cfg_credentials cfg)) ;;
  if use_credentials creds then
    try_except
      (if bool_decide (email creds = "") || bool_decide (password creds = "")
       then
         logger_error "未提供有效的LinkedIn账号或密码" ;;
         ret false
       else
         driver_get w "https://www.linkedin.com/login" ;;
         random_delay 2 3 ;;
         pg <- current_page w ;;
         lift (pg_username pg) ;;
         type_like_human "username" (email creds) ;;
         lift (pg_password pg) ;;
         type_like_human "password" (password creds) ;;
         lift (pg_submit pg) ;;
         emit EvClick ;;
         random_delay 5 8 ;;
         logged <- is_logged_in ;;
         if logged : bool then
           logger_info "使用账号密码成功登录" ;;
           save_cookies ;;
           ret true
         else
           logger_error "登录失败，可能需要处理验证码或其他安全检查" ;;
           take_screenshot "login_failed" ;;
           ret false)
      is_Exception
      (fun e =>
         logger_error ("登录过程中出错: " +:+ str_exn e) ;;
         take_screenshot "login_error" ;;
         ret false)
  else
    logger_warning "无法登录LinkedIn，将以未登录状态继续" ;;
    ret false.

Definition login : M bool :=
  loaded <- load_cookies ;;
  if loaded : bool then
    logged <- is_logged_in ;;
    if logged : bool then
      logger_info "使用Cookie成功登录" ;;
      ret true
    else login_with_credentials
  else login_with_credentials.

(** [extract_job_id(job_url)], given the clock and random values it may
    read.  On a string no branch raises, so the [except] clause is dead. *)
Definition extract_job_id (time randint : Z) (job_url : string) : string :=
  if PyStr.contains "currentJobId=" job_url then
    nth 0 (PyStr.split "&" (nth 1 (PyStr.split "currentJobId=" job_url) "")) ""
  else if PyStr.contains "/view/" job_url then
    nth 0 (PyStr.split "/" (nth 1 (PyStr.split "/view/" job_url) "")) ""
  else
    "unknown_" +:+ pretty time +:+ "_" +:+ pretty (1000 + randint `mod` 9000).

(** The body of the per-item [try] of [scrape_job_listings], up to the
    dictionary it builds. *)
Definition listing_record (keyword location : string) (job_item : listing_item)
  : result job :=
  rbind (li_link job_item) (fun job_link =>
  let job_id := extract_job_id (li_time job_item) (li_randint job_item) job_link in
  rbind (li_title job_item) (fun title_text =>
  let job_title := PyStr.strip title_text in
  rbind (li_company job_item) (fun company_text =>
  let company := PyStr.strip company_text in
  rbind (li_location job_item) (fun location_text =>
  let job_location := PyStr.strip location_text in
  Ok (<["job_id" := job_id]>
      (<["job_title" := job_title]>
      (<["company" := company]>
      (<["location" := job_location]>
      (<["job_link" := job_link]>
      (<["search_keyword" := keyword]>
      (<["search_location" := location]>
      (<["crawl_time" := li_now job_item]> (∅ : job))))))))))))).

(** How an iteration of a [for] loop ends: by reaching the end of its
    body or by [continue]. *)
Inductive flow : Type := Next | Continue.

(** One iteration of the page loop of [scrape_job_listings]. *)
Definition scrape_listing_page (keyword location : string) (pages page : Z)
  : M unit :=
  logger_info ("正在抓取 '" +:+ keyword +:+ "' 在 '" +:+ location +:+ "' 的第 "
               +:+ pretty page +:+ " 页") ;;
  let search_url := construct_search_url keyword location page in
  driver_get w search_url ;;
  random_delay 3 5 ;;
  scroll_page ;;
  fl <- try_except
    (pg <- current_page w ;;
     job_items <- lift (pg_results pg) ;;
     logger_info ("找到 " +:+ pretty (Z.of_nat (length job_items))
                  +:+ " 个职位列表项") ;;
     for_each job_items (fun job_item =>
       try_except
         (job_data <- lift (listing_record keyword location job_item) ;;
          append_job_listings job_data)
         is_Exception
         (fun e => logger_warning ("提取职位项时出错: " +:+ str_exn e))) ;;
     ret Next)
    is_TimeoutException
    (fun _ =>
       logger_warning ("等待职位列表超时，页面 " +:+ pretty page) ;;
       take_screenshot ("timeout_page_" +:+ pretty page) ;;
       ret Continue) ;;
  match fl with
  | Continue => ret tt
  | Next => if page <? pages then random_delay 5 8 else ret tt
  end.

Definition scrape_job_listings (keyword location : string) (pages : Z)
  : M (list job) :=
  set_job_listings [] ;;
  try_except
    (for_each (range 1 (pages + 1)) (scrape_listing_page keyword location pages))
    is_Exception
    (fun e =>
       logger_error ("抓取职位列表时出错: " +:+ str_exn e) ;;
       take_screenshot "job_listing_error") ;;
  get st_job_listings.

(** The two best-effort blocks of [scrape_job_details] that fill
    [job_details]; each sits in a bare [except: pass], so a failure keeps
    what was stored before it. *)
Definition job_type_details (pg : page) (job_details : job) : job :=
  match pg_job_type pg with
  | Ok (Ok text :: _) => <["job_type" := PyStr.strip text]> job_details
  | _ => job_details
  end.

Fixpoint criteria_loop (lower : string -> string)
    (criteria_elems : list (result (string * string)))
    (job_details : job) : job :=
  match criteria_elems with
  | Ok (label_text, value_text) :: rest =>
      let label := PyStr.replace space "_" (lower (PyStr.strip label_text)) in
      let value := PyStr.strip value_text in
      criteria_loop lower rest (<[label := value]> job_details)
  | _ => job_details
  end.

Definition criteria_details (pg : page) (job_details : job) : job :=
  match pg_criteria pg with
  | Ok criteria_elems => criteria_loop (w_lower w) criteria_elems job_details
  | Raise _ => job_details
  end.

(** [d.update(other)]: the entries of [other] win. *)
Definition update (d other : job) : job := other ∪ d.

Definition timeout_marker : string := "[抓取失败]".

Definition error_marker (e : exn) : string := "[抓取错误: " +:+ str_exn e +:+ "]".

(** One iteration of the loop of [scrape_job_details] over
    [enumerate(job_listings)]; [n] is [len(job_listings)]. *)
Definition scrape_job_detail (n : nat) (i : nat) (job : job) : M unit :=
  try_except
    (job_title <- lift (getitem job "job_title") ;;
     company <- lift (getitem job "company") ;;
     logger_info ("正在抓取职位详情 [" +:+ pretty (Z.of_nat i + 1) +:+ "/"
                  +:+ pretty (Z.of_nat n) +:+ "]: " +:+ job_title +:+ " at "
                  +:+ company) ;;
     job_link <- lift (getitem job "job_link") ;;
     driver_get w job_link ;;
     random_delay 3 5 ;;
     try_except
       (pg <- current_page w ;;
        text <- lift (pg_description pg) ;;
        let job_description := PyStr.strip text in
        let job_details := criteria_details pg (job_type_details pg ∅) in
        let job_data := job in
        let job_data := <["job_description" := job_description]> job_data in
        let job_data := update job_data job_details in
        append_detailed_jobs job_data)
       is_TimeoutException
       (fun _ =>
          job_title <- lift (getitem job "job_title") ;;
          logger_warning ("等待职位描述超时: " +:+ job_title) ;;
          take_screenshot ("timeout_job_" +:+ pretty (Z.of_nat i)) ;;
          let job_data := job in
          let job_data := <["job_description" := timeout_marker]> job_data in
          append_detailed_jobs job_data) ;;
     if Z.of_nat i <? Z.of_nat n - 1 then random_delay 4 7 else ret tt)
    is_Exception
    (fun e =>
       logger_error ("抓取职位详情时出错: " +:+ str_exn e) ;;
       take_screenshot ("job_detail_error_" +:+ pretty (Z.of_nat i)) ;;
       let job_data := job in
       let job_data := <["job_description" := error_marker e]> job_data in
       append_detailed_jobs job_data).

Definition scrape_job_details (job_listings : list job) : M (list job) :=
  set_detailed_jobs [] ;;
  for_each (enumerate job_listings) (fun '(i, job) =>
    scrape_job_detail (length job_listings) i job) ;;
  get st_detailed_jobs.

(** [xs[-1]] where the list is known to be non-empty. *)
Definition last_item (xs : list string) : string := List.last xs "".

(** One iteration of the inner loop of [run]. *)
Definition search_combination (search : search_section)
    (keyword location : string) : M unit :=
  logger_info ("开始搜索关键词 '" +:+ keyword +:+ "' 在 '" +:+ location +:+ "'") ;;
  job_listings <- scrape_job_listings keyword location (pages_per_search search) ;;
  logger_info ("找到 " +:+ pretty (Z.of_nat (length job_listings))
               +:+ " 个职位列表项") ;;
  extend_all_job_listings job_listings ;;
  if bool_decide (keyword ≠ last_item (keywords search))
     || bool_decide (location ≠ last_item (locations search))
  then random_delay 10 15
  else ret tt.

(** The [try] block of [run] after [setup_driver] and [login]: search,
    deduplication and detail stages.  It opens with the subscript
    [self.config['search']]. *)
Definition run_stages : M (list job) :=
  search <- lift (getsection "search" (cfg_search cfg)) ;;
  set_all_job_listings [] ;;
  for_each (keywords search) (fun keyword =>
    for_each (locations search) (fun location =>
      search_combination search keyword location)) ;;
  all_job_listings <- get st_all_job_listings ;;
  logger_info ("总共找到 " +:+ pretty (Z.of_nat (length all_job_listings))
               +:+ " 个职位列表项") ;;
  unique_job_listings <- lift (deduplicate all_job_listings) ;;
  logger_info ("去重后剩余 " +:+ pretty (Z.of_nat (length unique_job_listings))
               +:+ " 个职位") ;;
  detailed_jobs <- scrape_job_details unique_job_listings ;;
  set_job_data detailed_jobs ;;
  ret detailed_jobs.

(** The [try] block of [run]. *)
Definition run_try : M (list job) :=
  setup_driver ;;
  _ <- login ;;
  run_stages.

(** The [finally] block of [run]. *)
Definition run_finally : M unit :=
  driver <- get st_driver ;;
  match driver with
  | Some _ =>
      driver_quit ;;
      logger_info "WebDriver已关闭"
  | None => ret tt
  end.

Definition run : M (list job) :=
  try_finally
    (try_except run_try is_Exception
       (fun e =>
          logger_error ("爬虫运行时出错: " +:+ str_exn e) ;;
          raise e))
    run_finally.

End Crawler.

(* ===================================================================== *)
(** * Outcomes of the detail stage *)
(* ===================================================================== *)

(** How the detail fetch of one listing ends. *)
Inductive fetch : Type :=
  | Fetched (text : string)
  | TimedOut
  | Failed (e : exn).

(** The fetch outcome of [job] when the page served for it is [pg]: the
    record's own keys are read first, then the page is loaded, then the
    description container is awaited. *)
Definition detail_fetch (job : job) (pg : page) : fetch :=
  match getitem job "job_title" with
  | Raise e => Failed e
  | Ok _ =>
  match getitem job "company" with
  | Raise e => Failed e
  | Ok _ =>
  match getitem job "job_link" with
  | Raise e => Failed e
  | Ok _ =>
  match pg_load pg with
  | Raise e => Failed e
  | Ok _ =>
  match pg_description pg with
  | Raise e => if is_TimeoutException e then TimedOut else Failed e
  | Ok text => Fetched text
  end end end end end.

(** Page loads caused by the detail fetch of [job]: none when a key read
    before the navigation is missing. *)
Definition detail_loads (job : job) : nat :=
  match getitem job "job_title", getitem job "company", getitem job "job_link" with
  | Ok _, Ok _, Ok _ => 1
  | _, _, _ => 0
  end.

(** The fetch outcomes of the items of [job_listings] when the crawl has
    loaded [navs] pages before the detail stage starts. *)
Fixpoint detail_fetches (w : world) (navs : nat) (job_listings : list job)
  : list fetch :=
  match job_listings with
  | [] => []
  | job :: rest =>
      detail_fetch job (w_page w (S navs))
      :: detail_fetches w (navs + detail_loads job) rest
  end.

(** What the detail stage promises about the record [r] it emits for
    [job], by fetch outcome. *)
Definition detail_result (listing : job) (f : fetch) (r : job) : Prop :=
  match f with
  | TimedOut => r = <["job_description" := timeout_marker]> listing
  | Failed e => r = <["job_description" := error_marker e]> listing
  | Fetched _ => is_Some (r !! "job_description")
  end.

(* ===================================================================== *)
(** * Outcomes of the listing stage *)
(* ===================================================================== *)

(** What [take_screenshot(name)] appends to the trace on page [pg]. *)
Definition screenshot_events (cfg : config) (pg : page) (name : string)
  : list event :=
  if save_screenshots cfg then
    let filepath :=
      screenshot_dir cfg +:+ "/" +:+ name +:+ "_" +:+ pg_timestamp pg +:+ ".png" in
    match pg_save_screenshot pg with
    | Ok _ => [EvScreenshot filepath; EvLog INFO ("截图已保存: " +:+ filepath)]
    | Raise e => [EvLog ERROR ("保存截图时出错: " +:+ str_exn e)]
    end
  else [].

(** How one search page ends: its items are extracted, the wait for the
    results container times out, or an exception leaves the page loop. *)
Inductive page_outcome : Type :=
  | Extracted (job_items : list listing_item)
  | PageTimeout
  | Aborted (e : exn).

Definition listing_outcome (pg : page) : page_outcome :=
  match pg_load pg with
  | Raise e => Aborted e
  | Ok _ =>
      match pg_results pg with
      | Ok job_items => Extracted job_items
      | Raise e => if is_TimeoutException e then PageTimeout else Aborted e
      end
  end.

(** The records of the items whose extraction succeeds, in page order. *)
Definition extracted_records (keyword location : string)
    (job_items : list listing_item) : list job :=
  flat_map (fun job_item =>
              match listing_record keyword location job_item with
              | Ok job_data => [job_data]
              | Raise _ => []
              end) job_items.

Definition page_records (keyword location : string) (pg : page) : list job :=
  match listing_outcome pg with
  | Extracted job_items => extracted_records keyword location job_items
  | PageTimeout => []
  | Aborted _ => []
  end.

(** The pages the loop of [scrape_job_listings] loads when [navs] pages
    were loaded before it: one per page number, up to and including the
    first page that aborts. *)
Fixpoint pages_loaded (w : world) (navs : nat) (page_numbers : list Z)
  : list (Z * page) :=
  match page_numbers with
  | [] => []
  | p :: rest =>
      let pg := w_page w (S navs) in
      (p, pg) :: match listing_outcome pg with
                 | Aborted _ => []
                 | _ => pages_loaded w (S navs) rest
                 end
  end.

(** What the timeout handler of a search page appends to the trace. *)
Definition timeout_events (cfg : config) (pg : page) (p : Z) : list event :=
  EvLog WARNING ("等待职位列表超时，页面 " +:+ pretty p)
  :: screenshot_events cfg pg ("timeout_page_" +:+ pretty p).

(** What the function-level handler of [scrape_job_listings] appends. *)
Definition abort_events (cfg : config) (pg : page) (e : exn) : list event :=
  EvLog ERROR ("抓取职位列表时出错: " +:+ str_exn e)
  :: screenshot_events cfg pg "job_listing_error".

(** The exception that ended the page loop, if one did: the loop stops at
    the first page that aborts, so only the last loaded page can. *)
Definition abort_of (loaded : list (Z * page)) : option exn :=
  match List.last (map Some loaded) None with
  | Some (_, pg) =>
      match listing_outcome pg with
      | Aborted e => Some e
      | _ => None
      end
  | None => None
  end.

(** The records [scrape_job_listings] has accumulated over the pages it
    loaded. *)
Definition loaded_records (keyword location : string)
    (loaded : list (Z * page)) : list job :=
  flat_map (fun lp => page_records keyword location (snd lp)) loaded.

(** The trace shows the timeout handler of page [p]. *)
Definition timeout_handled (cfg : config) (tr : list event)
    (lp : Z * page) : Prop :=
  listing_outcome (snd lp) = PageTimeout ->
  exists t1 t2, tr = t1 ++ timeout_events cfg (snd lp) (fst lp) ++ t2.

(** The trace shows the navigation to search page [p]. *)
Definition navigated (keyword location : string) (tr : list event)
    (lp : Z * page) : Prop :=
  exists t1 t2,
    tr = t1 ++ EvGet (construct_search_url keyword location (fst lp)) :: t2.

(* ===================================================================== *)
(** * Sample configuration and environments *)
(* ===================================================================== *)

(** The configuration of the module's own [__main__] block. *)
Definition test_config : config :=
  {| random_user_agent := true;
     save_screenshots := true;
     screenshot_dir := "logs/screenshots";
     cookie_file := "linkedin_cookies.json";
     cfg_browser :=
       Some {| window_size := (1920, 1080);
               disable_images := false;
               disable_javascript := false;
               disable_extensions := true |};
     cfg_search :=
       Some {| keywords := ["Python Developer"];
               locations := ["United States"];
               pages_per_search := 1 |};
     cfg_credentials :=
       Some {| use_credentials := false; email := ""; password := "" |} |}.

(** [cfg] with the given section ['search'], or without one. *)
Definition with_section_search (section : option search_section)
    (cfg : config) : config :=
  {| random_user_agent := random_user_agent cfg;
     save_screenshots := save_screenshots cfg;
     screenshot_dir := screenshot_dir cfg;
     cookie_file := cookie_file cfg;
     cfg_browser := cfg_browser cfg;
     cfg_search := section;
     cfg_credentials := cfg_credentials cfg |}.

(** [cfg] with the given section ['credentials'], or without one. *)
Definition with_section_credentials (section : option credentials_section)
    (cfg : config) : config :=
  {| random_user_agent := random_user_agent cfg;
     save_screenshots := save_screenshots cfg;
     screenshot_dir := screenshot_dir cfg;
     cookie_file := cookie_file cfg;
     cfg_browser := cfg_browser cfg;
     cfg_search := cfg_search cfg;
     cfg_credentials := section |}.

(** [cfg] with the given section ['browser'], or without one. *)
Definition with_section_browser (section : option browser_section)
    (cfg : config) : config :=
  {| random_user_agent := random_user_agent cfg;
     save_screenshots := save_screenshots cfg;
     screenshot_dir := screenshot_dir cfg;
     cookie_file := cookie_file cfg;
     cfg_browser := section;
     cfg_search := cfg_search cfg;
     cfg_credentials := cfg_credentials cfg |}.

Definition with_search (ks ls : list string) (cfg : config) : config :=
  with_section_search
    (Some {| keywords := ks; locations := ls; pages_per_search := 1 |}) cfg.

Definition with_screenshots (b : bool) (cfg : config) : config :=
  {| random_user_agent := random_user_agent cfg;
     save_screenshots := b;
     screenshot_dir := screenshot_dir cfg;
     cookie_file := cookie_file cfg;
     cfg_browser := cfg_browser cfg;
     cfg_search := cfg_search cfg;
     cfg_credentials := cfg_credentials cfg |}.

(** [str.lower] on ASCII text; the sample pages below hold no other
    cased letter. *)
Definition ascii_lower_char (c : ascii) : ascii :=
  let n := nat_of_ascii c in
  if ((65 <=? n)%nat && (n <=? 90)%nat)%bool then ascii_of_nat (n + 32) else c.

Fixpoint ascii_lower (s : string) : string :=
  match s with
  | EmptyString => EmptyString
  | String c s' => String (ascii_lower_char c) (ascii_lower s')
  end.

Definition no_such_element : exn := WebDriverException "no such element".

(** A page that loads and on which every awaited element is missing. *)
Definition bare_page : page :=
  {| pg_load := Ok tt;
     pg_scroll := fun _ => Ok tt;
     pg_results := Raise (TimeoutException "Message: ");
     pg_description := Raise (TimeoutException "Message: ");
     pg_job_type := Ok [];
     pg_criteria := Ok [];
     pg_profile_nav := Ok 0%nat;
     pg_nav_button := Ok 0%nat;
     pg_username := Raise (TimeoutException "Message: ");
     pg_password := Raise (TimeoutException "Message: ");
     pg_send_keys := fun _ _ => Ok tt;
     pg_submit := Raise (TimeoutException "Message: ");
     pg_timestamp := "20240101_120000";
     pg_save_screenshot := Ok tt |}.

(** A detail page whose description container is present with the given
    text. *)
Definition description_page (text : string) : page :=
  {| pg_load := Ok tt;
     pg_scroll := fun _ => Ok tt;
     pg_results := Raise (TimeoutException "Message: ");
     pg_description := Ok text;
     pg_job_type := Ok [];
     pg_criteria := Ok [];
     pg_profile_nav := Ok 0%nat;
     pg_nav_button := Ok 0%nat;
     pg_username := Raise (TimeoutException "Message: ");
     pg_password := Raise (TimeoutException "Message: ");
     pg_send_keys := fun _ _ => Ok tt;
     pg_submit := Raise (TimeoutException "Message: ");
     pg_timestamp := "20240101_120000";
     pg_save_screenshot := Ok tt |}.

(** A healthy machine with no cookie file that serves [pages]. *)
Definition world_serving (pages : nat -> page) : world :=
  {| w_user_agent := Ok "Mozilla/5.0";
     w_chrome := Ok tt;
     w_stealth := Ok tt;
     w_js_evasions := Ok tt;
     w_set_page_load_timeout := Ok tt;
     w_cookie_file := None;
     w_save_cookies := Ok tt;
     w_page := pages;
     w_lower := ascii_lower |}.

(** A machine on which the browser cannot be started. *)
Definition world_without_browser : world :=
  {| w_user_agent := Ok "Mozilla/5.0";
     w_chrome := Raise (WebDriverException "cannot find Chrome binary");
     w_stealth := Ok tt;
     w_js_evasions := Ok tt;
     w_set_page_load_timeout := Ok tt;
     w_cookie_file := None;
     w_save_cookies := Ok tt;
     w_page := fun _ => bare_page;
     w_lower := ascii_lower |}.

Definition sample_listing : job :=
  <["job_id" := "3912345678"]>
  (<["job_title" := "Python Developer"]>
  (<["company" := "Acme"]>
  (<["location" := "Remote"]>
  (<["job_link" := "https://www.linkedin.com/jobs/view/3912345678/"]>
  (<["search_keyword" := "Python Developer"]>
  (<["search_location" := "United States"]>
  (<["crawl_time" := "2024-01-01 12:00:00"]> (∅ : job)))))))).

(** A search page whose results list holds the given items. *)
Definition results_page (job_items : list listing_item) : page :=
  {| pg_load := Ok tt;
     pg_scroll := fun _ => Ok tt;
     pg_results := Ok job_items;
     pg_description := Raise (TimeoutException "Message: ");
     pg_job_type := Ok [];
     pg_criteria := Ok [];
     pg_profile_nav := Ok 0%nat;
     pg_nav_button := Ok 0%nat;
     pg_username := Raise (TimeoutException "Message: ");
     pg_password := Raise (TimeoutException "Message: ");
     pg_send_keys := fun _ _ => Ok tt;
     pg_submit := Raise (TimeoutException "Message: ");
     pg_timestamp := "20240101_120000";
     pg_save_screenshot := Ok tt |}.

Definition sample_item : listing_item :=
  {| li_link := Ok "https://www.linkedin.com/jobs/view/3912345678/?refId=abc";
     li_title := Ok "Python Developer";
     li_company := Ok " Acme ";
     li_location := Ok "Remote";
     li_time := 1704110400;
     li_randint := 42;
     li_now := "2024-01-01 12:00:00" |}.

(** The first page served times out on the results container, the later
    ones hold one item. *)
Definition first_page_times_out (n : nat) : page :=
  match n with
  | 1%nat => bare_page
  | _ => results_page [sample_item]
  end.

(* ===================================================================== *)
(** * Notions used to state the properties *)
(* ===================================================================== *)

(** What [replace(' ', '%20')] does to one character. *)
Definition encode_char (c : ascii) : list ascii :=
  if Ascii.eqb c space then ["%"; "2"; "0"]%char else [c].

Definition encode_spaces (s : string) : string := PyStr.replace space "%20" s.

Definition job_id_of (j : job) : option string := j !! "job_id".

(** The records of [l] whose [job_id] is neither in [seen] nor carried by
    an earlier record of [l]. *)
Fixpoint first_occurrences (seen : list string) (l : list job) : list job :=
  match l with
  | [] => []
  | j :: rest =>
      match job_id_of j with
      | Some k =>
          if decide (k ∈ seen) then first_occurrences seen rest
          else j :: first_occurrences (seen ++ [k]) rest
      | None => first_occurrences seen rest
      end
  end.

Definition entry (j : job) : string * job := (default "" (job_id_of j), j).

(** The positions [idx] are listed in strictly increasing order. *)
Definition increasing (idx : list nat) : Prop :=
  forall a b ia ib,
    (a < b)%nat -> idx !! a = Some ia -> idx !! b = Some ib -> (ia < ib)%nat.

(** [u] stands at position [i] of [l], and no record before position [i]
    carries the [job_id] of [u]. *)
Definition first_at (l : list job) (i : nat) (u : job) : Prop :=
  l !! i = Some u
  /\ forall i' j', (i' < i)%nat -> l !! i' = Some j' ->
                   j' !! "job_id" <> u !! "job_id".

Definition sample_job (job_id job_title : string) : job :=
  <["job_id" := job_id]> (<["job_title" := job_title]> ∅).

(** [same f]: the computation leaves the field [f] of the state alone. *)
Definition same {X} (f : state -> X) : relation state :=
  fun st st' => f st' = f st.

(** [quiet]: the computation only appends to the trace, and appends no
    inter-combination delay, which is the only use of
    [random_delay(10, 15)]. *)
Definition quiet : relation state :=
  fun st st' =>
    exists evs, st_trace st' = st_trace st ++ evs
                /\ Forall (fun ev => ev <> EvRandomDelay 10 15) evs.

(** [calm]: the computation touches the browser and the trace only, none
    of the crawler's own fields. *)
Definition calm : relation state :=
  fun st st' =>
    st_driver st' = st_driver st
    /\ st_job_listings st' = st_job_listings st
    /\ st_detailed_jobs st' = st_detailed_jobs st
    /\ st_all_job_listings st' = st_all_job_listings st
    /\ st_job_data st' = st_job_data st.

Definition pres (R : relation state) {A} (m : M A) : Prop :=
  forall st, R st (snd (m st)).

Definition total {A} (m : M A) : Prop :=
  forall st, exists a st', m st = (Ok a, st').

(** The listing stage touches [job_listings], the browser and the trace,
    and nothing else. *)
Definition calm_but_listings : relation state :=
  fun st st' =>
    st_driver st' = st_driver st
    /\ st_detailed_jobs st' = st_detailed_jobs st
    /\ st_all_job_listings st' = st_all_job_listings st
    /\ st_job_data st' = st_job_data st.

(** The loop over the items of one results page. *)
Definition listing_items_loop (keyword location : string)
    (job_items : list listing_item) : M unit :=
  for_each job_items (fun job_item =>
    try_except
      (job_data <- lift (listing_record keyword location job_item) ;;
       append_job_listings job_data)
      is_Exception
      (fun e => logger_warning ("提取职位项时出错: " +:+ str_exn e))).


(* ===================================================================== *)
(** * Outcomes of the orchestration *)
(* ===================================================================== *)

(** What the [finally] block of [run] appends to the trace, given
    [self.driver]. *)
Definition cleanup_events (driver : option bool) : list event :=
  match driver with
  | Some _ => [EvQuit; EvLog INFO "WebDriver已关闭"]
  | None => []
  end.

(** [self.driver] after the [finally] block of [run]. *)
Definition released (driver : option bool) : option bool :=
  match driver with
  | Some _ => Some false
  | None => None
  end.

(* ===================================================================== *)
(** * Outcomes of the login stage *)
(* ===================================================================== *)

(** The cookie attempt that opens [login] ended in state [st1] without a
    session: either [load_cookies] returned [False], or it returned
    [True] and [is_logged_in] returned [False]. *)
Definition cookie_attempt_failed (cfg : config) (w : world)
    (st st1 : state) : Prop :=
  load_cookies cfg w st = (Ok false, st1)
  \/ exists st0, load_cookies cfg w st = (Ok true, st0)
                 /\ is_logged_in w st0 = (Ok false, st1).

(** The state [st] after one more log record. *)
Definition logged (lvl : level) (msg : string) (st : state) : state :=
  snd (emit (EvLog lvl msg) st).

Definition with_credentials (use : bool) (e p : string) (cfg : config) : config :=
  with_section_credentials
    (Some {| use_credentials := use; email := e; password := p |}) cfg.

(** The feed page shows one of the two markers of a logged-in session. *)
Definition shows_session (pg : page) : bool :=
  match pg_load pg, pg_profile_nav pg, pg_nav_button pg with
  | Ok _, Ok profile_nav, Ok nav_button =>
      (0 <? profile_nav)%nat || (0 <? nav_button)%nat
  | _, _, _ => false
  end.

(** A page of a browser that holds a session: the profile card is there. *)
Definition session_page : page :=
  {| pg_load := Ok tt;
     pg_scroll := fun _ => Ok tt;
     pg_results := Raise (TimeoutException "Message: ");
     pg_description := Raise (TimeoutException "Message: ");
     pg_job_type := Ok [];
     pg_criteria := Ok [];
     pg_profile_nav := Ok 1%nat;
     pg_nav_button := Ok 0%nat;
     pg_username := Raise (TimeoutException "Message: ");
     pg_password := Raise (TimeoutException "Message: ");
     pg_send_keys := fun _ _ => Ok tt;
     pg_submit := Raise (TimeoutException "Message: ");
     pg_timestamp := "20240101_120000";
     pg_save_screenshot := Ok tt |}.

Definition sample_cookie : cookie :=
  {| ck_expiry := Some (Ok 1735689600); ck_add := Ok tt |}.

(** A cookie the browser refuses. *)
Definition rejected_cookie : cookie :=
  {| ck_expiry := None;
     ck_add := Raise (WebDriverException "invalid cookie domain") |}.

(** A healthy machine with a cookie file that serves [pages]. *)
Definition world_with_cookies (cookies : list cookie) (pages : nat -> page)
  : world :=
  {| w_user_agent := Ok "Mozilla/5.0";
     w_chrome := Ok tt;
     w_stealth := Ok tt;
     w_js_evasions := Ok tt;
     w_set_page_load_timeout := Ok tt;
     w_cookie_file := Some (Ok cookies);
     w_save_cookies := Ok tt;
     w_page := pages;
     w_lower := ascii_lower |}.

(* ===================================================================== *)
(** * Outcomes of the search stage *)
(* ===================================================================== *)

(** The pause between two search combinations, the only use of
    [random_delay(10, 15)]. *)
Definition is_pause (ev : event) : bool :=
  match ev with
  | EvRandomDelay min_seconds max_seconds =>
      (min_seconds =? 10)%nat && (max_seconds =? 15)%nat
  | _ => false
  end.

(** Number of inter-combination pauses recorded in a trace. *)
Definition pauses (tr : list event) : nat := length (List.filter is_pause tr).

(** The test of [run] that guards the pause after a combination. *)
Definition pause_after (search : search_section)
    (keyword location : string) : bool :=
  bool_decide (keyword ≠ last_item (keywords search))
  || bool_decide (location ≠ last_item (locations search)).

(** [xs.count(x)]. *)
Definition occurrences (x : string) (xs : list string) : nat :=
  length (List.filter (fun y => bool_decide (y = x)) xs).

(** The keys of the dictionary built for a listing item. *)
Definition listing_keys : list string :=
  ["job_id"; "job_title"; "company"; "location"; "job_link";
   "search_keyword"; "search_location"; "crawl_time"].

Definition complete (r : job) : Prop :=
  Forall (fun key => is_Some (r !! key)) listing_keys.

(** The nested loop of [run] over the given keywords and locations. *)
Definition search_loop (cfg : config) (w : world) (search : search_section)
    (ks ls : list string) : M unit :=
  for_each ks (fun keyword =>
    for_each ls (fun location =>
      search_combination cfg w search keyword location)).

(** Number of pauses the nested loop of [run] makes over [ks] and [ls]. *)
Definition pauses_over (search : search_section) (ks ls : list string) : nat :=
  length (List.filter (fun kl => pause_after search (fst kl) (snd kl))
            (flat_map (fun keyword => map (pair keyword) ls) ks)).

(** The combinations of [run] in the order of its nested loop. *)
Definition combinations (ks ls : list string) : list (string * string) :=
  flat_map (fun keyword => map (pair keyword) ls) ks.

(** The listing records the nested loop of [run] collects over the
    combinations [combos], and the number of pages loaded when it ends,
    when [navs] pages were loaded before it: each combination contributes
    the records of the search pages loaded for it. *)
Fixpoint collect (w : world) (pages : Z) (navs : nat)
    (combos : list (string * string)) : list job * nat :=
  match combos with
  | [] => ([], navs)
  | (keyword, location) :: rest =>
      let loaded := pages_loaded w navs (range 1 (pages + 1)) in
      let (records, navs') := collect w pages (navs + length loaded) rest in
      (loaded_records keyword location loaded ++ records, navs')
  end.

(* ===================================================================== *)
(** * Outcomes of the helper methods *)
(* ===================================================================== *)

(** What one round of the scroll loop appends. *)
Definition scroll_round : list event := [EvScroll; EvPause].

(** What sending the characters [chars] to an element appends. *)
Definition keys_events (chars : list string) : list event :=
  flat_map (fun char => [EvSendKeys char; EvPause]) chars.

(** What the loop of [load_cookies] appends for one cookie whose expiry,
    if present, converts. *)
Definition cookie_events (c : cookie) : list event :=
  match ck_add c with
  | Ok _ => [EvAddCookie]
  | Raise e => [EvLog WARNING ("添加cookie时出错: " +:+ str_exn e)]
  end.

(** The expiry of the cookie, when it has one, converts to an integer. *)
Definition expiry_converts (c : cookie) : Prop :=
  forall e, ck_expiry c <> Some (Raise e).

(** What [apply_js_evasions] appends to the trace: it logs its own
    success or its own failure and never raises. *)
Definition js_evasions_events (w : world) : list event :=
  match w_js_evasions w with
  | Ok _ => [EvLog INFO "已应用JavaScript反检测脚本"]
  | Raise e => [EvLog ERROR ("应用JavaScript反检测脚本时出错: " +:+ str_exn e)]
  end.

(** What [setup_anti_detection] appends to the trace. *)
Definition anti_detection_events (w : world) : list event :=
  match w_stealth w with
  | Ok _ => js_evasions_events w ++ [EvLog INFO "已应用反检测措施"]
  | Raise e => [EvLog ERROR ("应用反检测措施时出错: " +:+ str_exn e)]
  end.

(** The browser is started by [setup_driver]: the section ['browser']
    exists, the user-agent lookup (when enabled) succeeds and
    [uc.Chrome] returns. *)
Definition browser_started (cfg : config) (w : world) : bool :=
  match cfg_browser cfg,
        (if random_user_agent cfg then w_user_agent w else Ok EmptyString),
        w_chrome w with
  | Some _, Ok _, Ok _ => true
  | _, _, _ => false
  end.

(** The exception that stops [setup_driver], if one does: the subscript
    of a missing section ['browser'], the user-agent lookup (when
    enabled), the browser start or the page-load timeout. *)
Definition setup_failure (cfg : config) (w : world) : option exn :=
  match getsection "browser" (cfg_browser cfg) with
  | Raise e => Some e
  | Ok _ =>
  match (if random_user_agent cfg then w_user_agent w else Ok EmptyString) with
  | Raise e => Some e
  | Ok _ =>
      match w_chrome w with
      | Raise e => Some e
      | Ok _ =>
          match w_set_page_load_timeout w with
          | Raise e => Some e
          | Ok _ => None
          end
      end
  end end.

(** A machine on which the stealth patches fail. *)
Definition world_without_stealth : world :=
  {| w_user_agent := Ok "Mozilla/5.0";
     w_chrome := Ok tt;
     w_stealth := Raise (WebDriverException "stealth failed");
     w_js_evasions := Ok tt;
     w_set_page_load_timeout := Ok tt;
     w_cookie_file := None;
     w_save_cookies := Ok tt;
     w_page := fun _ => bare_page;
     w_lower := ascii_lower |}.

(** A page on which the third scroll fails. *)
Definition short_page : page :=
  {| pg_load := Ok tt;
     pg_scroll := fun k => if (k <? 2)%nat then Ok tt
                           else Raise (WebDriverException "javascript error");
     pg_results := Raise (TimeoutException "Message: ");
     pg_description := Raise (TimeoutException "Message: ");
     pg_job_type := Ok [];
     pg_criteria := Ok [];
     pg_profile_nav := Ok 0%nat;
     pg_nav_button := Ok 0%nat;
     pg_username := Raise (TimeoutException "Message: ");
     pg_password := Raise (TimeoutException "Message: ");
     pg_send_keys := fun _ k => if (k <? 3)%nat then Ok tt
                                else Raise (WebDriverException "stale element");
     pg_submit := Raise (TimeoutException "Message: ");
     pg_timestamp := "20240101_120000";
     pg_save_screenshot := Ok tt |}.

(** The state [st] after the events [evs], nothing else changed. *)
Definition traced (evs : list event) (st : state) : state :=
  {| st_driver := st_driver st; st_navs := st_navs st;
     st_trace := st_trace st ++ evs;
     st_job_listings := st_job_listings st;
     st_detailed_jobs := st_detailed_jobs st;
     st_all_job_listings := st_all_job_listings st;
     st_job_data := st_job_data st |}.

(** The body of the cookie loop of [load_cookies]. *)
Definition add_cookie (c : cookie) : M unit :=
  match ck_expiry c with
  | Some expiry => (_ <- lift expiry ;; ret tt)
  | None => ret tt
  end ;;
  try_except
    (lift (ck_add c) ;;
     emit EvAddCookie)
    is_Exception
    (fun e => logger_warning ("添加cookie时出错: " +:+ str_exn e)).

(** The body of the loop of [type_like_human]. *)
Definition send_key (w : world) (field : string) (kc : nat * string) : M unit :=
  let '(k, char) := kc in
  pg <- current_page w ;;
  lift (pg_send_keys pg field k) ;;
  emit (EvSendKeys char) ;;
  emit EvPause.

(** The record [scrape_job_details] emits for [job] when the page served
    for it is [pg]. *)
Definition detail_record (w : world) (listing : job) (pg : page) : job :=
  match detail_fetch listing pg with
  | Fetched text =>
      update (<["job_description" := PyStr.strip text]> listing)
        (criteria_details w pg (job_type_details pg ∅))
  | TimedOut => <["job_description" := timeout_marker]> listing
  | Failed e => <["job_description" := error_marker e]> listing
  end.

(** The records of the detail stage when [navs] pages were loaded before
    it: a record whose keys [job_title], [company] and [job_link] are all
    present consumes one page load, any other record none. *)
Fixpoint detail_records (w : world) (navs : nat) (job_listings : list job)
  : list job :=
  match job_listings with
  | [] => []
  | listing :: rest =>
      detail_record w listing (w_page w (S navs))
      :: detail_records w (navs + detail_loads listing) rest
  end.

(** A detail page whose criteria list holds one item with the given
    header and text. *)
Definition criteria_page (text label value : string) : page :=
  {| pg_load := Ok tt;
     pg_scroll := fun _ => Ok tt;
     pg_results := Raise (TimeoutException "Message: ");
     pg_description := Ok text;
     pg_job_type := Ok [];
     pg_criteria := Ok [Ok (label, value)];
     pg_profile_nav := Ok 0%nat;
     pg_nav_button := Ok 0%nat;
     pg_username := Raise (TimeoutException "Message: ");
     pg_password := Raise (TimeoutException "Message: ");
     pg_send_keys := fun _ _ => Ok tt;
     pg_submit := Raise (TimeoutException "Message: ");
     pg_timestamp := "20240101_120000";
     pg_save_screenshot := Ok tt |}.

(** What [save_cookies] appends to the trace. *)
Definition save_cookies_events (cfg : config) (w : world) : list event :=
  match w_save_cookies w with
  | Ok _ => [EvSaveCookies; EvLog INFO ("Cookie已保存到: " +:+ cookie_file cfg)]
  | Raise e => [EvLog ERROR ("保存Cookie时出错: " +:+ str_exn e)]
  end.

(** The login form: it loads, both fields and the submit button are
    found, and the fields accept every key. *)
Definition login_form (pg : page) : Prop :=
  pg_load pg = Ok tt
  /\ pg_username pg = Ok tt
  /\ pg_password pg = Ok tt
  /\ pg_submit pg = Ok tt
  /\ forall field k, pg_send_keys pg field k = Ok tt.

Definition form_page : page :=
  {| pg_load := Ok tt;
     pg_scroll := fun _ => Ok tt;
     pg_results := Raise (TimeoutException "Message: ");
     pg_description := Raise (TimeoutException "Message: ");
     pg_job_type := Ok [];
     pg_criteria := Ok [];
     pg_profile_nav := Ok 0%nat;
     pg_nav_button := Ok 0%nat;
     pg_username := Ok tt;
     pg_password := Ok tt;
     pg_send_keys := fun _ _ => Ok tt;
     pg_submit := Ok tt;
     pg_timestamp := "20240101_120000";
     pg_save_screenshot := Ok tt |}.

(** The login form first, a session afterwards. *)
Definition login_pages (n : nat) : page :=
  match n with
  | 1%nat => form_page
  | _ => session_page
  end.

(** A machine that serves [pages] and cannot write the cookie file. *)
Definition world_read_only (pages : nat -> page) : world :=
  {| w_user_agent := Ok "Mozilla/5.0";
     w_chrome := Ok tt;
     w_stealth := Ok tt;
     w_js_evasions := Ok tt;
     w_set_page_load_timeout := Ok tt;
     w_cookie_file := None;
     w_save_cookies := Raise (WebDriverException "Permission denied");
     w_page := pages;
     w_lower := ascii_lower |}.

(** A machine whose browser starts but refuses the page-load timeout. *)
Definition world_half_started : world :=
  {| w_user_agent := Ok "Mozilla/5.0";
     w_chrome := Ok tt;
     w_stealth := Ok tt;
     w_js_evasions := Ok tt;
     w_set_page_load_timeout := Raise (WebDriverException "session deleted");
     w_cookie_file := None;
     w_save_cookies := Ok tt;
     w_page := fun _ => bare_page;
     w_lower := ascii_lower |}.

Definition other_item : listing_item :=
  {| li_link := Ok "https://www.linkedin.com/jobs/search/?currentJobId=3900000001&position=2";
     li_title := Ok "Data Engineer";
     li_company := Ok "Initech";
     li_location := Ok "Austin, TX";
     li_time := 1704110400;
     li_randint := 42;
     li_now := "2024-01-01 12:00:01" |}.

(** The first page served is a results page on which the first item
    shows up a second time; the later ones are detail pages. *)
Definition sample_pages (n : nat) : page :=
  match n with
  | 1%nat => results_page [sample_item; other_item; sample_item]
  | _ => description_page " We are hiring. "
  end.

(** [str.lower] as far as the sample below needs it: the one header with
    a cased letter outside ASCII is mapped as Python maps it. *)
Definition sample_lower (s : string) : string :=
  if bool_decide (s = "ÉCOLE Niveau") then "école niveau" else ascii_lower s.

(** A healthy machine with no cookie file that serves [pages] and lowers
    text with [lower]. *)
Definition world_lowering (lower : string -> string) (pages : nat -> page)
  : world :=
  {| w_user_agent := Ok "Mozilla/5.0";
     w_chrome := Ok tt;
     w_stealth := Ok tt;
     w_js_evasions := Ok tt;
     w_set_page_load_timeout := Ok tt;
     w_cookie_file := None;
     w_save_cookies := Ok tt;
     w_page := pages;
     w_lower := lower |}.

(* ===================================================================== *)
(** * Search URL construction *)
(* ===================================================================== *)

Section SearchUrl.

Lemma append_cons (c : ascii) (s t : string) :
  String c s +:+ t = String c (s +:+ t).
Proof. reflexivity. Qed.

Lemma append_empty_l (t : string) : "" +:+ t = t.
Proof. reflexivity. Qed.

Lemma append_empty_r (s : string) : s +:+ "" = s.
Proof. induction s as [|c s IH]; [reflexivity|]. now rewrite append_cons, IH. Qed.

Lemma append_assoc (a b c : string) : (a +:+ b) +:+ c = a +:+ b +:+ c.
Proof.
  induction a as [|x a IH]; [reflexivity|]. now rewrite !append_cons, IH.
Qed.

Lemma encode_spaces_cons (c : ascii) (s : string) :
  encode_spaces (String c s) =
  string_of_list_ascii (encode_char c) +:+ encode_spaces s.
Proof.
  unfold encode_spaces, encode_char. cbn [PyStr.replace].
  destruct (Ascii.eqb c space); reflexivity.
Qed.

Lemma list_ascii_app (s t : string) :
  list_ascii_of_string (s +:+ t) = list_ascii_of_string s ++ list_ascii_of_string t.
Proof.
  induction s as [|c s IH]; [reflexivity|].
  rewrite append_cons. cbn [list_ascii_of_string]. now rewrite IH.
Qed.

Lemma encode_spaces_chars (s : string) :
  list_ascii_of_string (encode_spaces s) =
  flat_map encode_char (list_ascii_of_string s).
Proof.
  induction s as [|c s IH]; [reflexivity|].
  rewrite encode_spaces_cons, list_ascii_app, IH.
  now rewrite list_ascii_of_string_of_list_ascii.
Qed.

Lemma encode_spaces_app (s t : string) :
  encode_spaces (s +:+ t) = encode_spaces s +:+ encode_spaces t.
Proof.
  induction s as [|c s IH]; [reflexivity|].
  now rewrite append_cons, !encode_spaces_cons, IH, append_assoc.
Qed.

Lemma encode_spaces_no_space (s : string) :
  ~ In space (list_ascii_of_string (encode_spaces s)).
Proof.
  rewrite encode_spaces_chars. intros H. apply in_flat_map in H as (c & _ & Hc).
  unfold encode_char in Hc. destruct (Ascii.eqb c space) eqn:E.
  - unfold space in Hc.
    destruct Hc as [Hc | [Hc | [Hc | []]]]; discriminate Hc.
  - destruct Hc as [Hc | []]. subst c. now rewrite Ascii.eqb_refl in E.
Qed.

Lemma encode_spaces_verbatim (s : string) :
  ~ In space (list_ascii_of_string s) -> encode_spaces s = s.
Proof.
  induction s as [|c s IH]; intros H; [reflexivity|].
  rewrite encode_spaces_cons. cbn [list_ascii_of_string In] in H.
  unfold encode_char. destruct (Ascii.eqb c space) eqn:E.
  - apply Ascii.eqb_eq in E. tauto.
  - cbn [string_of_list_ascii]. rewrite append_cons, append_empty_l.
    f_equal. apply IH. tauto.
Qed.

Lemma prefix_app (s t : string) : String.prefix s (s +:+ t) = true.
Proof.
  induction s as [|c s IH]; [now destruct t|].
  rewrite append_cons. cbn [String.prefix].
  destruct (ascii_dec c c); [exact IH | congruence].
Qed.

Lemma contains_prefix (sub s : string) :
  String.prefix sub s = true -> PyStr.contains sub s = true.
Proof. intros H. destruct s; cbn [PyStr.contains]; rewrite H; reflexivity. Qed.

Lemma contains_app (sub a b : string) :
  PyStr.contains sub (a +:+ sub +:+ b) = true.
Proof.
  induction a as [|c a IH].
  - rewrite append_empty_l. apply contains_prefix, prefix_app.
  - rewrite append_cons. cbn [PyStr.contains]. rewrite IH. apply orb_true_r.
Qed.

Lemma contains_suffix (sub a : string) : PyStr.contains sub (a +:+ sub) = true.
Proof. rewrite <- (append_empty_r sub) at 2. apply contains_app. Qed.

Lemma construct_search_url_eq (keyword location : string) (page : Z) :
  construct_search_url keyword location page =
  "https://www.linkedin.com/jobs/search/?" +:+
  ("keywords=" +:+ encode_spaces keyword) +:+ "&" +:+
  ("location=" +:+ encode_spaces location) +:+ "&" +:+
  "f_TPR=r86400" +:+ "&" +:+ "geoId=92000000" +:+ "&" +:+
  ("start=" +:+ pretty ((page - 1) * 25)).
Proof.
  unfold construct_search_url, PyStr.join, encode_spaces.
  cbv [String.concat]. rewrite !append_assoc. reflexivity.
Qed.

End SearchUrl.

(** C5. [construct_search_url] is the fixed template
    [base?keywords=K&location=L&f_TPR=r86400&geoId=92000000&start=S] in
    which [K] and [L] are the keyword and location with every space
    turned into the three characters [%20] (so no space is left) and [S]
    is the decimal form of [(page - 1) * 25]; for
    ["Data Engineer"], ["United States"], [3] the URL contains
    [keywords=Data%20Engineer], [location=United%20States] and
    [start=50]. *)
Theorem construct_search_url_template :
  (forall keyword location page,
      let url := construct_search_url keyword location page in
      url = "https://www.linkedin.com/jobs/search/?keywords="
            +:+ encode_spaces keyword
            +:+ "&location=" +:+ encode_spaces location
            +:+ "&f_TPR=r86400&geoId=92000000&start="
            +:+ pretty ((page - 1) * 25)
      /\ list_ascii_of_string (encode_spaces keyword)
         = flat_map encode_char (list_ascii_of_string keyword)
      /\ list_ascii_of_string (encode_spaces location)
         = flat_map encode_char (list_ascii_of_string location)
      /\ ~ In space (list_ascii_of_string (encode_spaces keyword))
      /\ ~ In space (list_ascii_of_string (encode_spaces location))
      /\ PyStr.contains ("keywords=" +:+ encode_spaces keyword) url = true
      /\ PyStr.contains ("location=" +:+ encode_spaces location) url = true
      /\ PyStr.contains "f_TPR=r86400" url = true
      /\ PyStr.contains "geoId=92000000" url = true
      /\ PyStr.contains ("start=" +:+ pretty ((page - 1) * 25)) url = true)
  /\ (let url := construct_search_url "Data Engineer" "United States" 3 in
      PyStr.contains "keywords=Data%20Engineer" url = true
      /\ PyStr.contains "location=United%20States" url = true
      /\ PyStr.contains "start=50" url = true).
Proof.
  split.
  - intros keyword location page url. subst url.
    rewrite construct_search_url_eq.
    set (K := "keywords=" +:+ encode_spaces keyword).
    set (L := "location=" +:+ encode_spaces location).
    set (S := "start=" +:+ pretty ((page - 1) * 25)).
    split; [|split; [apply encode_spaces_chars|split; [apply encode_spaces_chars|
      split; [apply encode_spaces_no_space|split; [apply encode_spaces_no_space|]]]]].
    + subst K L S. rewrite !append_assoc. reflexivity.
    + repeat split.
      * apply contains_app.
      * rewrite <- (append_assoc K "&"), <- (append_assoc _ (K +:+ "&")).
        apply contains_app.
      * rewrite <- (append_assoc L "&"), <- (append_assoc K "&"),
          <- (append_assoc (K +:+ "&")), <- (append_assoc _ ((K +:+ "&") +:+ L +:+ "&")).
        apply contains_app.
      * rewrite <- (append_assoc "f_TPR=r86400" "&"), <- (append_assoc L "&"),
          <- (append_assoc (L +:+ "&")), <- (append_assoc K "&"),
          <- (append_assoc (K +:+ "&")),
          <- (append_assoc _ ((K +:+ "&") +:+ (L +:+ "&") +:+ "f_TPR=r86400" +:+ "&")).
        apply contains_app.
      * rewrite <- (append_assoc "geoId=92000000" "&"),
          <- (append_assoc "f_TPR=r86400" "&"),
          <- (append_assoc ("f_TPR=r86400" +:+ "&")),
          <- (append_assoc L "&"), <- (append_assoc (L +:+ "&")),
          <- (append_assoc K "&"), <- (append_assoc (K +:+ "&")),
          <- (append_assoc "https://www.linkedin.com/jobs/search/?").
        apply contains_suffix.
  - vm_compute. repeat split.
Qed.

(** C10. The only rewriting [construct_search_url] applies to keyword and
    location is space to [%20]: each character is copied as it is unless
    it is a space (so [&], [#], [?] and [%] pass through), and the URL is
    not injective: a keyword holding the text [%20] and the same keyword
    with a space there give one URL. *)
Theorem construct_search_url_not_injective :
  (forall c, encode_char c
             = if Ascii.eqb c space then ["%"; "2"; "0"]%char else [c])
  /\ (forall keyword location page,
        construct_search_url keyword location page
        = "https://www.linkedin.com/jobs/search/?keywords="
          +:+ string_of_list_ascii
                (flat_map encode_char (list_ascii_of_string keyword))
          +:+ "&location="
          +:+ string_of_list_ascii
                (flat_map encode_char (list_ascii_of_string location))
          +:+ "&f_TPR=r86400&geoId=92000000&start="
          +:+ pretty ((page - 1) * 25))
  /\ construct_search_url "C&C#?100%" "R&D" 1
     = "https://www.linkedin.com/jobs/search/?keywords=C&C#?100%&location=R&D&f_TPR=r86400&geoId=92000000&start=0"
  /\ (forall a b location page,
        a +:+ "%20" +:+ b <> a +:+ " " +:+ b
        /\ construct_search_url (a +:+ "%20" +:+ b) location page
           = construct_search_url (a +:+ " " +:+ b) location page)
  /\ (exists keyword1 keyword2 location page,
        keyword1 <> keyword2
        /\ construct_search_url keyword1 location page
           = construct_search_url keyword2 location page).
Proof.
  assert (Hpair : forall a b location page,
        a +:+ "%20" +:+ b <> a +:+ " " +:+ b
        /\ construct_search_url (a +:+ "%20" +:+ b) location page
           = construct_search_url (a +:+ " " +:+ b) location page).
  { intros a b location page. split.
    - intros H%(inj (String.append a)). discriminate H.
    - rewrite !construct_search_url_eq, !encode_spaces_app. reflexivity. }
  split; [reflexivity|]. split; [|split; [reflexivity|split; [exact Hpair|]]].
  - intros keyword location page.
    rewrite construct_search_url_eq, <- !encode_spaces_chars,
      !string_of_list_ascii_of_string, !append_assoc.
    reflexivity.
  - exists "Data%20Engineer", "Data Engineer", "", 1.
    apply (Hpair "Data" "Engineer").
Qed.

(* ===================================================================== *)
(** * Deduplication *)
(* ===================================================================== *)

Lemma lookup_map {A B} (f : A -> B) (l : list A) (k : nat) :
  map f l !! k = option_map f (l !! k).
Proof.
  revert k. induction l as [|x l IH]; intros [|k]; cbn; auto.
Qed.

Section Dedup.

Lemma odict_mem_keys (k : string) (d : ODict.t) :
  ODict.mem k d = bool_decide (k ∈ ODict.keys d).
Proof.
  induction d as [|[k0 v] d IH]; [reflexivity|].
  cbn [ODict.mem ODict.keys map fst]. destruct (decide (k0 = k)) as [->|Hne].
  - symmetry. apply bool_decide_eq_true. left.
  - rewrite IH. apply bool_decide_ext. rewrite elem_of_cons.
    unfold ODict.keys. split; [now right | intros [?|?]; [congruence | assumption]].
Qed.

Lemma odict_setitem_new (k : string) (v : job) (d : ODict.t) :
  k ∉ ODict.keys d -> ODict.setitem k v d = d ++ [(k, v)].
Proof.
  induction d as [|[k0 v0] d IH]; intros Hk; [reflexivity|].
  cbn [ODict.setitem]. cbn [ODict.keys map fst] in Hk.
  apply not_elem_of_cons in Hk as [Hne Hk].
  destruct (decide (k0 = k)); [congruence|].
  cbn [app]. f_equal. now apply IH.
Qed.

Lemma dedup_loop_first_occurrences (l : list job) :
  Forall (fun j => is_Some (job_id_of j)) l ->
  forall d,
    dedup_loop l d = Ok (d ++ map entry (first_occurrences (ODict.keys d) l)).
Proof.
  induction 1 as [|j l [k Hk] _ IH]; intros d.
  - cbn. now rewrite app_nil_r.
  - cbn [dedup_loop first_occurrences]. unfold getitem.
    change (j !! "job_id") with (job_id_of j). rewrite Hk.
    rewrite odict_mem_keys. destruct (decide (k ∈ ODict.keys d)) as [Hin|Hnin].
    + rewrite bool_decide_eq_true_2 by exact Hin. cbn [negb]. apply IH.
    + rewrite bool_decide_eq_false_2 by exact Hnin. cbn [negb].
      assert (He : entry j = (k, j)) by (unfold entry; now rewrite Hk).
      rewrite odict_setitem_new by exact Hnin. rewrite IH.
      unfold ODict.keys. rewrite map_app. cbn [map fst].
      now rewrite He, <- app_assoc.
Qed.

Lemma first_occurrences_sublist (seen : list string) (l : list job) :
  sublist (first_occurrences seen l) l.
Proof.
  revert seen. induction l as [|j l IH]; intros seen; [constructor|].
  cbn [first_occurrences]. destruct (job_id_of j) as [k|].
  - destruct (decide (k ∈ seen)).
    + apply sublist_cons, IH.
    + apply sublist_skip, IH.
  - apply sublist_cons, IH.
Qed.

Lemma first_occurrences_ids (seen : list string) (l : list job) (u : job) :
  u ∈ first_occurrences seen l ->
  exists k, job_id_of u = Some k /\ k ∉ seen.
Proof.
  revert seen. induction l as [|j l IH]; intros seen Hu.
  - inversion Hu.
  - cbn [first_occurrences] in Hu. destruct (job_id_of j) as [k|] eqn:Hk.
    + destruct (decide (k ∈ seen)) as [|Hnin]; [now apply IH|].
      apply elem_of_cons in Hu as [->|Hu]; [now exists k|].
      apply IH in Hu as (k' & Hk' & Hn). exists k'. split; [exact Hk'|].
      intros Hin. apply Hn, elem_of_app. now left.
    + now apply IH.
Qed.

Lemma first_occurrences_NoDup (seen : list string) (l : list job) :
  NoDup (map job_id_of (first_occurrences seen l)).
Proof.
  revert seen. induction l as [|j l IH]; intros seen; [constructor|].
  cbn [first_occurrences]. destruct (job_id_of j) as [k|] eqn:Hk; [|apply IH].
  destruct (decide (k ∈ seen)); [apply IH|].
  cbn [map]. constructor; [|apply IH].
  intros Hin. apply list_elem_of_In, in_map_iff in Hin as (u & Hu & Hin).
  apply list_elem_of_In, first_occurrences_ids in Hin as (k' & Hk' & Hn).
  assert (k' = k) as -> by congruence.
  apply Hn, elem_of_app. right. left.
Qed.

Lemma first_occurrences_complete (seen : list string) (l : list job) (j : job) (k : string) :
  j ∈ l -> job_id_of j = Some k ->
  k ∈ seen \/ exists u, u ∈ first_occurrences seen l /\ job_id_of u = Some k.
Proof.
  revert seen. induction l as [|j0 l IH]; intros seen Hj Hk; [inversion Hj|].
  cbn [first_occurrences]. apply elem_of_cons in Hj as [->|Hj].
  - rewrite Hk. destruct (decide (k ∈ seen)); [now left|].
    right. exists j0. split; [left | exact Hk].
  - destruct (job_id_of j0) as [k0|] eqn:Hk0; [|now apply IH].
    destruct (decide (k0 ∈ seen)); [now apply IH|].
    destruct (IH (seen ++ [k0]) Hj Hk) as [Hin|(u & Hu & Hku)].
    + apply elem_of_app in Hin as [Hin|Hin]; [now left|].
      apply list_elem_of_singleton in Hin as ->.
      right. exists j0. split; [left | exact Hk0].
    + right. exists u. split; [now right | exact Hku].
Qed.

Lemma first_occurrences_first (seen : list string) (l : list job) (u : job) :
  u ∈ first_occurrences seen l ->
  exists i, l !! i = Some u
    /\ forall i' j', (i' < i)%nat -> l !! i' = Some j' -> job_id_of j' <> job_id_of u.
Proof.
  revert seen. induction l as [|j l IH]; intros seen Hu; [inversion Hu|].
  cbn [first_occurrences] in Hu.
  assert (Hlater : forall seen',
             (forall k, job_id_of j = Some k -> k ∈ seen') ->
             u ∈ first_occurrences seen' l ->
             exists i, (j :: l) !! i = Some u
               /\ forall i' j', (i' < i)%nat -> (j :: l) !! i' = Some j' ->
                                job_id_of j' <> job_id_of u).
  { intros seen' Hseen Hu'.
    destruct (first_occurrences_ids _ _ _ Hu') as (ku & Hku & Hnin).
    destruct (IH _ Hu') as (i & Hi & Hfirst).
    exists (S i). split; [exact Hi|].
    intros [|i'] j' Hlt Hj'.
    - cbn in Hj'. injection Hj' as <-. rewrite Hku. intros Hj.
      apply Hnin, Hseen, Hj.
    - apply (Hfirst i' j'); [lia | exact Hj']. }
  destruct (job_id_of j) as [k|] eqn:Hk.
  - destruct (decide (k ∈ seen)) as [Hin|Hnin].
    + apply Hlater with seen; [|exact Hu]. intros k' [= <-]. exact Hin.
    + apply elem_of_cons in Hu as [->|Hu].
      * exists 0%nat. split; [reflexivity|]. intros i' j' Hlt. lia.
      * apply Hlater with (seen ++ [k]); [|exact Hu].
        intros k' [= <-]. apply elem_of_app. right. left.
  - apply Hlater with seen; [|exact Hu]. intros k' [=].
Qed.

Lemma increasing_shift (idx : list nat) :
  increasing idx -> increasing (map S idx).
Proof.
  intros H a b ia ib Hab Ha Hb.
  rewrite lookup_map in Ha, Hb.
  destruct (idx !! a) as [ia'|] eqn:Ea; [|discriminate].
  destruct (idx !! b) as [ib'|] eqn:Eb; [|discriminate].
  injection Ha as <-. injection Hb as <-.
  specialize (H a b ia' ib' Hab Ea Eb). lia.
Qed.

Lemma increasing_cons_0 (idx : list nat) :
  increasing idx -> increasing (0%nat :: map S idx).
Proof.
  intros H [|a] [|b] ia ib Hab Ha Hb; try lia.
  - cbn in Ha. injection Ha as <-.
    change (map S idx !! b = Some ib) in Hb. rewrite lookup_map in Hb.
    destruct (idx !! b); [|discriminate]. injection Hb as <-. lia.
  - change (map S idx !! a = Some ia) in Ha.
    change (map S idx !! b = Some ib) in Hb.
    apply (increasing_shift idx H a b); [lia|assumption..].
Qed.

Lemma first_at_shift (j : job) (l : list job) (idx : list nat) (us : list job) :
  Forall (fun u => job_id_of j <> job_id_of u) us ->
  Forall2 (first_at l) idx us ->
  Forall2 (first_at (j :: l)) (map S idx) us.
Proof.
  intros Hne H. induction H as [|i u idx us [Hi Hfirst] _ IH];
    cbn [map]; [constructor|].
  inversion Hne as [|? ? Hju Hne']; subst.
  constructor; [|now apply IH].
  split; [exact Hi|].
  intros [|i'] j' Hlt Hj'.
  - cbn in Hj'. injection Hj' as <-. exact Hju.
  - apply (Hfirst i' j'); [lia | exact Hj'].
Qed.

Lemma first_occurrences_indices (l : list job) : forall seen,
  exists idx, increasing idx
              /\ Forall2 (first_at l) idx (first_occurrences seen l).
Proof.
  induction l as [|j l IH]; intros seen.
  - exists []. split; [intros a b ia ib _ Ha; inversion Ha | constructor].
  - assert (Hskip : forall seen',
               (forall k, job_id_of j = Some k -> k ∈ seen') ->
               exists idx, increasing idx
                 /\ Forall2 (first_at (j :: l)) idx
                      (first_occurrences seen' l)).
    { intros seen' Hseen. destruct (IH seen') as (idx & Hinc & Hf).
      exists (map S idx). split; [now apply increasing_shift|].
      apply first_at_shift; [|exact Hf].
      apply Forall_forall. intros u Hu.
      destruct (first_occurrences_ids _ _ _ Hu) as (ku & Hku & Hnin).
      rewrite Hku. intros Hj. apply Hnin, Hseen, Hj. }
    cbn [first_occurrences]. destruct (job_id_of j) as [k|] eqn:Hk.
    + destruct (decide (k ∈ seen)) as [Hin|Hnin].
      * apply Hskip. intros k' [= <-]. exact Hin.
      * destruct (Hskip (seen ++ [k])) as (idx & Hinc & Hf).
        { intros k' [= <-]. apply elem_of_app. right. left. }
        destruct (IH (seen ++ [k])) as (idx0 & Hinc0 & Hf0).
        exists (0%nat :: map S idx0). split; [now apply increasing_cons_0|].
        constructor.
        -- split; [reflexivity|]. intros i' j' Hlt. lia.
        -- apply first_at_shift; [|exact Hf0].
           apply Forall_forall. intros u Hu.
           destruct (first_occurrences_ids _ _ _ Hu) as (ku & Hku & Hnin').
           rewrite Hku, Hk. intros [= <-]. apply Hnin'.
           apply elem_of_app. right. left.
    + apply Hskip. intros k' [=].
Qed.

End Dedup.

(** C1. On a combined listing list all of whose records carry a [job_id],
    the deduplication step of [run] succeeds and its result (a) holds no
    two records with the same [job_id], (b) holds a record for every
    [job_id] of the input, (c) holds, for each [job_id], the first input
    record bearing it, (d) is a subsequence of the input, (e) is the list
    of first occurrences in input order, and (f) sits at strictly
    increasing input positions, each the first position bearing its
    [job_id]; so the first occurrences keep their relative order. *)
Theorem deduplicate_first_occurrence_wins (all_job_listings : list job) :
  Forall (fun j => is_Some (j !! "job_id")) all_job_listings ->
  exists unique_job_listings,
    deduplicate all_job_listings = Ok unique_job_listings
    /\ NoDup (map (fun u : job => u !! "job_id") unique_job_listings)
    /\ (forall j, j ∈ all_job_listings ->
          exists u, u ∈ unique_job_listings /\ u !! "job_id" = j !! "job_id")
    /\ (forall u, u ∈ unique_job_listings ->
          exists i, all_job_listings !! i = Some u
            /\ forall i' j', (i' < i)%nat -> all_job_listings !! i' = Some j' ->
                             j' !! "job_id" <> u !! "job_id")
    /\ sublist unique_job_listings all_job_listings
    /\ unique_job_listings = first_occurrences [] all_job_listings
    /\ exists idx,
         increasing idx
         /\ Forall2 (first_at all_job_listings) idx unique_job_listings.
Proof.
  intros Hids. exists (first_occurrences [] all_job_listings).
  assert (Hrun : deduplicate all_job_listings
                 = Ok (first_occurrences [] all_job_listings)).
  { unfold deduplicate. rewrite (dedup_loop_first_occurrences _ Hids).
    unfold ODict.empty, ODict.values. cbn [app ODict.keys map].
    rewrite map_map. cbn [entry snd]. now rewrite map_id. }
  split; [exact Hrun|]. split; [apply first_occurrences_NoDup|].
  split; [|split; [apply first_occurrences_first|
           split; [apply first_occurrences_sublist|
           split; [reflexivity|apply first_occurrences_indices]]]].
  intros j Hj. rewrite Forall_forall in Hids. destruct (Hids j Hj) as [k Hk].
  destruct (first_occurrences_complete [] _ j k Hj Hk) as [Hin|(u & Hu & Hku)].
  - inversion Hin.
  - exists u. split; [exact Hu|]. unfold job_id_of in *. congruence.
Qed.

Lemma deduplicate_first_occurrence_wins_witness :
  exists unique_job_listings,
    deduplicate [sample_job "1" "a"; sample_job "2" "b"; sample_job "1" "a"]
    = Ok unique_job_listings
    /\ NoDup (map (fun u : job => u !! "job_id") unique_job_listings)
    /\ (forall j, j ∈ [sample_job "1" "a"; sample_job "2" "b"; sample_job "1" "a"] ->
          exists u, u ∈ unique_job_listings /\ u !! "job_id" = j !! "job_id")
    /\ (forall u, u ∈ unique_job_listings ->
          exists i, [sample_job "1" "a"; sample_job "2" "b"; sample_job "1" "a"] !! i
                    = Some u
            /\ forall i' j', (i' < i)%nat ->
                 [sample_job "1" "a"; sample_job "2" "b"; sample_job "1" "a"] !! i'
                 = Some j' ->
                 j' !! "job_id" <> u !! "job_id")
    /\ sublist unique_job_listings
         [sample_job "1" "a"; sample_job "2" "b"; sample_job "1" "a"]
    /\ unique_job_listings
       = first_occurrences []
           [sample_job "1" "a"; sample_job "2" "b"; sample_job "1" "a"]
    /\ exists idx,
         increasing idx
         /\ Forall2 (first_at [sample_job "1" "a"; sample_job "2" "b";
                               sample_job "1" "a"]) idx unique_job_listings.
Proof.
  apply (deduplicate_first_occurrence_wins
           [sample_job "1" "a"; sample_job "2" "b"; sample_job "1" "a"]).
  repeat constructor; vm_compute; eexists; reflexivity.
Defined.

(** A repeated record is kept at its first position: the order of the
    output is the order of the first occurrences. *)
Example deduplicate_sample :
  deduplicate [sample_job "1" "a"; sample_job "2" "b"; sample_job "1" "a"]
  = Ok [sample_job "1" "a"; sample_job "2" "b"].
Proof. vm_compute. reflexivity. Qed.

(* ===================================================================== *)
(** * Reasoning about computations *)
(* ===================================================================== *)

Arguments construct_search_url : simpl never.

Section Frame.

Global Instance same_preorder {X} (f : state -> X) : PreOrder (same f).
Proof.
  split; [intros st; reflexivity|].
  intros a b c Hab Hbc. unfold same in *. congruence.
Qed.

Global Instance quiet_preorder : PreOrder quiet.
Proof.
  split.
  - intros st. exists []. split; [now rewrite app_nil_r | constructor].
  - intros a b c (e1 & H1 & Q1) (e2 & H2 & Q2). exists (e1 ++ e2). split.
    + rewrite H2, H1. now rewrite app_assoc.
    + apply Forall_app. now split.
Qed.

Global Instance calm_preorder : PreOrder calm.
Proof.
  split; [intros st; repeat split|].
  intros a b c (?&?&?&?&?) (?&?&?&?&?). repeat split; congruence.
Qed.

Context (R : relation state) `{!PreOrder R}.

Lemma pres_ret {A} (a : A) : pres R (ret a).
Proof. intros st. reflexivity. Qed.

Lemma pres_raise {A} (e : exn) : pres R (@raise A e).
Proof. intros st. reflexivity. Qed.

Lemma pres_lift {A} (r : result A) : pres R (lift r).
Proof. intros st. reflexivity. Qed.

Lemma pres_get {X} (f : state -> X) : pres R (get f).
Proof. intros st. reflexivity. Qed.

Lemma pres_current_page (w : world) : pres R (current_page w).
Proof. intros st. reflexivity. Qed.

Lemma pres_bind {A B} (m : M A) (k : A -> M B) :
  pres R m -> (forall a, pres R (k a)) -> pres R (bind m k).
Proof.
  intros Hm Hk st. unfold bind. specialize (Hm st).
  destruct (m st) as [[a|e] st1]; [|exact Hm].
  etransitivity; [exact Hm | apply Hk].
Qed.

Lemma pres_try_except {A} (body : M A) catches handler :
  pres R body -> (forall e, pres R (handler e)) ->
  pres R (try_except body catches handler).
Proof.
  intros Hb Hh st. unfold try_except. specialize (Hb st).
  destruct (body st) as [[a|e] st1]; [exact Hb|].
  destruct (catches e); [|exact Hb].
  etransitivity; [exact Hb | apply Hh].
Qed.

Lemma pres_try_finally {A} (body : M A) (cleanup : M unit) :
  pres R body -> pres R cleanup -> pres R (try_finally body cleanup).
Proof.
  intros Hb Hc st. unfold try_finally. specialize (Hb st).
  destruct (body st) as [r st1]. specialize (Hc st1).
  destruct (cleanup st1) as [[u|e] st2]; etransitivity; eauto.
Qed.

Lemma pres_for_each {X} (xs : list X) (body : X -> M unit) :
  (forall x, pres R (body x)) -> pres R (for_each xs body).
Proof.
  intros Hb. induction xs as [|x xs IH]; [apply pres_ret|].
  cbn [for_each]. apply pres_bind; [apply Hb | intros _; exact IH].
Qed.

End Frame.

Section Total.

Lemma total_ret {A} (a : A) : total (ret a).
Proof. intros st. now exists a, st. Qed.

Lemma total_get {X} (f : state -> X) : total (get f).
Proof. intros st. now exists (f st), st. Qed.

Lemma total_current_page (w : world) : total (current_page w).
Proof. intros st. eexists _, st. reflexivity. Qed.

Lemma total_emit (ev : event) : total (emit ev).
Proof. intros st. eexists _, _. reflexivity. Qed.

Lemma total_bind {A B} (m : M A) (k : A -> M B) :
  total m -> (forall a, total (k a)) -> total (bind m k).
Proof.
  intros Hm Hk st. unfold bind. destruct (Hm st) as (a & st1 & ->). apply Hk.
Qed.

(** A handler for every exception that itself cannot raise makes the
    whole [try] statement unable to raise, whatever its body does. *)
Lemma total_try_except {A} (body : M A) handler :
  (forall e, total (handler e)) -> total (try_except body is_Exception handler).
Proof.
  intros Hh st. unfold try_except.
  destruct (body st) as [[a|e] st1]; [now exists a, st1|].
  cbn [is_Exception]. apply Hh.
Qed.

Lemma total_for_each {X} (xs : list X) (body : X -> M unit) :
  (forall x, total (body x)) -> total (for_each xs body).
Proof.
  intros Hb. induction xs as [|x xs IH]; [apply total_ret|].
  cbn [for_each]. apply total_bind; [apply Hb | intros _; exact IH].
Qed.

End Total.

(** Structural steps shared by the frame proofs. *)
Ltac pres_step :=
  lazymatch goal with
  | |- pres ?R (bind _ _) => apply (@pres_bind R _); [|intros ?]
  | |- pres ?R (try_except _ _ _) => apply (@pres_try_except R _); [|intros ?]
  | |- pres ?R (try_finally _ _) => apply (@pres_try_finally R _)
  | |- pres ?R (for_each _ _) => apply (@pres_for_each R _); intros ?
  | |- pres ?R (ret _) => apply (@pres_ret R _)
  | |- pres ?R (raise _) => apply (@pres_raise R _)
  | |- pres ?R (lift _) => apply (@pres_lift R _)
  | |- pres ?R (get _) => apply (@pres_get R _)
  | |- pres ?R (current_page _) => apply (@pres_current_page R _)
  | |- pres _ (if ?b then _ else _) => destruct b
  | |- pres _ (match ?x with _ => _ end) => destruct x
  end.

Ltac quiet_prim :=
  intros ?; eexists; split;
  [ first [ reflexivity | symmetry; apply app_nil_r ]
  | repeat constructor; discriminate ].

Ltac pres_prim :=
  first [ solve [intros ?; reflexivity]
        | solve [intros ?; repeat split]
        | solve [quiet_prim] ].

Create HintDb crawl discriminated.

Ltac pres_go :=
  repeat first
    [ solve [auto with crawl]
    | pres_step
    | solve [pres_prim]
    | progress unfold logger_info, logger_warning, logger_error,
        random_delay, driver_get, driver_refresh, driver_quit,
        append_job_listings, append_detailed_jobs, extend_all_job_listings ].

Ltac total_step :=
  lazymatch goal with
  | |- total (bind _ _) => apply total_bind; [|intros ?]
  | |- total (try_except _ is_Exception _) => apply total_try_except; intros ?
  | |- total (for_each _ _) => apply total_for_each; intros ?
  | |- total (ret _) => apply total_ret
  | |- total (get _) => apply total_get
  | |- total (current_page _) => apply total_current_page
  | |- total (emit _) => apply total_emit
  | |- total (if ?b then _ else _) => destruct b
  | |- total (match ?x with _ => _ end) => destruct x
  end.

Ltac total_go :=
  repeat first
    [ total_step
    | solve [auto with crawl]
    | solve [intros ?; eexists _, _; reflexivity]
    | progress unfold logger_info, logger_warning, logger_error,
        random_delay, driver_quit,
        append_job_listings, append_detailed_jobs, extend_all_job_listings ].

Section CalmFields.

Context {A : Type} (m : M A).

Lemma calm_driver : pres calm m -> pres (same st_driver) m.
Proof. intros H st. apply (H st). Qed.

Lemma calm_job_listings : pres calm m -> pres (same st_job_listings) m.
Proof. intros H st. apply (H st). Qed.

Lemma calm_detailed_jobs : pres calm m -> pres (same st_detailed_jobs) m.
Proof. intros H st. apply (H st). Qed.

Lemma calm_all_job_listings : pres calm m -> pres (same st_all_job_listings) m.
Proof. intros H st. apply (H st). Qed.

Lemma calm_job_data : pres calm m -> pres (same st_job_data) m.
Proof. intros H st. apply (H st). Qed.

End CalmFields.

#[export] Hint Resolve calm_driver calm_job_listings calm_detailed_jobs
  calm_all_job_listings calm_job_data : crawl.

Section Utilities.

Context (cfg : config) (w : world).

Lemma take_screenshot_total name : total (take_screenshot cfg w name).
Proof. unfold take_screenshot. total_go. Qed.

Lemma take_screenshot_calm name : pres calm (take_screenshot cfg w name).
Proof. unfold take_screenshot. pres_go. Qed.

Lemma take_screenshot_navs name : pres (same st_navs) (take_screenshot cfg w name).
Proof. unfold take_screenshot. pres_go. Qed.

Lemma take_screenshot_quiet name : pres quiet (take_screenshot cfg w name).
Proof. unfold take_screenshot. pres_go. Qed.

Lemma scroll_page_total : total (scroll_page w).
Proof. unfold scroll_page. total_go. Qed.

Lemma scroll_page_calm : pres calm (scroll_page w).
Proof. unfold scroll_page. pres_go. Qed.

Lemma scroll_page_navs : pres (same st_navs) (scroll_page w).
Proof. unfold scroll_page. pres_go. Qed.

Lemma scroll_page_quiet : pres quiet (scroll_page w).
Proof. unfold scroll_page. pres_go. Qed.

End Utilities.

#[export] Hint Resolve take_screenshot_total take_screenshot_calm
  take_screenshot_navs take_screenshot_quiet scroll_page_total
  scroll_page_calm scroll_page_navs scroll_page_quiet : crawl.

(* ===================================================================== *)
(** * The detail stage *)
(* ===================================================================== *)

Arguments take_screenshot : simpl never.
Arguments scroll_page : simpl never.
Arguments PyStr.strip : simpl never.
Arguments criteria_details : simpl never.
Arguments job_type_details : simpl never.
Arguments update : simpl never.

Ltac msimpl :=
  repeat progress
    (unfold bind, ret, raise, lift, try_except, try_finally, get, emit,
       load_next_page, set_driver, set_job_listings, set_detailed_jobs,
       set_all_job_listings, set_job_data, current_page, logger_info,
       logger_warning, logger_error, random_delay, driver_get,
       driver_refresh, driver_quit, append_job_listings,
       append_detailed_jobs, extend_all_job_listings in *;
     cbn [is_Exception is_TimeoutException fst snd
          st_driver st_navs st_trace st_job_listings st_detailed_jobs
          st_all_job_listings st_job_data] in * ).

Section Stepping.

Context (cfg : config) (w : world).

(** The facts about a call of [take_screenshot] that its callers use. *)
Lemma take_screenshot_trace name st :
  st_trace (snd (take_screenshot cfg w name st))
  = st_trace st ++ screenshot_events cfg (w_page w (st_navs st)) name.
Proof.
  unfold take_screenshot, screenshot_events.
  destruct (save_screenshots cfg); cbn [negb].
  - msimpl. destruct (pg_save_screenshot (w_page w (st_navs st))); msimpl;
      rewrite <- ?app_assoc; reflexivity.
  - msimpl. now rewrite app_nil_r.
Qed.

Lemma take_screenshot_run name st :
  exists st', take_screenshot cfg w name st = (Ok tt, st')
    /\ calm st st' /\ st_navs st' = st_navs st
    /\ st_trace st'
       = st_trace st ++ screenshot_events cfg (w_page w (st_navs st)) name.
Proof.
  destruct (take_screenshot_total cfg w name st) as ([] & st' & E).
  exists st'. split; [exact E|].
  pose proof (take_screenshot_calm cfg w name st) as C.
  pose proof (take_screenshot_navs cfg w name st) as N.
  pose proof (take_screenshot_trace name st) as T.
  rewrite E in C, N, T. auto.
Qed.

Lemma quiet_emit ev st st' :
  ev <> EvRandomDelay 10 15 -> quiet (snd (emit ev st)) st' -> quiet st st'.
Proof.
  intros Hev HQ. etransitivity; [|exact HQ].
  exists [ev]. split; [reflexivity | now constructor].
Qed.

Lemma bind_unfold {A B} (m : M A) (k : A -> M B) st :
  bind m k st
  = match m st with
    | (Ok a, st') => k a st'
    | (Raise e, st') => (Raise e, st')
    end.
Proof. reflexivity. Qed.

Lemma try_except_unfold {A} (body : M A) catches handler st :
  try_except body catches handler st
  = match body st with
    | (Ok a, st') => (Ok a, st')
    | (Raise e, st') => if catches e then handler e st' else (Raise e, st')
    end.
Proof. reflexivity. Qed.

End Stepping.

Ltac run_screenshot :=
  match goal with
  | |- context [bind (take_screenshot ?c ?w0 ?name) ?k ?st0] =>
      let st1 := fresh "st" in
      rewrite (bind_unfold (take_screenshot c w0 name) k st0);
      destruct (take_screenshot_run c w0 name st0)
        as (st1 & -> & (?&?&?&?&?) & ? & ?)
  | |- context [take_screenshot ?c ?w0 ?name ?st0] =>
      let st1 := fresh "st" in
      destruct (take_screenshot_run c w0 name st0)
        as (st1 & -> & (?&?&?&?&?) & ? & ?)
  end.

Section Details.

Context (cfg : config) (w : world).

Lemma update_description_is_Some (d other : job) (text : string) :
  is_Some (update (<["job_description" := text]> d) other !! "job_description").
Proof.
  unfold update. apply lookup_union_is_Some. right.
  rewrite lookup_insert_eq. eauto.
Qed.

Ltac detail_finish :=
  msimpl; repeat (run_screenshot; msimpl);
  eexists _, _; (split; [reflexivity|]); msimpl;
  repeat split; try congruence; try lia;
  try (rewrite lookup_insert_eq; eauto);
  try apply update_description_is_Some.

Lemma scrape_job_detail_run n i job st :
  exists r st',
    scrape_job_detail cfg w n i job st = (Ok tt, st')
    /\ st_detailed_jobs st' = st_detailed_jobs st ++ [r]
    /\ detail_result job (detail_fetch job (w_page w (S (st_navs st)))) r
    /\ is_Some (r !! "job_description")
    /\ st_navs st' = (st_navs st + detail_loads job)%nat
    /\ st_driver st' = st_driver st
    /\ st_job_listings st' = st_job_listings st
    /\ st_all_job_listings st' = st_all_job_listings st
    /\ st_job_data st' = st_job_data st.
Proof.
  unfold scrape_job_detail, detail_fetch, detail_loads.
  destruct (getitem job "job_title") as [job_title|e1] eqn:E1;
    [|detail_finish].
  destruct (getitem job "company") as [company|e2] eqn:E2;
    [|detail_finish].
  destruct (getitem job "job_link") as [job_link|e3] eqn:E3;
    [|detail_finish].
  destruct (pg_load (w_page w (S (st_navs st)))) as [[]|e4] eqn:E4;
    [|msimpl; rewrite E4; detail_finish].
  destruct (pg_description (w_page w (S (st_navs st)))) as [text|e5] eqn:E5.
  - destruct (Z.of_nat i <? Z.of_nat n - 1) eqn:Ei;
      msimpl; rewrite E4, E5; msimpl; rewrite ?Ei;
      detail_finish.
  - destruct (Z.of_nat i <? Z.of_nat n - 1) eqn:Ei;
      destruct e5; msimpl; rewrite E4, E5; msimpl;
      repeat (run_screenshot; msimpl); rewrite ?Ei; detail_finish.
Qed.

Lemma detail_loop_run n job_listings :
  forall i st,
  exists out st',
    for_each (enumerate_from i job_listings)
      (fun '(i, job) => scrape_job_detail cfg w n i job) st = (Ok tt, st')
    /\ st_detailed_jobs st' = st_detailed_jobs st ++ out
    /\ Forall3 detail_result job_listings
         (detail_fetches w (st_navs st) job_listings) out
    /\ Forall (fun r : job => is_Some (r !! "job_description")) out
    /\ st_driver st' = st_driver st
    /\ st_job_listings st' = st_job_listings st
    /\ st_all_job_listings st' = st_all_job_listings st
    /\ st_job_data st' = st_job_data st.
Proof.
  induction job_listings as [|job rest IH]; intros i st.
  - exists [], st. cbn [enumerate_from for_each detail_fetches].
    rewrite app_nil_r. repeat split; constructor.
  - cbn [enumerate_from for_each detail_fetches]. rewrite bind_unfold.
    destruct (scrape_job_detail_run n i job st)
      as (r & st1 & -> & Hd & Hr & Hs & Hn & ? & ? & ? & ?).
    destruct (IH (S i) st1) as (out & st2 & -> & Hd2 & Hf & Hs2 & ? & ? & ? & ?).
    exists (r :: out), st2. split; [reflexivity|].
    split; [rewrite Hd2, Hd, <- app_assoc; reflexivity|].
    split; [constructor; [exact Hr | rewrite <- Hn; exact Hf]|].
    split; [constructor; assumption|].
    repeat split; congruence.
Qed.

Lemma scrape_job_details_run job_listings st :
  exists out st',
    scrape_job_details cfg w job_listings st = (Ok out, st')
    /\ Forall3 detail_result job_listings
         (detail_fetches w (st_navs st) job_listings) out
    /\ Forall (fun r : job => is_Some (r !! "job_description")) out
    /\ st_driver st' = st_driver st
    /\ st_job_listings st' = st_job_listings st
    /\ st_all_job_listings st' = st_all_job_listings st
    /\ st_job_data st' = st_job_data st.
Proof.
  unfold scrape_job_details, enumerate. rewrite bind_unfold.
  cbn [set_detailed_jobs]. rewrite bind_unfold.
  destruct (detail_loop_run (length job_listings) job_listings 0
              (snd (set_detailed_jobs [] st)))
    as (out & st1 & E & Hd & Hf & Hs & ? & ? & ? & ?).
  cbn [set_detailed_jobs snd] in E. rewrite E.
  exists out, st1. msimpl. rewrite Hd. auto 10.
Qed.

End Details.

Lemma Forall3_length_lr {A B C} (P : A -> B -> C -> Prop) l k o :
  Forall3 P l k o -> length o = length l.
Proof. induction 1; cbn; congruence. Qed.

(** C2. Whatever the browser answers for each item (success, timeout of
    the description wait, any other exception, missing keys in the input
    record), [scrape_job_details] returns normally and its output has
    exactly the length of its input. *)
Theorem scrape_job_details_length (cfg : config) (w : world)
    (job_listings : list job) (st : state) :
  exists detailed_jobs st',
    scrape_job_details cfg w job_listings st = (Ok detailed_jobs, st')
    /\ length detailed_jobs = length job_listings.
Proof.
  destruct (scrape_job_details_run cfg w job_listings st)
    as (out & st' & E & Hf & _).
  exists out, st'. split; [exact E|].
  exact (Forall3_length_lr _ _ _ _ Hf).
Qed.

(** The description container of the only detail page is present with an
    empty text (as for an element that is not displayed): the fetch
    succeeds and the record's [job_description] is the empty string. *)
Lemma scrape_job_details_empty_description :
  detail_fetch sample_listing (description_page "") = Fetched ""
  /\ fst (scrape_job_details test_config
            (world_serving (fun _ => description_page ""))
            [sample_listing] init_state)
     = Ok [<["job_description" := ""]> sample_listing]
  /\ (<["job_description" := ""]> sample_listing) !! "job_description" = Some "".
Proof.
  split; [vm_compute; reflexivity|].
  split; [vm_compute; reflexivity|].
  vm_compute; reflexivity.
Qed.

(** C3 (amended). [scrape_job_details] returns one record per input
    record; the record of an item whose description wait timed out is the
    input record with [job_description] set to the literal marker
    [timeout_marker]; the record of an item that failed with any other
    exception [e] is the input record with [job_description] set to
    [error_marker e], which embeds [str(e)]; both markers are non-empty,
    so the [job_description] of a failed record is never the empty
    string; and every output record, failed or not, has the key
    [job_description]. *)
Theorem scrape_job_details_failure_marker (cfg : config) (w : world)
    (job_listings : list job) (st : state) :
  (exists detailed_jobs st',
      scrape_job_details cfg w job_listings st = (Ok detailed_jobs, st')
      /\ Forall3 (fun (listing : job) (f : fetch) (r : job) =>
                    match f with
                    | TimedOut =>
                        r = <["job_description" := timeout_marker]> listing
                        /\ r !! "job_description" = Some timeout_marker
                        /\ r !! "job_description" <> Some ""
                    | Failed e =>
                        r = <["job_description" := error_marker e]> listing
                        /\ r !! "job_description" = Some (error_marker e)
                        /\ r !! "job_description" <> Some ""
                    | Fetched _ => True
                    end)
           job_listings (detail_fetches w (st_navs st) job_listings)
           detailed_jobs
      /\ Forall (fun r : job => is_Some (r !! "job_description")) detailed_jobs)
  /\ timeout_marker <> ""
  /\ PyStr.contains "抓取失败" timeout_marker = true
  /\ (forall e, error_marker e <> ""
                /\ PyStr.contains "抓取错误" (error_marker e) = true
                /\ PyStr.contains (str_exn e) (error_marker e) = true).
Proof.
  split; [|split; [discriminate|split; [reflexivity|]]].
  - destruct (scrape_job_details_run cfg w job_listings st)
      as (out & st' & E & Hf & Hs & _).
    exists out, st'. split; [exact E|]. split; [|exact Hs].
    clear E Hs. induction Hf as [|listing f r ls fs rs Hr _ IH]; constructor;
      [|exact IH].
    destruct f; cbn [detail_result] in Hr; [exact I|..];
      subst r; rewrite lookup_insert_eq;
      (split; [reflexivity | split; [reflexivity | discriminate]]).
  - intros e. split; [discriminate|]. unfold error_marker. split.
    + apply (contains_app "抓取错误" "[" (": " +:+ str_exn e +:+ "]")).
    + apply (contains_app (str_exn e) "[抓取错误: " "]").
Qed.

(* ===================================================================== *)
(** * The listing stage *)
(* ===================================================================== *)

Arguments listing_record : simpl never.

Section ListingFrame.

Global Instance calm_but_listings_preorder : PreOrder calm_but_listings.
Proof.
  split; [intros st; repeat split|].
  intros a b c (?&?&?&?) (?&?&?&?). repeat split; congruence.
Qed.

Lemma calm_calm_but_listings {A} (m : M A) :
  pres calm m -> pres calm_but_listings m.
Proof. intros H st. destruct (H st) as (?&?&?&?&?). repeat split; assumption. Qed.

End ListingFrame.

#[export] Hint Resolve calm_calm_but_listings : crawl.

Section Listing.

Context (cfg : config) (w : world).

Lemma scroll_page_run st :
  exists st', scroll_page w st = (Ok tt, st')
    /\ calm st st' /\ st_navs st' = st_navs st /\ quiet st st'.
Proof.
  destruct (scroll_page_total w st) as ([] & st' & E).
  exists st'. split; [exact E|].
  pose proof (scroll_page_calm w st) as C.
  pose proof (scroll_page_navs w st) as N.
  pose proof (scroll_page_quiet w st) as Q.
  rewrite E in C, N, Q. auto.
Qed.

Lemma listing_items_loop_frame keyword location job_items :
  pres calm_but_listings (listing_items_loop keyword location job_items).
Proof. unfold listing_items_loop. pres_go. Qed.

Lemma listing_items_loop_navs keyword location job_items :
  pres (same st_navs) (listing_items_loop keyword location job_items).
Proof. unfold listing_items_loop. pres_go. Qed.

Lemma listing_items_loop_quiet keyword location job_items :
  pres quiet (listing_items_loop keyword location job_items).
Proof. unfold listing_items_loop. pres_go. Qed.

Lemma listing_items_loop_run keyword location job_items :
  forall st,
  exists st',
    listing_items_loop keyword location job_items st = (Ok tt, st')
    /\ st_job_listings st'
       = st_job_listings st ++ extracted_records keyword location job_items.
Proof.
  unfold listing_items_loop, extracted_records.
  induction job_items as [|job_item rest IH]; intros st.
  - exists st. cbn [for_each flat_map]. now rewrite app_nil_r.
  - cbn [for_each flat_map]. rewrite bind_unfold, try_except_unfold, bind_unfold.
    destruct (listing_record keyword location job_item) as [job_data|e];
      msimpl.
    + match goal with |- context [for_each _ _ ?s] =>
        destruct (IH s) as (st' & -> & Hl) end.
      exists st'. split; [reflexivity|]. rewrite Hl. msimpl.
      now rewrite <- app_assoc.
    + match goal with |- context [for_each _ _ ?s] =>
        destruct (IH s) as (st' & -> & Hl) end.
      exists st'. split; [reflexivity|]. rewrite Hl. msimpl. reflexivity.
Qed.

Lemma scrape_listing_page_frame keyword location pages p :
  pres calm_but_listings (scrape_listing_page cfg w keyword location pages p).
Proof. unfold scrape_listing_page. pres_go. Qed.

Lemma scrape_listing_page_quiet keyword location pages p :
  pres quiet (scrape_listing_page cfg w keyword location pages p).
Proof. unfold scrape_listing_page. pres_go. Qed.

End Listing.

(** Closes a goal [exists mid, tr = ...] once [tr] is an explicit list:
    the trace is put in normal form before the witness is guessed. *)
Ltac solve_mid :=
  match goal with
  | |- exists _, ?L = _ =>
      let tr := fresh "tr" in
      let Htr := fresh "Htr" in
      remember L as tr eqn:Htr;
      rewrite <- ?app_assoc in Htr; cbn [app] in Htr; subst tr;
      first [ eexists; reflexivity
            | eexists (_ :: _ :: _ :: _); reflexivity ]
  end.

Ltac run_scroll :=
  match goal with
  | |- context [scroll_page ?w0 ?st0] =>
      let st1 := fresh "st" in
      destruct (scroll_page_run w0 st0)
        as (st1 & -> & (?&?&?&?&?) & ? & ?)
  end.

Section ListingPage.

Context (cfg : config) (w : world).

Lemma scrape_listing_page_run keyword location pages p st :
  exists r st',
    scrape_listing_page cfg w keyword location pages p st = (r, st')
    /\ r = match listing_outcome (w_page w (S (st_navs st))) with
           | Aborted e => Raise e
           | _ => Ok tt
           end
    /\ st_job_listings st'
       = st_job_listings st
         ++ page_records keyword location (w_page w (S (st_navs st)))
    /\ st_navs st' = S (st_navs st)
    /\ (exists mid,
          st_trace st'
          = st_trace st
            ++ EvLog INFO ("正在抓取 '" +:+ keyword +:+ "' 在 '" +:+ location
                           +:+ "' 的第 " +:+ pretty p +:+ " 页")
            :: EvGet (construct_search_url keyword location p) :: mid)
    /\ (listing_outcome (w_page w (S (st_navs st))) = PageTimeout ->
        exists mid,
          st_trace st'
          = st_trace st ++ mid
            ++ timeout_events cfg (w_page w (S (st_navs st))) p).
Proof.
  unfold scrape_listing_page, listing_outcome, page_records, listing_outcome,
    timeout_events.
  destruct (pg_load (w_page w (S (st_navs st)))) as [[]|e] eqn:El.
  2:{ msimpl. rewrite El. eexists _, _. split; [reflexivity|]. msimpl.
      rewrite app_nil_r. repeat split; try discriminate. solve_mid. }
  destruct (pg_results (w_page w (S (st_navs st)))) as [job_items|e] eqn:Er.
  - pose proof (listing_items_loop_run keyword location job_items) as Hloop.
    pose proof (listing_items_loop_navs keyword location job_items) as Hnavs.
    pose proof (listing_items_loop_quiet keyword location job_items) as Hq.
    unfold listing_items_loop, pres, same, quiet in Hloop, Hnavs, Hq.
    msimpl. rewrite El. msimpl. run_scroll. msimpl.
    match goal with H : st_navs _ = S (st_navs st) |- _ => rewrite H end.
    match goal with H : quiet _ _ |- _ => destruct H as (evs0 & Ht0 & _) end.
    msimpl. rewrite Er. msimpl.
    match goal with |- context [for_each job_items ?body ?s] =>
      specialize (Hnavs s); destruct (Hq s) as (evs2 & Ht2 & _);
      destruct (Hloop s) as (st2 & E2 & Hl); rewrite E2 in *
    end.
    msimpl.
    destruct (p <? pages); msimpl; eexists _, _; (split; [reflexivity|]);
      msimpl; rewrite Hl; repeat split; try congruence; try discriminate;
      rewrite Ht2; msimpl; rewrite Ht0; solve_mid.
  - msimpl. rewrite El. msimpl. run_scroll. msimpl.
    match goal with H : st_navs _ = S (st_navs st) |- _ => rewrite H end.
    match goal with H : quiet _ _ |- _ => destruct H as (evs0 & Ht0 & _) end.
    msimpl. rewrite Er. destruct e; msimpl.
    + run_screenshot. msimpl. eexists _, _. split; [reflexivity|].
      rewrite app_nil_r.
      match goal with H : st_trace _ = _ ++ screenshot_events _ _ _ |- _ =>
        rewrite H end.
      msimpl.
      match goal with H : st_navs _ = S (st_navs st) |- _ => rewrite H end.
      rewrite Ht0. repeat split; try congruence.
      * solve_mid.
      * intros _. solve_mid.
    + eexists _, _. split; [reflexivity|].
      rewrite app_nil_r. repeat split; try congruence; try discriminate.
      rewrite Ht0. solve_mid.
    + eexists _, _. split; [reflexivity|].
      rewrite app_nil_r. repeat split; try congruence; try discriminate.
      rewrite Ht0. solve_mid.
Qed.

End ListingPage.

Section ListingLoop.

Context (cfg : config) (w : world).

Lemma listing_pages_loop_quiet keyword location pages ps :
  pres quiet (for_each ps (scrape_listing_page cfg w keyword location pages)).
Proof. apply pres_for_each; [apply _|]. intros p. apply scrape_listing_page_quiet. Qed.

Lemma listing_pages_loop_frame keyword location pages ps :
  pres calm_but_listings
    (for_each ps (scrape_listing_page cfg w keyword location pages)).
Proof. apply pres_for_each; [apply _|]. intros p. apply scrape_listing_page_frame. Qed.

Lemma abort_of_cons lp loaded :
  loaded <> [] -> abort_of (lp :: loaded) = abort_of loaded.
Proof. unfold abort_of. destruct loaded; [congruence|reflexivity]. Qed.

Lemma abort_of_single lp :
  abort_of [lp]
  = match listing_outcome (snd lp) with
    | Aborted e => Some e
    | _ => None
    end.
Proof. destruct lp. reflexivity. Qed.

Lemma pages_loaded_nonempty navs p ps :
  pages_loaded w navs (p :: ps) <> [].
Proof. discriminate. Qed.

Lemma listing_pages_loop_run keyword location pages ps :
  forall st,
  exists r st',
    for_each ps (scrape_listing_page cfg w keyword location pages) st = (r, st')
    /\ r = match abort_of (pages_loaded w (st_navs st) ps) with
           | Some e => Raise e
           | None => Ok tt
           end
    /\ st_job_listings st'
       = st_job_listings st
         ++ loaded_records keyword location (pages_loaded w (st_navs st) ps)
    /\ st_navs st' = (st_navs st + length (pages_loaded w (st_navs st) ps))%nat
    /\ Forall (timeout_handled cfg (st_trace st'))
         (pages_loaded w (st_navs st) ps)
    /\ Forall (navigated keyword location (st_trace st'))
         (pages_loaded w (st_navs st) ps).
Proof.
  induction ps as [|p ps IH]; intros st.
  - exists (Ok tt), st. cbn. rewrite app_nil_r.
    repeat split; try constructor. lia.
  - cbn [for_each pages_loaded]. rewrite bind_unfold.
    destruct (scrape_listing_page_run cfg w keyword location pages p st)
      as (r1 & st1 & -> & -> & Hl1 & Hn1 & (mid1 & Hg1) & Ht1).
    set (pg := w_page w (S (st_navs st))) in *.
    assert (Hnav1 : navigated keyword location (st_trace st1) (p, pg)).
    { exists (st_trace st ++ [EvLog INFO
                ("正在抓取 '" +:+ keyword +:+ "' 在 '" +:+ location
                 +:+ "' 的第 " +:+ pretty p +:+ " 页")]), mid1.
      rewrite Hg1, <- app_assoc. reflexivity. }
    assert (Hto1 : timeout_handled cfg (st_trace st1) (p, pg)).
    { intros Ho. destruct (Ht1 Ho) as (mid & Hm).
      exists (st_trace st ++ mid), []. rewrite Hm, app_nil_r, <- app_assoc.
      reflexivity. }
    destruct (listing_outcome pg) as [items| |e] eqn:Eo.
    + destruct (IH st1) as (r2 & st2 & E2 & -> & Hl2 & Hn2 & Hto2 & Hnav2).
      pose proof (listing_pages_loop_quiet keyword location pages ps st1) as Hq.
      rewrite E2 in Hq. destruct Hq as (evs & Hev & _). cbn [snd] in Hev.
      rewrite Hn1 in *. eexists _, st2. rewrite E2.
      split; [reflexivity|]. split.
      { destruct ps as [|p' ps'];
          [rewrite abort_of_single; cbn [snd]; rewrite Eo; reflexivity|].
        now rewrite abort_of_cons by apply pages_loaded_nonempty. }
      split; [rewrite Hl2, Hl1, <- app_assoc; unfold loaded_records;
              cbn [flat_map snd]; reflexivity|].
      split; [cbn [length]; lia|].
      split; constructor; try assumption.
      * intros Ho. cbn [snd] in Ho. rewrite Eo in Ho. discriminate Ho.
      * destruct Hnav1 as (t1 & t2 & H1). exists t1, (t2 ++ evs).
        rewrite Hev, H1, <- app_assoc. reflexivity.
    + destruct (IH st1) as (r2 & st2 & E2 & -> & Hl2 & Hn2 & Hto2 & Hnav2).
      pose proof (listing_pages_loop_quiet keyword location pages ps st1) as Hq.
      rewrite E2 in Hq. destruct Hq as (evs & Hev & _). cbn [snd] in Hev.
      rewrite Hn1 in *. eexists _, st2. rewrite E2.
      split; [reflexivity|]. split.
      { destruct ps as [|p' ps'];
          [rewrite abort_of_single; cbn [snd]; rewrite Eo; reflexivity|].
        now rewrite abort_of_cons by apply pages_loaded_nonempty. }
      split; [rewrite Hl2, Hl1, <- app_assoc; unfold loaded_records;
              cbn [flat_map snd]; reflexivity|].
      split; [cbn [length]; lia|].
      split; constructor; try assumption.
      * intros Ho. destruct (Hto1 Ho) as (t1 & t2 & H1).
        exists t1, (t2 ++ evs). rewrite Hev, H1, <- !app_assoc. reflexivity.
      * destruct Hnav1 as (t1 & t2 & H1). exists t1, (t2 ++ evs).
        rewrite Hev, H1, <- app_assoc. reflexivity.
    + exists (Raise e), st1. split; [reflexivity|].
      split; [rewrite abort_of_single; cbn [snd]; rewrite Eo; reflexivity|].
      split; [rewrite Hl1; unfold loaded_records; cbn [flat_map snd];
              now rewrite app_nil_r|].
      split; [cbn [length]; lia|].
      split; repeat constructor; assumption.
Qed.

End ListingLoop.

Section ListingFunction.

Context (cfg : config) (w : world).

Lemma timeout_handled_extend tr evs lp :
  timeout_handled cfg tr lp -> timeout_handled cfg (tr ++ evs) lp.
Proof.
  intros H Ho. destruct (H Ho) as (t1 & t2 & ->).
  exists t1, (t2 ++ evs). now rewrite <- !app_assoc.
Qed.

Lemma navigated_extend keyword location tr evs lp :
  navigated keyword location tr lp -> navigated keyword location (tr ++ evs) lp.
Proof.
  intros (t1 & t2 & ->). exists t1, (t2 ++ evs). now rewrite <- app_assoc.
Qed.

Lemma scrape_job_listings_run keyword location pages st :
  exists st',
    scrape_job_listings cfg w keyword location pages st
    = (Ok (loaded_records keyword location
             (pages_loaded w (st_navs st) (range 1 (pages + 1)))), st')
    /\ st_job_listings st'
       = loaded_records keyword location
           (pages_loaded w (st_navs st) (range 1 (pages + 1)))
    /\ st_navs st'
       = (st_navs st
          + length (pages_loaded w (st_navs st) (range 1 (pages + 1))))%nat
    /\ Forall (timeout_handled cfg (st_trace st'))
         (pages_loaded w (st_navs st) (range 1 (pages + 1)))
    /\ Forall (navigated keyword location (st_trace st'))
         (pages_loaded w (st_navs st) (range 1 (pages + 1)))
    /\ (forall e,
          abort_of (pages_loaded w (st_navs st) (range 1 (pages + 1))) = Some e ->
          exists t,
            st_trace st' = t ++ abort_events cfg (w_page w (st_navs st')) e).
Proof.
  unfold scrape_job_listings. rewrite bind_unfold. cbn [set_job_listings].
  rewrite bind_unfold, try_except_unfold.
  set (st0 := {| st_driver := st_driver st; st_navs := st_navs st;
                 st_trace := st_trace st; st_job_listings := [];
                 st_detailed_jobs := st_detailed_jobs st;
                 st_all_job_listings := st_all_job_listings st;
                 st_job_data := st_job_data st |}).
  change (st_navs st) with (st_navs st0).
  destruct (listing_pages_loop_run cfg w keyword location pages
              (range 1 (pages + 1)) st0)
    as (r & st1 & -> & -> & Hl & Hn & Hto & Hnav).
  cbn [st_job_listings st0 app] in Hl.
  set (loaded := pages_loaded w (st_navs st0) (range 1 (pages + 1))) in *.
  destruct (abort_of loaded) as [e|] eqn:Ea.
  - cbn [is_Exception]. rewrite bind_unfold. msimpl. run_screenshot. msimpl.
    match goal with H : st_trace _ = _ ++ screenshot_events _ _ _ |- _ =>
      rename H into Hs end.
    match goal with H : st_navs _ = st_navs st1 |- _ => rename H into Hn2 end.
    msimpl. eexists. split; [rewrite <- Hl; f_equal; congruence|].
    split; [congruence|]. split; [congruence|].
    rewrite Hs, Hn2.
    split; [|split].
    + eapply Forall_impl; [exact Hto|]. intros lp Hlp.
      now apply timeout_handled_extend, timeout_handled_extend.
    + eapply Forall_impl; [exact Hnav|]. intros lp Hlp.
      now apply navigated_extend, navigated_extend.
    + intros e' [= <-]. exists (st_trace st1). unfold abort_events.
      now rewrite <- app_assoc.
  - msimpl. exists st1. split; [rewrite Hl; reflexivity|].
    repeat split; try assumption. intros e [=].
Qed.

Lemma scrape_job_listings_total keyword location pages :
  total (scrape_job_listings cfg w keyword location pages).
Proof.
  intros st. destruct (scrape_job_listings_run keyword location pages st)
    as (st' & E & _). eauto.
Qed.

Lemma scrape_job_listings_quiet keyword location pages :
  pres quiet (scrape_job_listings cfg w keyword location pages).
Proof.
  unfold scrape_job_listings.
  pose proof (listing_pages_loop_quiet cfg w keyword location pages).
  pres_go.
Qed.

Lemma scrape_job_listings_frame keyword location pages :
  pres calm_but_listings (scrape_job_listings cfg w keyword location pages).
Proof.
  unfold scrape_job_listings.
  pose proof (listing_pages_loop_frame cfg w keyword location pages).
  pres_go.
Qed.

End ListingFunction.

(* ===================================================================== *)
(** * Orchestration: session release *)
(* ===================================================================== *)

Arguments run_try : simpl never.

(** X3. Whatever the [try] block of [run] does, the [finally] block runs
    after it: a session that exists is quit (and never left open), and
    nothing is quit when none was created.  When the [try] block raises
    [e], the error is logged, the session is released, and [run] raises
    the same [e] to its caller; when it returns, [run] returns the same
    value after releasing the session. *)
Theorem run_releases_session (cfg : config) (w : world) (st : state) :
  st_driver (snd (run cfg w st)) <> Some true
  /\ match run_try cfg w st with
     | (Ok detailed_jobs, st1) =>
         fst (run cfg w st) = Ok detailed_jobs
         /\ st_driver (snd (run cfg w st)) = released (st_driver st1)
         /\ st_trace (snd (run cfg w st))
            = st_trace st1 ++ cleanup_events (st_driver st1)
     | (Raise e, st1) =>
         fst (run cfg w st) = Raise e
         /\ st_driver (snd (run cfg w st)) = released (st_driver st1)
         /\ st_trace (snd (run cfg w st))
            = st_trace st1
              ++ [EvLog ERROR ("爬虫运行时出错: " +:+ str_exn e)]
              ++ cleanup_events (st_driver st1)
     end.
Proof.
  unfold run, run_finally.
  destruct (run_try cfg w st) as [[detailed_jobs|e] st1] eqn:E;
    msimpl; rewrite E; msimpl;
    destruct (st_driver st1) as [b|] eqn:Ed; msimpl;
    rewrite ?app_nil_r, <- ?app_assoc; repeat split;
    try reflexivity; try discriminate; try congruence; try exact Ed.
Qed.

(** The browser cannot be started: [run] logs the failure twice (in
    [setup_driver] and in [run]), quits nothing, and raises. *)
Example run_without_browser :
  run test_config world_without_browser init_state
  = (Raise (WebDriverException "cannot find Chrome binary"),
     {| st_driver := None; st_navs := 0;
        st_trace :=
          [EvLog ERROR "WebDriver初始化失败: cannot find Chrome binary";
           EvLog ERROR "爬虫运行时出错: cannot find Chrome binary"];
        st_job_listings := []; st_detailed_jobs := [];
        st_all_job_listings := []; st_job_data := [] |}).
Proof. vm_compute. reflexivity. Qed.

(* ===================================================================== *)
(** * Properties of the listing stage *)
(* ===================================================================== *)

Section PagesLoaded.

Context (w : world).

Lemma range_length lo hi : length (range lo hi) = Z.to_nat (hi - lo).
Proof. unfold range. now rewrite length_map, length_seq. Qed.

Lemma range_lookup_iff lo hi k p :
  range lo hi !! k = Some p
  <-> p = lo + Z.of_nat k /\ (k < Z.to_nat (hi - lo))%nat.
Proof.
  unfold range. rewrite lookup_map. split.
  - destruct (seq 0 (Z.to_nat (hi - lo)) !! k) as [i|] eqn:Hi; [|discriminate].
    apply lookup_seq in Hi as [-> Hlt]. cbn. intros [= <-]. auto.
  - intros [-> Hlt].
    assert (Hi : seq 0 (Z.to_nat (hi - lo)) !! k = Some k)
      by (apply lookup_seq; auto).
    now rewrite Hi.
Qed.

Lemma range_lookup lo hi k p :
  range lo hi !! k = Some p -> p = lo + Z.of_nat k.
Proof. intros H. now apply range_lookup_iff in H. Qed.

Lemma pages_loaded_length_le navs ps :
  (length (pages_loaded w navs ps) <= length ps)%nat.
Proof.
  revert navs. induction ps as [|p ps IH]; intros navs; [reflexivity|].
  cbn [pages_loaded length].
  destruct (listing_outcome (w_page w (S navs)));
    cbn [length]; try (specialize (IH (S navs))); lia.
Qed.

Lemma pages_loaded_all navs ps :
  abort_of (pages_loaded w navs ps) = None ->
  length (pages_loaded w navs ps) = length ps.
Proof.
  revert navs. induction ps as [|p ps IH]; intros navs; [reflexivity|].
  cbn [pages_loaded length].
  destruct (listing_outcome (w_page w (S navs))) eqn:Eo.
  - destruct ps as [|p' ps']; [reflexivity|].
    rewrite abort_of_cons by discriminate. intros H.
    cbn [length]. f_equal. now apply IH.
  - destruct ps as [|p' ps']; [reflexivity|].
    rewrite abort_of_cons by discriminate. intros H.
    cbn [length]. f_equal. now apply IH.
  - rewrite abort_of_single. cbn [snd]. rewrite Eo. discriminate.
Qed.

Lemma pages_loaded_lookup navs ps k p pg :
  pages_loaded w navs ps !! k = Some (p, pg) ->
  ps !! k = Some p /\ pg = w_page w (navs + S k).
Proof.
  revert navs k. induction ps as [|p0 ps IH]; intros navs k H; [inversion H|].
  cbn [pages_loaded] in H. destruct k as [|k].
  - cbn in H. injection H as <- <-. split; [reflexivity|]. f_equal. lia.
  - cbn [lookup list_lookup] in H |- *.
    destruct (listing_outcome (w_page w (S navs)));
      [| |destruct k; discriminate H];
      apply IH in H as [H ->]; (split; [exact H | f_equal; lia]).
Qed.

Lemma pages_loaded_next navs ps k p pg p' :
  pages_loaded w navs ps !! k = Some (p, pg) ->
  (forall e, listing_outcome pg <> Aborted e) ->
  ps !! S k = Some p' ->
  pages_loaded w navs ps !! S k = Some (p', w_page w (navs + S (S k))).
Proof.
  revert navs k. induction ps as [|p0 ps IH]; intros navs k H Hna Hp';
    [inversion H|].
  cbn [pages_loaded] in H |- *. destruct k as [|k].
  - cbn in H. injection H as <- <-.
    destruct (listing_outcome (w_page w (S navs))) eqn:Eo;
      [| |now destruct (Hna e)];
      destruct ps as [|p1 ps]; try discriminate Hp';
      cbn in Hp'; injection Hp' as <-; cbn; do 3 f_equal; lia.
  - cbn [lookup list_lookup] in H, Hp'.
    destruct (listing_outcome (w_page w (S navs)));
      [| |destruct k; discriminate H];
      (etransitivity; [exact (IH (S navs) k H Hna Hp')|]);
      do 3 f_equal; lia.
Qed.

End PagesLoaded.

(** X1. [scrape_job_listings] never raises.  It returns the records of
    the pages it loaded, which are the pages [1..pages] in order up to
    and including the first one on which an exception escapes the page
    body; the later pages are not loaded.  When such an exception [e]
    occurred the trace ends with the error log for [e] followed by the
    effect of [take_screenshot("job_listing_error")]; otherwise every
    page was loaded. *)
Theorem scrape_job_listings_never_raises (cfg : config) (w : world)
    (keyword location : string) (pages : Z) (st : state) :
  exists st',
    scrape_job_listings cfg w keyword location pages st
    = (Ok (loaded_records keyword location
             (pages_loaded w (st_navs st) (range 1 (pages + 1)))), st')
    /\ st_navs st'
       = (st_navs st
          + length (pages_loaded w (st_navs st) (range 1 (pages + 1))))%nat
    /\ (length (pages_loaded w (st_navs st) (range 1 (pages + 1)))
        <= Z.to_nat pages)%nat
    /\ Forall (navigated keyword location (st_trace st'))
         (pages_loaded w (st_navs st) (range 1 (pages + 1)))
    /\ match abort_of (pages_loaded w (st_navs st) (range 1 (pages + 1))) with
       | Some e =>
           exists t,
             st_trace st'
             = t ++ EvLog ERROR ("抓取职位列表时出错: " +:+ str_exn e)
                 :: screenshot_events cfg (w_page w (st_navs st'))
                      "job_listing_error"
       | None =>
           length (pages_loaded w (st_navs st) (range 1 (pages + 1)))
           = Z.to_nat pages
       end.
Proof.
  destruct (scrape_job_listings_run cfg w keyword location pages st)
    as (st' & E & _ & Hn & _ & Hnav & Hab).
  exists st'. split; [exact E|]. split; [exact Hn|].
  assert (Hlen : length (range 1 (pages + 1)) = Z.to_nat pages).
  { rewrite range_length. f_equal. lia. }
  split; [rewrite <- Hlen; apply pages_loaded_length_le|].
  split; [exact Hnav|].
  destruct (abort_of _) as [e|] eqn:Ea.
  - exact (Hab e eq_refl).
  - rewrite <- Hlen. now apply pages_loaded_all.
Qed.

(** X2. A timeout of the wait for the results container on a loaded
    search page [p] is handled inside the page loop: the page contributes
    no record (the list returned holds the records of the pages loaded
    before [p] followed by those of the pages loaded after it), the trace
    holds the warning for [p] followed by the effect of
    [take_screenshot("timeout_page_<p>")], and when [p] is not the last
    page the next page [p + 1] is loaded all the same. *)
Theorem scrape_job_listings_timeout_skips (cfg : config) (w : world)
    (keyword location : string) (pages : Z) (st : state)
    (k : nat) (p : Z) (pg : page) :
  pages_loaded w (st_navs st) (range 1 (pages + 1)) !! k = Some (p, pg) ->
  listing_outcome pg = PageTimeout ->
  exists job_listings st',
    scrape_job_listings cfg w keyword location pages st = (Ok job_listings, st')
    /\ job_listings
       = loaded_records keyword location
           (pages_loaded w (st_navs st) (range 1 (pages + 1)))
    /\ job_listings
       = loaded_records keyword location
           (take k (pages_loaded w (st_navs st) (range 1 (pages + 1))))
         ++ loaded_records keyword location
              (drop (S k) (pages_loaded w (st_navs st) (range 1 (pages + 1))))
    /\ p = 1 + Z.of_nat k
    /\ pg = w_page w (st_navs st + S k)
    /\ page_records keyword location pg = []
    /\ (exists t1 t2,
          st_trace st'
          = t1 ++ EvLog WARNING ("等待职位列表超时，页面 " +:+ pretty p)
               :: screenshot_events cfg pg ("timeout_page_" +:+ pretty p)
               ++ t2)
    /\ (p < pages ->
        pages_loaded w (st_navs st) (range 1 (pages + 1)) !! S k
        = Some (p + 1, w_page w (st_navs st + S (S k)))
        /\ exists t1 t2,
             st_trace st'
             = t1 ++ EvGet (construct_search_url keyword location (p + 1)) :: t2).
Proof.
  intros Hk Ho.
  destruct (scrape_job_listings_run cfg w keyword location pages st)
    as (st' & E & _ & Hn & Hto & Hnav & _).
  destruct (pages_loaded_lookup w _ _ _ _ _ Hk) as [Hp Hpg].
  apply range_lookup in Hp as Hpk.
  assert (Hrec : page_records keyword location pg = [])
    by (unfold page_records; now rewrite Ho).
  eexists _, st'. split; [exact E|]. split; [reflexivity|].
  split.
  { rewrite <- (take_drop_middle _ _ _ Hk) at 1.
    unfold loaded_records. rewrite flat_map_app. cbn [flat_map snd].
    now rewrite Hrec. }
  split; [exact Hpk|]. split; [exact Hpg|].
  split; [exact Hrec|].
  split.
  - rewrite Forall_forall in Hto.
    apply (Hto (p, pg)); [|exact Ho].
    apply list_elem_of_lookup. eauto.
  - intros Hlt.
    assert (Hnext : range 1 (pages + 1) !! S k = Some (p + 1)).
    { apply range_lookup_iff. split; lia. }
    assert (Hna : forall e, listing_outcome pg <> Aborted e)
      by (intros e; rewrite Ho; discriminate).
    pose proof (pages_loaded_next w _ _ _ _ _ _ Hk Hna Hnext) as Hl.
    split; [exact Hl|].
    rewrite Forall_forall in Hnav.
    apply (Hnav (p + 1, w_page w (st_navs st + S (S k)))).
    apply list_elem_of_lookup. eauto.
Qed.

Lemma scrape_job_listings_timeout_skips_witness :
  exists job_listings st',
    scrape_job_listings test_config (world_serving first_page_times_out)
      "Python Developer" "United States" 2 init_state
    = (Ok job_listings, st')
    /\ job_listings
       = loaded_records "Python Developer" "United States"
           (pages_loaded (world_serving first_page_times_out)
              (st_navs init_state) (range 1 (2 + 1)))
    /\ job_listings
       = loaded_records "Python Developer" "United States"
           (take 0 (pages_loaded (world_serving first_page_times_out)
                      (st_navs init_state) (range 1 (2 + 1))))
         ++ loaded_records "Python Developer" "United States"
              (drop 1 (pages_loaded (world_serving first_page_times_out)
                         (st_navs init_state) (range 1 (2 + 1))))
    /\ 1 = 1 + Z.of_nat 0
    /\ bare_page = w_page (world_serving first_page_times_out)
                     (st_navs init_state + 1)
    /\ page_records "Python Developer" "United States" bare_page = []
    /\ (exists t1 t2,
          st_trace st'
          = t1 ++ EvLog WARNING ("等待职位列表超时，页面 " +:+ pretty 1)
               :: screenshot_events test_config bare_page
                    ("timeout_page_" +:+ pretty 1)
               ++ t2)
    /\ (1 < 2 ->
        pages_loaded (world_serving first_page_times_out)
          (st_navs init_state) (range 1 (2 + 1)) !! 1%nat
        = Some (1 + 1, w_page (world_serving first_page_times_out)
                         (st_navs init_state + 2))
        /\ exists t1 t2,
             st_trace st'
             = t1 ++ EvGet (construct_search_url "Python Developer"
                              "United States" (1 + 1)) :: t2).
Proof.
  apply (scrape_job_listings_timeout_skips test_config
           (world_serving first_page_times_out)
           "Python Developer" "United States" 2 init_state 0 1 bare_page);
    reflexivity.
Defined.

(** The first of two pages times out, the second holds one item: the
    list returned is the record of that item. *)
Example scrape_job_listings_timeout_sample :
  match fst (scrape_job_listings test_config
               (world_serving first_page_times_out)
               "Python Developer" "United States" 2 init_state) with
  | Ok job_listings =>
      map (fun r : job => (r !! "job_id", r !! "job_title", r !! "company"))
        job_listings
      = [(Some "3912345678", Some "Python Developer", Some "Acme")]
  | Raise _ => False
  end.
Proof. vm_compute. reflexivity. Qed.

(* ===================================================================== *)
(** * Session management: cookies and login *)
(* ===================================================================== *)

Arguments load_cookies : simpl never.
Arguments is_logged_in : simpl never.
Arguments save_cookies : simpl never.
Arguments type_like_human : simpl never.

Section Session.

Context (cfg : config) (w : world).

Lemma run_total_pres {A} (m : M A) (R : relation state) st :
  total m -> pres R m -> exists a st', m st = (Ok a, st') /\ R st st'.
Proof.
  intros Ht Hp. destruct (Ht st) as (a & st' & E). exists a, st'.
  split; [exact E|]. specialize (Hp st). now rewrite E in Hp.
Qed.

Lemma type_like_human_calm field text : pres calm (type_like_human w field text).
Proof. unfold type_like_human. pres_go. Qed.

Lemma type_like_human_quiet field text : pres quiet (type_like_human w field text).
Proof. unfold type_like_human. pres_go. Qed.

Lemma load_cookies_total : total (load_cookies cfg w).
Proof. unfold load_cookies. total_go. Qed.

Lemma load_cookies_calm : pres calm (load_cookies cfg w).
Proof. unfold load_cookies. pres_go. Qed.

Lemma load_cookies_quiet : pres quiet (load_cookies cfg w).
Proof. unfold load_cookies. pres_go. Qed.

Lemma save_cookies_total : total (save_cookies cfg w).
Proof. unfold save_cookies. total_go. Qed.

Lemma save_cookies_calm : pres calm (save_cookies cfg w).
Proof. unfold save_cookies. pres_go. Qed.

Lemma save_cookies_quiet : pres quiet (save_cookies cfg w).
Proof. unfold save_cookies. pres_go. Qed.

Lemma is_logged_in_total : total (is_logged_in w).
Proof. unfold is_logged_in. total_go. Qed.

Lemma is_logged_in_calm : pres calm (is_logged_in w).
Proof. unfold is_logged_in. pres_go. Qed.

Lemma is_logged_in_quiet : pres quiet (is_logged_in w).
Proof. unfold is_logged_in. pres_go. Qed.

End Session.

#[export] Hint Resolve type_like_human_calm type_like_human_quiet
  load_cookies_total load_cookies_calm load_cookies_quiet
  save_cookies_total save_cookies_calm save_cookies_quiet
  is_logged_in_total is_logged_in_calm is_logged_in_quiet : crawl.

Section Login.

Context (cfg : config) (w : world).

Lemma login_with_credentials_total creds :
  cfg_credentials cfg = Some creds -> total (login_with_credentials cfg w).
Proof.
  intros Hc. unfold login_with_credentials. rewrite Hc. cbn [getsection].
  total_go.
Qed.

Lemma login_with_credentials_calm : pres calm (login_with_credentials cfg w).
Proof. unfold login_with_credentials. pres_go. Qed.

Lemma login_with_credentials_quiet : pres quiet (login_with_credentials cfg w).
Proof. unfold login_with_credentials. pres_go. Qed.

Lemma login_total creds :
  cfg_credentials cfg = Some creds -> total (login cfg w).
Proof.
  intros Hc. pose proof (login_with_credentials_total creds Hc).
  unfold login. total_go.
Qed.

Lemma login_calm : pres calm (login cfg w).
Proof.
  pose proof login_with_credentials_calm.
  unfold login. pres_go.
Qed.

Lemma login_quiet : pres quiet (login cfg w).
Proof.
  pose proof login_with_credentials_quiet.
  unfold login. pres_go.
Qed.

End Login.

#[export] Hint Resolve login_calm login_quiet : crawl.

(* ===================================================================== *)
(** * The login stage *)
(* ===================================================================== *)

Arguments login_with_credentials : simpl never.

(** X4. With [use_credentials] disabled in the section ['credentials'],
    a failed cookie attempt makes [login] return [False] right after it:
    the only further effect is the warning that the crawl goes on without
    a session; the login form is never opened and nothing is raised. *)
Theorem login_anonymous_fallback (cfg : config) (w : world)
    (creds : credentials_section) (st st1 : state) :
  cfg_credentials cfg = Some creds ->
  use_credentials creds = false ->
  cookie_attempt_failed cfg w st st1 ->
  login cfg w st
  = (Ok false, logged WARNING "无法登录LinkedIn，将以未登录状态继续" st1).
Proof.
  intros Hc Hu [E | (st0 & E & E')]; unfold login;
    rewrite bind_unfold, E; cbn iota beta;
    rewrite ?bind_unfold, ?E'; cbn iota beta;
    unfold login_with_credentials; rewrite Hc; cbn [getsection];
    rewrite bind_unfold; cbn [lift]; rewrite Hu; reflexivity.
Qed.

Lemma login_anonymous_fallback_witness :
  login test_config (world_serving (fun _ => bare_page)) init_state
  = (Ok false,
     logged WARNING "无法登录LinkedIn，将以未登录状态继续"
       (logged WARNING "Cookie文件不存在: linkedin_cookies.json" init_state)).
Proof.
  apply (login_anonymous_fallback test_config
           (world_serving (fun _ => bare_page))
           {| use_credentials := false; email := ""; password := "" |});
    [reflexivity | reflexivity |].
  left. reflexivity.
Defined.

(** X5. With [use_credentials] enabled but an empty e-mail or password,
    a failed cookie attempt makes [login] return [False] after one error
    record: the login page is not requested and no key is sent. *)
Theorem login_missing_credentials (cfg : config) (w : world)
    (creds : credentials_section) (st st1 : state) :
  cfg_credentials cfg = Some creds ->
  use_credentials creds = true ->
  email creds = "" \/ password creds = "" ->
  cookie_attempt_failed cfg w st st1 ->
  login cfg w st
  = (Ok false, logged ERROR "未提供有效的LinkedIn账号或密码" st1).
Proof.
  intros Hs Hu Hempty Hc.
  assert (Hb : bool_decide (email creds = "")
               || bool_decide (password creds = "") = true).
  { destruct Hempty as [H | H]; rewrite H.
    - reflexivity.
    - rewrite orb_true_iff. right. now apply bool_decide_eq_true. }
  destruct Hc as [E | (st0 & E & E')]; unfold login;
    rewrite bind_unfold, E; cbn iota beta;
    rewrite ?bind_unfold, ?E'; cbn iota beta;
    unfold login_with_credentials; rewrite Hs; cbn [getsection];
    rewrite bind_unfold; cbn [lift]; rewrite Hu;
    rewrite try_except_unfold, Hb; reflexivity.
Qed.

Lemma login_missing_credentials_witness :
  login (with_credentials true "user@example.com" "" test_config)
    (world_serving (fun _ => bare_page)) init_state
  = (Ok false,
     logged ERROR "未提供有效的LinkedIn账号或密码"
       (logged WARNING "Cookie文件不存在: linkedin_cookies.json" init_state)).
Proof.
  apply (login_missing_credentials
           (with_credentials true "user@example.com" "" test_config)
           (world_serving (fun _ => bare_page))
           {| use_credentials := true; email := "user@example.com";
              password := "" |});
    [reflexivity | reflexivity | right; reflexivity | left; reflexivity].
Defined.

(** X6. A cookie session that [is_logged_in] accepts ends [login] at
    once with [True]: whatever the credentials section says, the login
    form is not opened and the cookies are not saved again. *)
Theorem login_cookie_session (cfg : config) (w : world)
    (st st0 st1 : state) :
  load_cookies cfg w st = (Ok true, st0) ->
  is_logged_in w st0 = (Ok true, st1) ->
  login cfg w st = (Ok true, logged INFO "使用Cookie成功登录" st1).
Proof.
  intros E E'. unfold login.
  rewrite bind_unfold, E; cbn iota beta.
  rewrite bind_unfold, E'; reflexivity.
Qed.

Lemma login_cookie_session_witness :
  login (with_credentials true "user@example.com" "secret" test_config)
    (world_with_cookies [sample_cookie] (fun _ => session_page)) init_state
  = (Ok true,
     logged INFO "使用Cookie成功登录"
       (snd (is_logged_in
               (world_with_cookies [sample_cookie] (fun _ => session_page))
               (snd (load_cookies test_config
                       (world_with_cookies [sample_cookie]
                          (fun _ => session_page)) init_state))))).
Proof.
  apply (login_cookie_session
           (with_credentials true "user@example.com" "secret" test_config)
           (world_with_cookies [sample_cookie] (fun _ => session_page))
           init_state
           (snd (load_cookies test_config
                   (world_with_cookies [sample_cookie]
                      (fun _ => session_page)) init_state))
           (snd (is_logged_in
                   (world_with_cookies [sample_cookie] (fun _ => session_page))
                   (snd (load_cookies test_config
                           (world_with_cookies [sample_cookie]
                              (fun _ => session_page)) init_state)))));
    vm_compute; reflexivity.
Defined.

(** X7. [is_logged_in] never raises and requests exactly one page, the
    feed; it returns [True] exactly when that page loaded, both element
    searches returned, and one of them found something. *)
Theorem is_logged_in_shows_session (w : world) (st : state) :
  exists st',
    is_logged_in w st = (Ok (shows_session (w_page w (S (st_navs st)))), st')
    /\ st_navs st' = S (st_navs st)
    /\ calm st st'
    /\ exists evs,
         st_trace st' = st_trace st ++ EvGet "https://www.linkedin.com/feed/" :: evs
         /\ Forall (fun ev => forall url, ev <> EvGet url) evs.
Proof.
  unfold is_logged_in, shows_session. msimpl.
  destruct (pg_load (w_page w (S (st_navs st)))) as [[]|e1]; msimpl;
    [destruct (pg_profile_nav (w_page w (S (st_navs st)))) as [n|e2]; msimpl;
     [destruct (pg_nav_button (w_page w (S (st_navs st)))) as [m|e3]; msimpl|]|];
    (eexists; split; [reflexivity|]; cbn [st_navs st_trace];
     split; [reflexivity|]; split; [repeat split|];
     rewrite <- ?app_assoc; cbn [app]; eexists; split; [reflexivity|];
     repeat constructor; discriminate).
Qed.

Section LoginOutcome.

Context (cfg : config) (w : world).

Lemma login_without_section st st1 :
  cfg_credentials cfg = None ->
  cookie_attempt_failed cfg w st st1 ->
  login cfg w st = (Raise (KeyError "credentials"), st1).
Proof.
  intros Hc [E | (st0 & E & E')]; unfold login;
    rewrite bind_unfold, E; cbn iota beta;
    rewrite ?bind_unfold, ?E'; cbn iota beta;
    unfold login_with_credentials; rewrite Hc; reflexivity.
Qed.

Lemma login_outcome st :
  (exists (logged_in : bool) (st' : state),
      login cfg w st = (Ok logged_in, st') /\ calm st st')
  \/ (exists st',
        cfg_credentials cfg = None
        /\ cookie_attempt_failed cfg w st st'
        /\ calm st st'
        /\ login cfg w st = (Raise (KeyError "credentials"), st')).
Proof.
  destruct (cfg_credentials cfg) as [creds|] eqn:Hc.
  - left. apply run_total_pres; [exact (login_total cfg w creds Hc)|].
    apply login_calm.
  - destruct (run_total_pres (load_cookies cfg w) calm st
                (load_cookies_total cfg w) (load_cookies_calm cfg w))
      as ([|] & st0 & E0 & C0).
    + destruct (run_total_pres (is_logged_in w) calm st0
                  (is_logged_in_total w) (is_logged_in_calm w))
        as ([|] & st1 & E1 & C1).
      * left. exists true. eexists. split.
        -- unfold login. rewrite bind_unfold, E0; cbn iota beta.
           rewrite bind_unfold, E1. reflexivity.
        -- msimpl. destruct C0 as (?&?&?&?&?), C1 as (?&?&?&?&?).
           repeat split; cbn; congruence.
      * right. exists st1.
        assert (Hf : cookie_attempt_failed cfg w st st1)
          by (right; exists st0; split; assumption).
        split; [reflexivity|]. split; [exact Hf|].
        split; [etransitivity; eassumption|].
        now apply login_without_section.
    + right. exists st0.
      assert (Hf : cookie_attempt_failed cfg w st st0) by (left; assumption).
      split; [reflexivity|]. split; [exact Hf|]. split; [exact C0|].
      now apply login_without_section.
Qed.

End LoginOutcome.



(** Without the section ['credentials'] and without a cookie file,
    [login] raises after the cookie warning. *)
Example login_without_credentials_section :
  login (with_section_credentials None test_config)
    (world_serving (fun _ => bare_page)) init_state
  = (Raise (KeyError "credentials"),
     logged WARNING "Cookie文件不存在: linkedin_cookies.json" init_state).
Proof. vm_compute. reflexivity. Qed.

(** Without the section ['credentials'] but with a cookie session,
    [login] returns [True]: the section is never read. *)
Example login_cookie_session_without_section :
  fst (login (with_section_credentials None test_config)
         (world_with_cookies [sample_cookie] (fun _ => session_page))
         init_state)
  = Ok true.
Proof. vm_compute. reflexivity. Qed.

(* ===================================================================== *)
(** * The search stage of [run] *)
(* ===================================================================== *)

Arguments scrape_job_listings : simpl never.
Arguments scrape_job_details : simpl never.
Arguments search_combination : simpl never.
Arguments setup_driver : simpl never.
Arguments login : simpl never.
Arguments deduplicate : simpl never.

Lemma pauses_app tr evs : pauses (tr ++ evs) = (pauses tr + pauses evs)%nat.
Proof. unfold pauses. now rewrite List.filter_app, length_app. Qed.

Lemma is_pause_true ev : is_pause ev = true -> ev = EvRandomDelay 10 15.
Proof.
  destruct ev; cbn; try discriminate.
  intros H. apply andb_true_iff in H as [H1 H2].
  apply Nat.eqb_eq in H1, H2. now subst.
Qed.

Lemma quiet_pauses st st' :
  quiet st st' -> pauses (st_trace st') = pauses (st_trace st).
Proof.
  intros (evs & -> & Hevs). rewrite pauses_app.
  assert (pauses evs = 0%nat) as ->; [|lia].
  unfold pauses. induction Hevs as [|ev evs Hev _ IH]; [reflexivity|].
  cbn [List.filter]. destruct (is_pause ev) eqn:E; [|exact IH].
  now apply is_pause_true in E.
Qed.

Lemma listing_record_complete keyword location job_item r :
  listing_record keyword location job_item = Ok r -> complete r.
Proof.
  unfold listing_record, rbind.
  destruct (li_link job_item); [|discriminate].
  destruct (li_title job_item); [|discriminate].
  destruct (li_company job_item); [|discriminate].
  destruct (li_location job_item); [|discriminate].
  intros [= <-]. unfold complete, listing_keys.
  repeat constructor; eexists; reflexivity.
Qed.

Lemma loaded_records_complete keyword location loaded :
  Forall complete (loaded_records keyword location loaded).
Proof.
  unfold loaded_records. induction loaded as [|[p pg] loaded IH]; [constructor|].
  cbn [flat_map snd]. apply Forall_app. split; [|exact IH].
  unfold page_records. destruct (listing_outcome pg); try constructor.
  unfold extracted_records. induction job_items as [|it its IHi]; [constructor|].
  cbn [flat_map]. apply Forall_app. split; [|exact IHi].
  destruct (listing_record keyword location it) eqn:E; [|constructor].
  constructor; [|constructor]. eapply listing_record_complete, E.
Qed.

Lemma collect_app (w : world) (pages : Z) (c1 c2 : list (string * string)) :
  forall navs,
    collect w pages navs (c1 ++ c2)
    = (fst (collect w pages navs c1)
       ++ fst (collect w pages (snd (collect w pages navs c1)) c2),
       snd (collect w pages (snd (collect w pages navs c1)) c2)).
Proof.
  induction c1 as [|[k l] c1 IH]; intros navs.
  - cbn. now destruct (collect w pages navs c2).
  - cbn [app collect]. rewrite IH.
    destruct (collect w pages _ c1) as [r1 n1]. cbn [fst snd].
    now rewrite app_assoc.
Qed.

Lemma collect_complete (w : world) (pages : Z) (combos : list (string * string)) :
  forall navs, Forall complete (fst (collect w pages navs combos)).
Proof.
  induction combos as [|[k l] combos IH]; intros navs; [constructor|].
  cbn [collect]. specialize (IH (navs + length (pages_loaded w navs
                                                  (range 1 (pages + 1))))%nat).
  destruct (collect w pages _ combos) as [r n]. cbn [fst] in *.
  apply Forall_app. split; [apply loaded_records_complete | exact IH].
Qed.

Section Search.

Context (cfg : config) (w : world) (search : search_section).

Lemma search_combination_run keyword location st :
  exists st',
    search_combination cfg w search keyword location st = (Ok tt, st')
    /\ pauses (st_trace st')
       = (pauses (st_trace st)
          + if pause_after search keyword location then 1 else 0)%nat
    /\ st_all_job_listings st'
       = st_all_job_listings st
         ++ loaded_records keyword location
              (pages_loaded w (st_navs st)
                 (range 1 (pages_per_search search + 1)))
    /\ st_navs st'
       = (st_navs st
          + length (pages_loaded w (st_navs st)
                      (range 1 (pages_per_search search + 1))))%nat
    /\ st_driver st' = st_driver st
    /\ st_job_data st' = st_job_data st.
Proof.
  unfold search_combination, pause_after. msimpl.
  match goal with |- context [scrape_job_listings _ _ _ _ _ ?s] =>
    set (st0 := s) end.
  destruct (scrape_job_listings_run cfg w keyword location
              (pages_per_search search) st0) as (st1 & E & _ & Hn & _).
  pose proof (scrape_job_listings_quiet cfg w keyword location
                (pages_per_search search) st0) as Q.
  pose proof (scrape_job_listings_frame cfg w keyword location
                (pages_per_search search) st0) as F.
  rewrite E in Q, F |- *. cbn [snd] in Q, F.
  apply quiet_pauses in Q. destruct F as (Fd & _ & Fa & Fj).
  assert (Q0 : pauses (st_trace st0) = pauses (st_trace st)).
  { subst st0. cbn [st_trace]. rewrite pauses_app. cbn. lia. }
  destruct (bool_decide (keyword ≠ last_item (keywords search))
            || bool_decide (location ≠ last_item (locations search)));
    msimpl; eexists; (split; [reflexivity|]); cbn [st_trace st_driver
      st_all_job_listings st_job_data st_navs];
    rewrite ?pauses_app, Q, Q0, Fa, Fd, Fj, Hn; subst st0;
    cbn [st_all_job_listings st_driver st_job_data st_navs];
    (split; [cbn; lia|]); repeat split; reflexivity.
Qed.

Lemma location_loop_run keyword ls :
  forall st,
  exists st',
    for_each ls (fun location =>
                   search_combination cfg w search keyword location) st
    = (Ok tt, st')
    /\ pauses (st_trace st')
       = (pauses (st_trace st)
          + length (List.filter (pause_after search keyword) ls))%nat
    /\ st_all_job_listings st'
       = st_all_job_listings st
         ++ fst (collect w (pages_per_search search) (st_navs st)
                   (map (pair keyword) ls))
    /\ st_navs st'
       = snd (collect w (pages_per_search search) (st_navs st)
                (map (pair keyword) ls))
    /\ st_driver st' = st_driver st
    /\ st_job_data st' = st_job_data st.
Proof.
  induction ls as [|location ls IH]; intros st.
  - exists st. cbn. rewrite app_nil_r. repeat split; lia.
  - cbn [for_each map collect]. rewrite bind_unfold.
    destruct (search_combination_run keyword location st)
      as (st1 & -> & Hp & Ha & Hn & Hd & Hj).
    destruct (IH st1) as (st2 & -> & Hp2 & Ha2 & Hn2 & Hd2 & Hj2).
    exists st2. split; [reflexivity|].
    rewrite Hn in Ha2, Hn2.
    destruct (collect w (pages_per_search search) _ (map (pair keyword) ls))
      as [r n]. cbn [fst snd] in *.
    split.
    { rewrite Hp2, Hp. cbn [List.filter].
      destruct (pause_after search keyword location); cbn [length]; lia. }
    split; [rewrite Ha2, Ha, app_assoc; reflexivity|].
    split; [exact Hn2|]. split; congruence.
Qed.

Lemma search_loop_run ks ls :
  forall st,
  exists st',
    search_loop cfg w search ks ls st = (Ok tt, st')
    /\ pauses (st_trace st')
       = (pauses (st_trace st) + pauses_over search ks ls)%nat
    /\ st_all_job_listings st'
       = st_all_job_listings st
         ++ fst (collect w (pages_per_search search) (st_navs st)
                   (combinations ks ls))
    /\ st_navs st'
       = snd (collect w (pages_per_search search) (st_navs st)
                (combinations ks ls))
    /\ st_driver st' = st_driver st
    /\ st_job_data st' = st_job_data st.
Proof.
  unfold search_loop, pauses_over, combinations.
  induction ks as [|keyword ks IH]; intros st.
  - exists st. cbn. rewrite app_nil_r. repeat split; lia.
  - cbn [for_each flat_map]. rewrite bind_unfold.
    destruct (location_loop_run keyword ls st)
      as (st1 & -> & Hp & Ha & Hn & Hd & Hj).
    destruct (IH st1) as (st2 & -> & Hp2 & Ha2 & Hn2 & Hd2 & Hj2).
    exists st2. split; [reflexivity|].
    rewrite collect_app. cbn [fst snd]. rewrite <- Hn.
    split.
    { rewrite Hp2, Hp, List.filter_app, length_app.
      assert (length (List.filter
                        (fun kl => pause_after search (fst kl) (snd kl))
                        (map (pair keyword) ls))
              = length (List.filter (pause_after search keyword) ls)) as ->; [|lia].
      clear. induction ls as [|l ls IHl]; [reflexivity|].
      cbn [map List.filter fst snd].
      destruct (pause_after search keyword l); cbn [length]; lia. }
    split; [rewrite Ha2, Ha, app_assoc; reflexivity|].
    split; [exact Hn2|]. split; congruence.
Qed.

End Search.

(* ===================================================================== *)
(** * The detail stage: records and page loads *)
(* ===================================================================== *)

Section DetailRecords.

Context (cfg : config) (w : world).

Ltac record_finish :=
  msimpl; repeat (run_screenshot; msimpl);
  eexists; (split; [reflexivity|]); msimpl;
  repeat split; try congruence; try lia.

Lemma scrape_job_detail_record n i job st :
  exists st',
    scrape_job_detail cfg w n i job st = (Ok tt, st')
    /\ st_detailed_jobs st'
       = st_detailed_jobs st ++ [detail_record w job (w_page w (S (st_navs st)))]
    /\ st_navs st' = (st_navs st + detail_loads job)%nat.
Proof.
  unfold scrape_job_detail, detail_record, detail_fetch, detail_loads.
  destruct (getitem job "job_title") as [job_title|e1] eqn:E1;
    [|record_finish].
  destruct (getitem job "company") as [company|e2] eqn:E2;
    [|record_finish].
  destruct (getitem job "job_link") as [job_link|e3] eqn:E3;
    [|record_finish].
  destruct (pg_load (w_page w (S (st_navs st)))) as [[]|e4] eqn:E4;
    [|msimpl; rewrite E4; record_finish].
  destruct (pg_description (w_page w (S (st_navs st)))) as [text|e5] eqn:E5.
  - destruct (Z.of_nat i <? Z.of_nat n - 1) eqn:Ei;
      msimpl; rewrite E4, E5; msimpl; rewrite ?Ei;
      record_finish.
  - destruct (Z.of_nat i <? Z.of_nat n - 1) eqn:Ei;
      destruct e5; msimpl; rewrite E4, E5; msimpl;
      repeat (run_screenshot; msimpl); rewrite ?Ei; record_finish.
Qed.

Lemma detail_loop_records n job_listings :
  forall i st,
  exists st',
    for_each (enumerate_from i job_listings)
      (fun '(i, job) => scrape_job_detail cfg w n i job) st = (Ok tt, st')
    /\ st_detailed_jobs st'
       = st_detailed_jobs st ++ detail_records w (st_navs st) job_listings
    /\ st_navs st'
       = (st_navs st + length (List.filter (fun j => (0 <? detail_loads j)%nat)
                                 job_listings))%nat.
Proof.
  induction job_listings as [|job rest IH]; intros i st.
  - exists st. cbn. rewrite app_nil_r. repeat split; lia.
  - cbn [enumerate_from for_each detail_records List.filter].
    rewrite bind_unfold.
    destruct (scrape_job_detail_record n i job st) as (st1 & -> & Hd & Hn).
    destruct (IH (S i) st1) as (st2 & -> & Hd2 & Hn2).
    exists st2. split; [reflexivity|].
    rewrite Hd2, Hn2, Hd, Hn, <- app_assoc. split; [reflexivity|].
    unfold detail_loads.
    destruct (getitem job "job_title"), (getitem job "company"),
      (getitem job "job_link"); cbn; lia.
Qed.

End DetailRecords.

Lemma scrape_job_details_records_run (cfg : config) (w : world)
    (job_listings : list job) (st : state) :
  exists st',
    scrape_job_details cfg w job_listings st
    = (Ok (detail_records w (st_navs st) job_listings), st')
    /\ st_navs st'
       = (st_navs st
          + length (List.filter (fun j => (0 <? detail_loads j)%nat)
                      job_listings))%nat.
Proof.
  unfold scrape_job_details, enumerate. rewrite bind_unfold.
  cbn [set_detailed_jobs]. rewrite bind_unfold.
  match goal with |- context [for_each _ _ ?s] =>
    destruct (detail_loop_records cfg w (length job_listings) job_listings 0 s)
      as (st1 & -> & Hd & Hn)
  end.
  cbn [st_detailed_jobs st_navs app] in Hd, Hn.
  exists st1. msimpl. rewrite Hd. split; [reflexivity | exact Hn].
Qed.

Lemma update_keeps_keys (d other : job) (key : string) :
  is_Some (d !! key) -> is_Some (update d other !! key).
Proof. intros H. unfold update. apply lookup_union_is_Some. now right. Qed.

Lemma detail_record_keeps_keys (w : world) (listing : job) (pg : page)
    (key : string) :
  is_Some (listing !! key) -> is_Some (detail_record w listing pg !! key).
Proof.
  intros H. unfold detail_record.
  assert (Hins : forall v,
             is_Some (<["job_description" := v]> listing !! key)).
  { intros v. destruct (decide (key = "job_description")) as [->|Hne].
    - rewrite lookup_insert_eq. eauto.
    - now rewrite lookup_insert_ne by congruence. }
  destruct (detail_fetch listing pg); [apply update_keeps_keys|..]; apply Hins.
Qed.

(** X23. The output of [scrape_job_details] is determined record by
    record: the i-th output is the i-th input with [job_description] set
    to the stripped description text and then updated with the scraped
    [job_type] and criteria entries (which win over the listing's own
    keys), or to the timeout marker, or to the error marker.  No key of
    an input record is lost.  A record with the keys [job_title],
    [company] and [job_link] costs exactly one page load; a record
    lacking one of them is never requested. *)
Theorem scrape_job_details_records (cfg : config) (w : world)
    (job_listings : list job) (st : state) :
  exists st',
    scrape_job_details cfg w job_listings st
    = (Ok (detail_records w (st_navs st) job_listings), st')
    /\ st_navs st'
       = (st_navs st
          + length (List.filter (fun j => (0 <? detail_loads j)%nat)
                      job_listings))%nat
    /\ Forall2 (fun listing r : job =>
                  forall key, is_Some (listing !! key) -> is_Some (r !! key))
         job_listings (detail_records w (st_navs st) job_listings).
Proof.
  unfold scrape_job_details, enumerate. rewrite bind_unfold.
  cbn [set_detailed_jobs]. rewrite bind_unfold.
  match goal with |- context [for_each _ _ ?s] =>
    destruct (detail_loop_records cfg w (length job_listings) job_listings 0 s)
      as (st1 & -> & Hd & Hn)
  end.
  cbn [st_detailed_jobs st_navs app] in Hd, Hn.
  exists st1. msimpl. rewrite Hd. split; [reflexivity|]. split; [exact Hn|].
  generalize (st_navs st). clear.
  induction job_listings as [|job rest IH]; intros navs; cbn [detail_records];
    constructor; [|apply IH].
  intros key. apply detail_record_keeps_keys.
Qed.

(** A criteria item headed "Job ID" replaces the listing's [job_id]. *)
Example scrape_job_details_criteria_override :
  match fst (scrape_job_details test_config
               (world_serving (fun _ => criteria_page "text" "Job ID" "n/a"))
               [sample_listing] init_state) with
  | Ok detailed_jobs =>
      sample_listing !! "job_id" = Some "3912345678"
      /\ map (fun r : job => (r !! "job_id", r !! "job_description"))
           detailed_jobs
         = [(Some "n/a", Some "text")]
  | Raise _ => False
  end.
Proof. vm_compute. split; reflexivity. Qed.

(** White space outside ASCII is stripped as well: a description wrapped
    in a no-break space and an ideographic space. *)
Example scrape_job_details_unicode_strip :
  match fst (scrape_job_details test_config
               (world_serving (fun _ => description_page "  The real description　"))
               [sample_listing] init_state) with
  | Ok detailed_jobs =>
      map (fun r : job => r !! "job_description") detailed_jobs
      = [Some "The real description"]
  | Raise _ => False
  end.
Proof. vm_compute. reflexivity. Qed.

(** A criteria item headed "Job Description" replaces the description
    that was stored from the description container. *)
Example scrape_job_details_description_override :
  match fst (scrape_job_details test_config
               (world_serving
                  (fun _ => criteria_page "The real description"
                              "Job Description" "Full-time"))
               [sample_listing] init_state) with
  | Ok detailed_jobs =>
      map (fun r : job => r !! "job_description") detailed_jobs
      = [Some "Full-time"]
  | Raise _ => False
  end.
Proof. vm_compute. reflexivity. Qed.

(** The key of a criteria entry is what [str.lower] makes of the
    stripped header, with spaces replaced. *)
Example scrape_job_details_criteria_label :
  match fst (scrape_job_details test_config
               (world_lowering sample_lower
                  (fun _ => criteria_page "text" " ÉCOLE Niveau " "Bac+5"))
               [sample_listing] init_state) with
  | Ok detailed_jobs =>
      map (fun r : job => (r !! "école_niveau", r !! "job_description"))
        detailed_jobs
      = [(Some "Bac+5", Some "text")]
  | Raise _ => False
  end.
Proof. vm_compute. reflexivity. Qed.

(* ===================================================================== *)
(** * The stages of [run] *)
(* ===================================================================== *)

Lemma pauses_over_count (search : search_section) ks ls :
  (pauses_over search ks ls
   + occurrences (last_item (keywords search)) ks
     * occurrences (last_item (locations search)) ls
   = length ks * length ls)%nat.
Proof.
  unfold pauses_over, pause_after, occurrences.
  set (K := last_item (keywords search)).
  set (L := last_item (locations search)).
  induction ks as [|k ks IH]; [reflexivity|].
  cbn [flat_map List.filter length]. rewrite List.filter_app, length_app.
  assert (Hin : (length (List.filter
                   (fun kl : string * string =>
                      bool_decide (fst kl ≠ K) || bool_decide (snd kl ≠ L))
                   (map (pair k) ls))
                 + (if bool_decide (k = K)
                    then length (List.filter (fun y => bool_decide (y = L)) ls)
                    else 0)
                 = length ls)%nat).
  { clear IH. induction ls as [|l ls IHl].
    - cbn. now destruct (bool_decide (k = K)).
    - cbn [map List.filter fst snd length].
      destruct (decide (k = K)) as [Hk|Hk], (decide (l = L)) as [Hl|Hl];
        rewrite ?(bool_decide_eq_true_2 _ Hk), ?(bool_decide_eq_false_2 _ Hk),
          ?(bool_decide_eq_true_2 _ Hl), ?(bool_decide_eq_false_2 _ Hl) in *;
        rewrite ?(bool_decide_eq_false_2 (k ≠ K)), ?(bool_decide_eq_true_2 (k ≠ K)),
          ?(bool_decide_eq_false_2 (l ≠ L)), ?(bool_decide_eq_true_2 (l ≠ L))
          by tauto;
        cbn [orb length]; lia. }
  destruct (bool_decide (k = K)); cbn [length]; nia.
Qed.

Lemma complete_job_id (r : job) : complete r -> is_Some (r !! "job_id").
Proof. intros H. now inversion H. Qed.

Lemma complete_detail_loads (r : job) : complete r -> detail_loads r = 1%nat.
Proof.
  unfold complete, listing_keys. rewrite !Forall_cons.
  intros ([? Hi] & [? Ht] & [? Hc] & _ & [? Hl] & _).
  unfold detail_loads, getitem. now rewrite Ht, Hc, Hl.
Qed.

Lemma deduplicate_complete (l : list job) :
  Forall complete l -> deduplicate l = Ok (first_occurrences [] l).
Proof.
  intros Hc.
  assert (Hids : Forall (fun j => is_Some (job_id_of j)) l).
  { eapply Forall_impl; [exact Hc|]. intros j. apply complete_job_id. }
  unfold deduplicate. rewrite (dedup_loop_first_occurrences _ Hids).
  unfold ODict.empty, ODict.values. cbn [app ODict.keys map].
  rewrite map_map. cbn [entry snd]. now rewrite map_id.
Qed.

Section Stages.

Context (cfg : config) (w : world).

Lemma scrape_job_detail_quiet n i job :
  pres quiet (scrape_job_detail cfg w n i job).
Proof. unfold scrape_job_detail. pres_go. Qed.

Lemma scrape_job_details_quiet job_listings :
  pres quiet (scrape_job_details cfg w job_listings).
Proof.
  unfold scrape_job_details.
  assert (pres quiet
            (for_each (enumerate job_listings)
               (fun '(i, job) =>
                  scrape_job_detail cfg w (length job_listings) i job))).
  { apply pres_for_each; [apply _|]. intros [i job].
    apply scrape_job_detail_quiet. }
  pres_go.
Qed.

Lemma detail_records_complete (navs : nat) (l : list job) :
  Forall complete l ->
  length (List.filter (fun j => (0 <? detail_loads j)%nat) l) = length l.
Proof.
  induction 1 as [|j l Hj _ IH]; [reflexivity|].
  cbn [List.filter]. rewrite (complete_detail_loads j Hj).
  change (0 <? 1)%nat with true. cbn [length]. f_equal. exact IH.
Qed.

Lemma first_occurrences_Forall (P : job -> Prop) (seen : list string)
    (l : list job) :
  Forall P l -> Forall P (first_occurrences seen l).
Proof.
  intros H. revert seen. induction H as [|j l Hj _ IH]; intros seen;
    [constructor|].
  cbn [first_occurrences]. destruct (job_id_of j) as [k|]; [|apply IH].
  destruct (decide (k ∈ seen)); [apply IH|].
  constructor; [exact Hj | apply IH].
Qed.

Lemma run_stages_without_section st :
  cfg_search cfg = None ->
  run_stages cfg w st = (Raise (KeyError "search"), st).
Proof. intros Hs. unfold run_stages. rewrite Hs. reflexivity. Qed.

Lemma run_stages_run (search : search_section) st :
  cfg_search cfg = Some search ->
  exists detailed_jobs st',
    run_stages cfg w st = (Ok detailed_jobs, st')
    /\ pauses (st_trace st')
       = (pauses (st_trace st)
          + pauses_over search (keywords search) (locations search))%nat
    /\ st_all_job_listings st'
       = fst (collect w (pages_per_search search) (st_navs st)
                (combinations (keywords search) (locations search)))
    /\ Forall complete (st_all_job_listings st')
    /\ detailed_jobs
       = detail_records w
           (snd (collect w (pages_per_search search) (st_navs st)
                   (combinations (keywords search) (locations search))))
           (first_occurrences [] (st_all_job_listings st'))
    /\ st_navs st'
       = (snd (collect w (pages_per_search search) (st_navs st)
                 (combinations (keywords search) (locations search)))
          + length (first_occurrences [] (st_all_job_listings st')))%nat
    /\ length detailed_jobs
       = length (first_occurrences [] (st_all_job_listings st'))
    /\ Forall (fun r : job => is_Some (r !! "job_description")) detailed_jobs
    /\ st_job_data st' = detailed_jobs
    /\ st_driver st' = st_driver st.
Proof.
  intros Hsec. unfold run_stages. rewrite Hsec. cbn [getsection].
  rewrite bind_unfold. cbn [lift]. rewrite bind_unfold.
  cbn [set_all_job_listings]. rewrite bind_unfold.
  match goal with |- context [for_each (keywords search) ?f ?s] =>
    change (for_each (keywords search) f s)
      with (search_loop cfg w search (keywords search) (locations search) s);
    destruct (search_loop_run cfg w search (keywords search)
                (locations search) s)
      as (st1 & -> & Hp & Ha & Hn & Hd & Hj)
  end.
  cbn [st_trace st_all_job_listings st_driver st_job_data st_navs app]
    in Hp, Ha, Hn, Hd, Hj.
  assert (Hc : Forall complete (st_all_job_listings st1))
    by (rewrite Ha; apply collect_complete).
  msimpl. rewrite (deduplicate_complete _ Hc). msimpl.
  match goal with |- context [scrape_job_details cfg w ?l ?s] =>
    destruct (scrape_job_details_run cfg w l s)
      as (out & st2 & E & Hf & Hs & Hd2 & _ & Ha2 & _);
    destruct (scrape_job_details_records_run cfg w l s)
      as (st2' & E' & Hn2);
    pose proof (scrape_job_details_quiet l s) as Q
  end.
  rewrite E in E'. injection E' as -> <-.
  rewrite E in Q |- *. cbn [snd] in Q. apply quiet_pauses in Q.
  cbn [st_trace st_driver st_all_job_listings st_navs] in Q, Hd2, Ha2, Hn2.
  eexists _, _. split; [reflexivity|].
  cbn [st_trace st_all_job_listings st_job_data st_driver st_navs].
  rewrite Q, !pauses_app, Hp, Ha2, Hd2, Hd. cbn [pauses List.filter is_pause length].
  split; [lia|]. split; [exact Ha|]. split; [exact Hc|].
  split; [now rewrite Hn|].
  split.
  { rewrite Hn2, Hn. f_equal. apply (detail_records_complete 0).
    now apply first_occurrences_Forall. }
  split; [exact (Forall3_length_lr _ _ _ _ Hf)|].
  split; [exact Hs|]. split; reflexivity.
Qed.

End Stages.

(* ===================================================================== *)
(** * Orchestration: what [run] returns *)
(* ===================================================================== *)

Lemma occurrences_absent (x : string) (xs : list string) :
  ~ In x xs -> occurrences x xs = 0%nat.
Proof.
  unfold occurrences. induction xs as [|y xs IH]; intros Hx; [reflexivity|].
  cbn [List.filter]. rewrite bool_decide_eq_false_2.
  - apply IH. intros H. apply Hx. now right.
  - intros ->. apply Hx. now left.
Qed.

Lemma occurrences_NoDup (x : string) (xs : list string) :
  NoDup xs -> In x xs -> occurrences x xs = 1%nat.
Proof.
  induction 1 as [|y xs Hy Hnd IH]; intros Hx; [destruct Hx|].
  unfold occurrences in *. cbn [List.filter].
  destruct (decide (y = x)) as [->|Hne].
  - rewrite bool_decide_eq_true_2 by reflexivity. cbn [length].
    f_equal. apply occurrences_absent. intros H. apply Hy.
    now apply list_elem_of_In.
  - rewrite bool_decide_eq_false_2 by exact Hne.
    destruct Hx as [->|Hx]; [congruence|]. now apply IH.
Qed.

Lemma last_item_In (xs : list string) : xs <> [] -> In (last_item xs) xs.
Proof.
  unfold last_item. induction xs as [|x xs IH]; [congruence|]. intros _.
  destruct xs as [|y xs]; [now left|].
  right. apply IH. discriminate.
Qed.

Section Orchestration.

Context (cfg : config) (w : world).

Lemma apply_js_evasions_quiet : pres quiet (apply_js_evasions w).
Proof. unfold apply_js_evasions. pres_go. Qed.

Lemma setup_anti_detection_quiet : pres quiet (setup_anti_detection w).
Proof.
  pose proof apply_js_evasions_quiet.
  unfold setup_anti_detection. pres_go.
Qed.

Lemma setup_driver_quiet : pres quiet (setup_driver cfg w).
Proof.
  pose proof setup_anti_detection_quiet.
  unfold setup_driver. pres_go.
Qed.

Lemma setup_anti_detection_run st :
  exists st', setup_anti_detection w st = (Ok tt, st')
              /\ st_driver st' = st_driver st.
Proof.
  unfold setup_anti_detection, apply_js_evasions. msimpl.
  destruct (w_stealth w); msimpl; [destruct (w_js_evasions w); msimpl|];
    eexists; split; reflexivity.
Qed.

Lemma setup_driver_ok st st1 :
  setup_driver cfg w st = (Ok tt, st1) -> st_driver st1 = Some true.
Proof.
  unfold setup_driver. rewrite try_except_unfold.
  destruct (cfg_browser cfg); cbn [getsection]; msimpl; [|discriminate].
  destruct (random_user_agent cfg); [destruct (w_user_agent w)|];
    msimpl; try discriminate;
    (destruct (w_chrome w); msimpl; [|discriminate]);
    match goal with |- context [setup_anti_detection w ?s] =>
      destruct (setup_anti_detection_run s) as (s1 & -> & Hd) end;
    msimpl;
    (destruct (w_set_page_load_timeout w); msimpl; [|discriminate]);
    intros [= <-]; exact Hd.
Qed.

Lemma run_finally_run st :
  exists st', run_finally st = (Ok tt, st')
    /\ st_driver st' = released (st_driver st)
    /\ st_trace st' = st_trace st ++ cleanup_events (st_driver st)
    /\ st_navs st' = st_navs st
    /\ st_all_job_listings st' = st_all_job_listings st
    /\ st_job_data st' = st_job_data st.
Proof.
  unfold run_finally. msimpl. destruct (st_driver st) eqn:Ed; msimpl.
  - eexists. split; [reflexivity|]. cbn [st_driver st_trace st_navs
      st_all_job_listings st_job_data released cleanup_events].
    rewrite <- app_assoc. repeat split.
  - exists st. rewrite app_nil_r. repeat split. exact Ed.
Qed.

Lemma pauses_cleanup tr d : pauses (tr ++ cleanup_events d) = pauses tr.
Proof. rewrite pauses_app. destruct d; cbn; lia. Qed.

Lemma run_try_raises st e s :
  run_try cfg w st = (Raise e, s) ->
  exists st',
    run cfg w st = (Raise e, st')
    /\ pauses (st_trace st') = pauses (st_trace s).
Proof.
  intros Et. unfold run, try_finally. rewrite try_except_unfold, Et. msimpl.
  match goal with |- context [run_finally ?s0] =>
    destruct (run_finally_run s0) as (st2 & -> & _ & T2 & _) end.
  exists st2. split; [reflexivity|].
  rewrite T2, pauses_cleanup. cbn [st_trace]. rewrite pauses_app. cbn. lia.
Qed.

Lemma run_after_login (search : search_section) st st1 (b : bool) st2 :
  setup_driver cfg w st = (Ok tt, st1) ->
  login cfg w st1 = (Ok b, st2) ->
  cfg_search cfg = Some search ->
  exists detailed_jobs st',
    run cfg w st = (Ok detailed_jobs, st')
    /\ pauses (st_trace st')
       = (pauses (st_trace st)
          + pauses_over search (keywords search) (locations search))%nat
    /\ st_all_job_listings st'
       = fst (collect w (pages_per_search search) (st_navs st2)
                (combinations (keywords search) (locations search)))
    /\ Forall complete (st_all_job_listings st')
    /\ detailed_jobs
       = detail_records w
           (snd (collect w (pages_per_search search) (st_navs st2)
                   (combinations (keywords search) (locations search))))
           (first_occurrences [] (st_all_job_listings st'))
    /\ st_navs st'
       = (snd (collect w (pages_per_search search) (st_navs st2)
                 (combinations (keywords search) (locations search)))
          + length (first_occurrences [] (st_all_job_listings st')))%nat
    /\ length detailed_jobs
       = length (first_occurrences [] (st_all_job_listings st'))
    /\ Forall (fun r : job => is_Some (r !! "job_description")) detailed_jobs
    /\ st_job_data st' = detailed_jobs
    /\ st_driver st' = Some false.
Proof.
  intros E El Hsec.
  pose proof (setup_driver_quiet st) as Q1. rewrite E in Q1. cbn [snd] in Q1.
  pose proof (setup_driver_ok st st1 E) as D1.
  pose proof (login_calm cfg w st1) as C2. rewrite El in C2.
  destruct C2 as (D2 & _). cbn [snd] in D2.
  pose proof (login_quiet cfg w st1) as Q2. rewrite El in Q2. cbn [snd] in Q2.
  destruct (run_stages_run cfg w search st2 Hsec)
    as (jobs & st3 & Es & Hp & Ha & Hc & Hr & Hn & Hl & Hs & Hj & D3).
  destruct (run_finally_run st3) as (st4 & Ef & D4 & T4 & N4 & A4 & J4).
  assert (Et : run_try cfg w st = (Ok jobs, st3)).
  { unfold run_try. rewrite bind_unfold, E; cbn iota beta.
    rewrite bind_unfold, El. exact Es. }
  exists jobs, st4. split.
  { unfold run. unfold try_finally. rewrite try_except_unfold, Et, Ef.
    reflexivity. }
  apply quiet_pauses in Q1, Q2.
  rewrite T4, pauses_cleanup, N4, A4, J4, D4, D3, D2, D1, Hp, Q2, Q1.
  repeat split; assumption.
Qed.

Lemma run_without_setup st e st1 :
  setup_driver cfg w st = (Raise e, st1) ->
  fst (run cfg w st) = Raise e.
Proof.
  intros E.
  assert (Et : run_try cfg w st = (Raise e, st1)).
  { unfold run_try. rewrite bind_unfold, E. reflexivity. }
  destruct (run_try_raises st e st1 Et) as (st' & -> & _). reflexivity.
Qed.

Lemma run_login_raises st st1 e st2 :
  setup_driver cfg w st = (Ok tt, st1) ->
  login cfg w st1 = (Raise e, st2) ->
  exists st',
    run cfg w st = (Raise e, st')
    /\ pauses (st_trace st') = pauses (st_trace st).
Proof.
  intros E El.
  assert (Et : run_try cfg w st = (Raise e, st2)).
  { unfold run_try. rewrite bind_unfold, E; cbn iota beta.
    rewrite bind_unfold, El. reflexivity. }
  destruct (run_try_raises st e st2 Et) as (st' & Er & Hp).
  exists st'. split; [exact Er|].
  pose proof (setup_driver_quiet st) as Q1. rewrite E in Q1.
  pose proof (login_quiet cfg w st1) as Q2. rewrite El in Q2.
  cbn [snd] in Q1, Q2. apply quiet_pauses in Q1, Q2. congruence.
Qed.

Lemma run_without_search st st1 (b : bool) st2 :
  setup_driver cfg w st = (Ok tt, st1) ->
  login cfg w st1 = (Ok b, st2) ->
  cfg_search cfg = None ->
  exists st',
    run cfg w st = (Raise (KeyError "search"), st')
    /\ pauses (st_trace st') = pauses (st_trace st).
Proof.
  intros E El Hs.
  assert (Et : run_try cfg w st = (Raise (KeyError "search"), st2)).
  { unfold run_try. rewrite bind_unfold, E; cbn iota beta.
    rewrite bind_unfold, El. now apply run_stages_without_section. }
  destruct (run_try_raises st _ st2 Et) as (st' & Er & Hp).
  exists st'. split; [exact Er|].
  pose proof (setup_driver_quiet st) as Q1. rewrite E in Q1.
  pose proof (login_quiet cfg w st1) as Q2. rewrite El in Q2.
  cbn [snd] in Q1, Q2. apply quiet_pauses in Q1, Q2. congruence.
Qed.

End Orchestration.


(** Without the section ['search'], [run] starts the browser, logs in,
    raises [KeyError] and quits the browser. *)
Example run_without_search_section :
  run (with_section_search None test_config)
    (world_serving (fun _ => bare_page)) init_state
  = (Raise (KeyError "search"),
     {| st_driver := Some false; st_navs := 0;
        st_trace :=
          [EvChrome;
           EvLog INFO "已应用JavaScript反检测脚本";
           EvLog INFO "已应用反检测措施";
           EvLog INFO "WebDriver初始化成功";
           EvLog WARNING "Cookie文件不存在: linkedin_cookies.json";
           EvLog WARNING "无法登录LinkedIn，将以未登录状态继续";
           EvLog ERROR "爬虫运行时出错: 'search'";
           EvQuit;
           EvLog INFO "WebDriver已关闭"];
        st_job_listings := []; st_detailed_jobs := [];
        st_all_job_listings := []; st_job_data := [] |}).
Proof. vm_compute. reflexivity. Qed.

(** X10. When [setup_driver] succeeds, [login] returns and the section
    ['search'] exists, [run] returns the detail records of the first
    occurrences, by [job_id], of the listing records collected over the
    keyword and location combinations, in that order: one record per
    distinct [job_id], each with a [job_description].  Every collected
    listing record carries all eight listing keys, so the deduplication
    cannot fail on a missing [job_id] and every detail page is requested;
    the list returned is also stored in [self.job_data], and the browser
    session is closed when [run] returns. *)
Theorem run_returns_details (cfg : config) (w : world)
    (search : search_section) (st st1 st2 : state) (logged_in : bool) :
  setup_driver cfg w st = (Ok tt, st1) ->
  login cfg w st1 = (Ok logged_in, st2) ->
  cfg_search cfg = Some search ->
  exists detailed_jobs st',
    run cfg w st = (Ok detailed_jobs, st')
    /\ st_all_job_listings st'
       = fst (collect w (pages_per_search search) (st_navs st2)
                (combinations (keywords search) (locations search)))
    /\ Forall complete (st_all_job_listings st')
    /\ deduplicate (st_all_job_listings st')
       = Ok (first_occurrences [] (st_all_job_listings st'))
    /\ detailed_jobs
       = detail_records w
           (snd (collect w (pages_per_search search) (st_navs st2)
                   (combinations (keywords search) (locations search))))
           (first_occurrences [] (st_all_job_listings st'))
    /\ st_navs st'
       = (snd (collect w (pages_per_search search) (st_navs st2)
                 (combinations (keywords search) (locations search)))
          + length (first_occurrences [] (st_all_job_listings st')))%nat
    /\ length detailed_jobs
       = length (first_occurrences [] (st_all_job_listings st'))
    /\ Forall (fun r : job => is_Some (r !! "job_description")) detailed_jobs
    /\ st_job_data st' = detailed_jobs
    /\ st_driver st' = Some false.
Proof.
  intros E El Hs.
  destruct (run_after_login cfg w search st st1 logged_in st2 E El Hs)
    as (jobs & st' & Er & _ & Ha & Hc & Hr & Hn & Hl & Hd & Hj & Hq).
  exists jobs, st'. split; [exact Er|]. split; [exact Ha|].
  split; [exact Hc|]. split; [exact (deduplicate_complete _ Hc)|].
  auto 10.
Qed.

Lemma run_returns_details_witness :
  exists detailed_jobs st',
    run test_config (world_serving sample_pages) init_state
    = (Ok detailed_jobs, st')
    /\ st_all_job_listings st'
       = fst (collect (world_serving sample_pages) 1
                (st_navs (snd (login test_config (world_serving sample_pages)
                                 (snd (setup_driver test_config
                                         (world_serving sample_pages)
                                         init_state)))))
                (combinations ["Python Developer"] ["United States"]))
    /\ Forall complete (st_all_job_listings st')
    /\ deduplicate (st_all_job_listings st')
       = Ok (first_occurrences [] (st_all_job_listings st'))
    /\ detailed_jobs
       = detail_records (world_serving sample_pages)
           (snd (collect (world_serving sample_pages) 1
                   (st_navs (snd (login test_config
                                    (world_serving sample_pages)
                                    (snd (setup_driver test_config
                                            (world_serving sample_pages)
                                            init_state)))))
                   (combinations ["Python Developer"] ["United States"])))
           (first_occurrences [] (st_all_job_listings st'))
    /\ st_navs st'
       = (snd (collect (world_serving sample_pages) 1
                 (st_navs (snd (login test_config (world_serving sample_pages)
                                  (snd (setup_driver test_config
                                          (world_serving sample_pages)
                                          init_state)))))
                 (combinations ["Python Developer"] ["United States"]))
          + length (first_occurrences [] (st_all_job_listings st')))%nat
    /\ length detailed_jobs
       = length (first_occurrences [] (st_all_job_listings st'))
    /\ Forall (fun r : job => is_Some (r !! "job_description")) detailed_jobs
    /\ st_job_data st' = detailed_jobs
    /\ st_driver st' = Some false.
Proof.
  apply (run_returns_details test_config (world_serving sample_pages)
           {| keywords := ["Python Developer"];
              locations := ["United States"];
              pages_per_search := 1 |}
           init_state
           (snd (setup_driver test_config (world_serving sample_pages)
                   init_state))
           (snd (login test_config (world_serving sample_pages)
                   (snd (setup_driver test_config (world_serving sample_pages)
                           init_state))))
           false);
    reflexivity.
Defined.

(** The run of the witness: three listing records are collected, the
    third repeats the first, and two detail records are returned, in the
    order of the first occurrences, after three page loads. *)
Example run_sample :
  match run test_config (world_serving sample_pages) init_state with
  | (Ok detailed_jobs, st') =>
      map (fun r : job => (r !! "job_id", r !! "job_title",
                           r !! "job_description")) detailed_jobs
      = [(Some "3912345678", Some "Python Developer", Some "We are hiring.");
         (Some "3900000001", Some "Data Engineer", Some "We are hiring.")]
      /\ map (fun r : job => r !! "job_id") (st_all_job_listings st')
         = [Some "3912345678"; Some "3900000001"; Some "3912345678"]
      /\ map (fun r : job => r !! "job_id") (st_job_data st')
         = [Some "3912345678"; Some "3900000001"]
      /\ st_navs st' = 3%nat
  | (Raise _, _) => False
  end.
Proof. vm_compute. repeat split. Qed.

(** X11. The number of inter-combination pauses [random_delay(10, 15)]
    in a run whose browser started.  When [login] returns and the
    section ['search'] exists, with [n] keywords and [m] locations it is
    [n * m] minus the number of combinations whose keyword equals the
    last keyword and whose location equals the last location, that is,
    minus [keywords.count(keywords[-1]) * locations.count(locations[-1])];
    when [login] raises or the section is missing, the run ends before
    the first combination and makes no such pause.  No other part of the
    run adds one. *)
Theorem run_pause_count (cfg : config) (w : world) (st st1 : state) :
  setup_driver cfg w st = (Ok tt, st1) ->
  pauses (st_trace (snd (run cfg w st)))
  = (pauses (st_trace st)
     + match fst (login cfg w st1), cfg_search cfg with
       | Ok _, Some search =>
           length (keywords search) * length (locations search)
           - occurrences (last_item (keywords search)) (keywords search)
             * occurrences (last_item (locations search)) (locations search)
       | _, _ => 0
       end)%nat.
Proof.
  intros E.
  destruct (login cfg w st1) as [[b|e] st2] eqn:El; cbn [fst].
  - destruct (cfg_search cfg) as [search|] eqn:Hs.
    + destruct (run_after_login cfg w search st st1 b st2 E El Hs)
        as (jobs & st' & -> & Hp & _).
      cbn [snd]. rewrite Hp.
      pose proof (pauses_over_count search (keywords search)
                    (locations search)). lia.
    + destruct (run_without_search cfg w st st1 b st2 E El Hs)
        as (st' & -> & Hp).
      cbn [snd]. lia.
  - destruct (run_login_raises cfg w st st1 e st2 E El) as (st' & -> & Hp).
    cbn [snd]. lia.
Qed.

Lemma run_pause_count_witness :
  pauses (st_trace (snd (run (with_search ["a"; "b"; "a"] ["x"] test_config)
                           (world_serving (fun _ => bare_page)) init_state)))
  = (pauses (st_trace init_state)
     + match fst (login (with_search ["a"; "b"; "a"] ["x"] test_config)
                    (world_serving (fun _ => bare_page))
                    (snd (setup_driver
                            (with_search ["a"; "b"; "a"] ["x"] test_config)
                            (world_serving (fun _ => bare_page)) init_state))),
             cfg_search (with_search ["a"; "b"; "a"] ["x"] test_config) with
       | Ok _, Some search =>
           length (keywords search) * length (locations search)
           - occurrences (last_item (keywords search)) (keywords search)
             * occurrences (last_item (locations search)) (locations search)
       | _, _ => 0
       end)%nat.
Proof.
  apply (run_pause_count (with_search ["a"; "b"; "a"] ["x"] test_config)
           (world_serving (fun _ => bare_page)) init_state
           (snd (setup_driver (with_search ["a"; "b"; "a"] ["x"] test_config)
                   (world_serving (fun _ => bare_page)) init_state))).
  reflexivity.
Defined.

(** Three keywords of which the last repeats the first, one location:
    one pause instead of two. *)
Example run_pause_count_sample :
  pauses (st_trace (snd (run (with_search ["a"; "b"; "a"] ["x"] test_config)
                           (world_serving (fun _ => bare_page)) init_state)))
  = 1%nat.
Proof. vm_compute. reflexivity. Qed.

(** X12. With non-empty keyword and location lists that hold no
    duplicates, a run whose browser started and whose [login] returned
    makes exactly [n * m - 1] inter-combination pauses: one after every
    combination but the last. *)
Theorem run_pause_count_distinct (cfg : config) (w : world)
    (search : search_section) (st st1 st2 : state) (logged_in : bool) :
  setup_driver cfg w st = (Ok tt, st1) ->
  login cfg w st1 = (Ok logged_in, st2) ->
  cfg_search cfg = Some search ->
  keywords search <> [] -> locations search <> [] ->
  NoDup (keywords search) -> NoDup (locations search) ->
  pauses (st_trace (snd (run cfg w st)))
  = (pauses (st_trace st)
     + (length (keywords search) * length (locations search) - 1))%nat.
Proof.
  intros E El Hs Hk Hl Hnk Hnl.
  destruct (run_after_login cfg w search st st1 logged_in st2 E El Hs)
    as (jobs & st' & -> & Hp & _).
  cbn [snd]. rewrite Hp.
  pose proof (pauses_over_count search (keywords search) (locations search))
    as Hc.
  rewrite (occurrences_NoDup _ _ Hnk (last_item_In _ Hk)) in Hc.
  rewrite (occurrences_NoDup _ _ Hnl (last_item_In _ Hl)) in Hc.
  lia.
Qed.

Lemma run_pause_count_distinct_witness :
  pauses (st_trace (snd (run (with_search ["a"; "b"] ["x"; "y"] test_config)
                           (world_serving (fun _ => bare_page)) init_state)))
  = (pauses (st_trace init_state) + (2 * 2 - 1))%nat.
Proof.
  apply (run_pause_count_distinct
           (with_search ["a"; "b"] ["x"; "y"] test_config)
           (world_serving (fun _ => bare_page))
           {| keywords := ["a"; "b"]; locations := ["x"; "y"];
              pages_per_search := 1 |}
           init_state
           (snd (setup_driver (with_search ["a"; "b"] ["x"; "y"] test_config)
                   (world_serving (fun _ => bare_page)) init_state))
           (snd (login (with_search ["a"; "b"] ["x"; "y"] test_config)
                   (world_serving (fun _ => bare_page))
                   (snd (setup_driver
                           (with_search ["a"; "b"] ["x"; "y"] test_config)
                           (world_serving (fun _ => bare_page)) init_state))))
           false).
  - reflexivity.
  - reflexivity.
  - reflexivity.
  - discriminate.
  - discriminate.
  - apply (bool_decide_unpack _). vm_compute. exact I.
  - apply (bool_decide_unpack _). vm_compute. exact I.
Defined.

(* ===================================================================== *)
(** * The helper methods *)
(* ===================================================================== *)

(** X13. [take_screenshot] never raises and never navigates: it appends
    the record of the saved file, or the error record when saving fails,
    and touches nothing else; with [save_screenshots] off it does nothing
    at all. *)
Theorem take_screenshot_never_raises (cfg : config) (w : world)
    (name : string) (st : state) :
  exists st',
    take_screenshot cfg w name st = (Ok tt, st')
    /\ calm st st'
    /\ st_navs st' = st_navs st
    /\ st_trace st'
       = st_trace st ++ screenshot_events cfg (w_page w (st_navs st)) name
    /\ (save_screenshots cfg = false -> st' = st).
Proof.
  destruct (take_screenshot_run cfg w name st) as (st' & E & Hc & Hn & Ht).
  exists st'. repeat (split; [assumption|]).
  intros Hoff. unfold take_screenshot in E. rewrite Hoff in E.
  cbn [negb] in E. unfold ret in E. congruence.
Qed.

Section Helpers.

Context (w : world).

Lemma scroll_loop_ok (pg : page) (n k : nat) st :
  pg = w_page w (st_navs st) ->
  (forall j, (k <= j < k + n)%nat -> pg_scroll pg j = Ok tt) ->
  for_each (seq k n) (fun j =>
    pg <- current_page w ;; lift (pg_scroll pg j) ;;
    emit EvScroll ;; emit EvPause) st
  = (Ok tt,
     {| st_driver := st_driver st; st_navs := st_navs st;
        st_trace := st_trace st ++ concat (replicate n scroll_round);
        st_job_listings := st_job_listings st;
        st_detailed_jobs := st_detailed_jobs st;
        st_all_job_listings := st_all_job_listings st;
        st_job_data := st_job_data st |}).
Proof.
  revert k st. induction n as [|n IH]; intros k st Hpg Hok.
  - cbn. rewrite app_nil_r. now destruct st.
  - cbn [seq for_each]. msimpl. rewrite <- Hpg, (Hok k) by lia. msimpl.
    rewrite IH.
    + cbn [st_driver st_navs st_trace st_job_listings st_detailed_jobs
           st_all_job_listings st_job_data replicate concat scroll_round].
      rewrite <- !app_assoc. reflexivity.
    + exact Hpg.
    + intros j Hj. apply Hok. lia.
Qed.

Lemma scroll_loop_fails (pg : page) (n m k : nat) (e : exn) st :
  pg = w_page w (st_navs st) ->
  (forall j, (k <= j < k + n)%nat -> pg_scroll pg j = Ok tt) ->
  pg_scroll pg (k + n) = Raise e ->
  for_each (seq k (n + S m)) (fun j =>
    pg <- current_page w ;; lift (pg_scroll pg j) ;;
    emit EvScroll ;; emit EvPause) st
  = (Raise e,
     {| st_driver := st_driver st; st_navs := st_navs st;
        st_trace := st_trace st ++ concat (replicate n scroll_round);
        st_job_listings := st_job_listings st;
        st_detailed_jobs := st_detailed_jobs st;
        st_all_job_listings := st_all_job_listings st;
        st_job_data := st_job_data st |}).
Proof.
  revert k st. induction n as [|n IH]; intros k st Hpg Hok Hfail.
  - cbn [Nat.add seq for_each]. msimpl.
    rewrite Nat.add_0_r in Hfail. rewrite <- Hpg, Hfail. msimpl.
    cbn. rewrite app_nil_r. now destruct st.
  - cbn [Nat.add seq for_each]. msimpl. rewrite <- Hpg, (Hok k) by lia. msimpl.
    rewrite IH.
    + cbn [st_driver st_navs st_trace st_job_listings st_detailed_jobs
           st_all_job_listings st_job_data replicate concat scroll_round].
      rewrite <- !app_assoc. reflexivity.
    + exact Hpg.
    + intros j Hj. apply Hok. lia.
    + now replace (S k + n)%nat with (k + S n)%nat by lia.
Qed.

End Helpers.

(** X14. [scroll_page] never raises and does not navigate.  It scrolls at
    most five times: when the first failing scroll is the [n]-th
    (counting from 0, [n < 5]) it has scrolled exactly [n] times, logs the
    warning with the exception and returns; when no scroll fails it
    scrolls exactly five times and logs nothing. *)
Theorem scroll_page_at_most_five (w : world) (st : state) :
  exists (n : nat) (st' : state),
    scroll_page w st = (Ok tt, st')
    /\ (n <= 5)%nat
    /\ (forall j, (j < n)%nat -> pg_scroll (w_page w (st_navs st)) j = Ok tt)
    /\ st_navs st' = st_navs st
    /\ calm st st'
    /\ ((n = 5%nat
         /\ st_trace st' = st_trace st ++ concat (replicate 5 scroll_round))
        \/ exists e,
             (n < 5)%nat
             /\ pg_scroll (w_page w (st_navs st)) n = Raise e
             /\ st_trace st'
                = st_trace st ++ concat (replicate n scroll_round)
                  ++ [EvLog WARNING ("滚动页面时出错: " +:+ str_exn e)]).
Proof.
  set (pg := w_page w (st_navs st)).
  assert (Hcases :
    (forall j, (j < 5)%nat -> pg_scroll pg j = Ok tt)
    \/ exists n e, (n < 5)%nat
         /\ (forall j, (j < n)%nat -> pg_scroll pg j = Ok tt)
         /\ pg_scroll pg n = Raise e).
  { assert (Hgen : forall m,
      (forall j, (j < m)%nat -> pg_scroll pg j = Ok tt)
      \/ exists n e, (n < m)%nat
           /\ (forall j, (j < n)%nat -> pg_scroll pg j = Ok tt)
           /\ pg_scroll pg n = Raise e).
    { induction m as [|m [IH | (n & e & Hn & Hok & Hf)]].
      - left. intros j Hj. lia.
      - destruct (pg_scroll pg m) as [[]|e] eqn:Em.
        + left. intros j Hj. destruct (decide (j = m)) as [->|]; [exact Em|].
          apply IH. lia.
        + right. exists m, e. split; [lia|]. split; [exact IH | exact Em].
      - right. exists n, e. split; [lia|]. split; assumption. }
    apply Hgen. }
  unfold scroll_page. rewrite try_except_unfold.
  destruct Hcases as [Hok | (n & e & Hn & Hok & Hf)].
  - rewrite (scroll_loop_ok w pg 5 0 st eq_refl)
      by (intros j Hj; apply Hok; lia).
    exists 5%nat. eexists. split; [reflexivity|].
    split; [lia|]. split; [exact Hok|]. split; [reflexivity|].
    split; [repeat split|]. left. split; reflexivity.
  - assert (Hs : seq 0 5 = seq 0 (n + S (4 - n))) by (f_equal; lia).
    rewrite Hs.
    rewrite (scroll_loop_fails w pg n (4 - n) 0 e st eq_refl)
      by (try (intros j Hj; apply Hok; lia); exact Hf).
    msimpl. exists n. eexists. split; [reflexivity|].
    split; [lia|]. split; [exact Hok|]. split; [reflexivity|].
    split; [repeat split|]. right. exists e.
    split; [exact Hn|]. split; [exact Hf|].
    cbn [st_trace]. now rewrite <- app_assoc.
Qed.

Lemma traced_nil st : traced [] st = st.
Proof. unfold traced. rewrite app_nil_r. now destruct st. Qed.

Lemma traced_traced evs1 evs2 st :
  traced evs2 (traced evs1 st) = traced (evs1 ++ evs2) st.
Proof. unfold traced. cbn. now rewrite app_assoc. Qed.

Section Typing.

Context (w : world) (field : string).

Lemma keys_loop_ok chars : forall i st,
  (forall j, (j < length chars)%nat ->
             pg_send_keys (w_page w (st_navs st)) field (i + j) = Ok tt) ->
  for_each (enumerate_from i chars) (send_key w field) st
  = (Ok tt, traced (keys_events chars) st).
Proof.
  induction chars as [|c chars IH]; intros i st Hok.
  - cbn. now rewrite traced_nil.
  - cbn [enumerate_from for_each]. rewrite bind_unfold.
    unfold send_key at 1. msimpl.
    pose proof (Hok 0%nat) as H0. rewrite Nat.add_0_r in H0.
    rewrite H0 by (cbn; lia). msimpl.
    match goal with |- context [for_each _ _ ?s] =>
      change s with (traced [EvSendKeys c; EvPause] st) ||
      replace s with (traced [EvSendKeys c; EvPause] st)
        by (unfold traced; now rewrite <- app_assoc) end.
    rewrite IH.
    + now rewrite traced_traced.
    + intros j Hj. cbn [traced st_navs].
      replace (S i + j)%nat with (i + S j)%nat by lia.
      apply Hok. cbn. lia.
Qed.

Lemma keys_loop_fails pre c post e : forall i st,
  (forall j, (j < length pre)%nat ->
             pg_send_keys (w_page w (st_navs st)) field (i + j) = Ok tt) ->
  pg_send_keys (w_page w (st_navs st)) field (i + length pre) = Raise e ->
  for_each (enumerate_from i (pre ++ c :: post)) (send_key w field) st
  = (Raise e, traced (keys_events pre) st).
Proof.
  induction pre as [|x pre IH]; intros i st Hok Hfail.
  - cbn [app enumerate_from for_each length] in *. rewrite bind_unfold.
    unfold send_key at 1. msimpl. rewrite Nat.add_0_r in Hfail.
    rewrite Hfail. msimpl. now rewrite traced_nil.
  - cbn [app enumerate_from for_each]. rewrite bind_unfold.
    unfold send_key at 1. msimpl.
    pose proof (Hok 0%nat) as H0. rewrite Nat.add_0_r in H0.
    rewrite H0 by (cbn; lia). msimpl.
    match goal with |- context [for_each _ _ ?s] =>
      change s with (traced [EvSendKeys x; EvPause] st) ||
      replace s with (traced [EvSendKeys x; EvPause] st)
        by (unfold traced; now rewrite <- app_assoc) end.
    rewrite IH.
    + now rewrite traced_traced.
    + intros j Hj. cbn [traced st_navs].
      replace (S i + j)%nat with (i + S j)%nat by lia.
      apply Hok. cbn. lia.
    + cbn [traced st_navs].
      replace (S i + length pre)%nat with (i + length (x :: pre))%nat
        by (cbn; lia).
      exact Hfail.
Qed.

Lemma type_like_human_loop text st :
  type_like_human w field text st
  = for_each (enumerate (PyStr.chars text)) (send_key w field) st.
Proof.
  unfold type_like_human, send_key. f_equal.
Qed.

End Typing.

(** X15. When the element accepts every character, [type_like_human]
    sends the characters (code points) of [text] one by one in order,
    each followed by a pause, and does nothing else. *)
Theorem type_like_human_sends_text (w : world) (field text : string)
    (st : state) :
  (forall k, (k < length (PyStr.chars text))%nat ->
             pg_send_keys (w_page w (st_navs st)) field k = Ok tt) ->
  type_like_human w field text st
  = (Ok tt, traced (keys_events (PyStr.chars text)) st).
Proof.
  intros Hok. rewrite type_like_human_loop. unfold enumerate.
  apply keys_loop_ok. intros j Hj. now apply Hok.
Qed.

Lemma type_like_human_sends_text_witness :
  type_like_human (world_serving (fun _ => bare_page)) "username" "pé日"
    init_state
  = (Ok tt, traced (keys_events (PyStr.chars "pé日")) init_state).
Proof.
  apply type_like_human_sends_text. intros k Hk. reflexivity.
Defined.

(** X16. [type_like_human] has no handler of its own: when the element
    rejects the [k]-th character (code point) with [e] after accepting
    the ones before it, exactly those [k] characters have been sent and
    [e] is raised to the caller. *)
Theorem type_like_human_propagates (w : world) (field text : string)
    (st : state) (k : nat) (e : exn) :
  (k < length (PyStr.chars text))%nat ->
  (forall j, (j < k)%nat ->
             pg_send_keys (w_page w (st_navs st)) field j = Ok tt) ->
  pg_send_keys (w_page w (st_navs st)) field k = Raise e ->
  type_like_human w field text st
  = (Raise e, traced (keys_events (take k (PyStr.chars text))) st).
Proof.
  intros Hk Hok Hfail. rewrite type_like_human_loop. unfold enumerate.
  destruct (lookup_lt_is_Some_2 _ _ Hk) as [c Hc].
  rewrite <- (take_drop_middle _ _ _ Hc) at 1.
  assert (Hlen : length (take k (PyStr.chars text)) = k)
    by (rewrite length_take; lia).
  apply keys_loop_fails.
  - intros j Hj. apply Hok. lia.
  - now rewrite Hlen.
Qed.

Lemma type_like_human_propagates_witness :
  type_like_human (world_serving (fun _ => short_page)) "username" "pé日本語"
    init_state
  = (Raise (WebDriverException "stale element"),
     traced (keys_events (take 3 (PyStr.chars "pé日本語"))) init_state).
Proof.
  apply type_like_human_propagates.
  - vm_compute. lia.
  - intros j Hj. cbn.
    destruct j as [|[|[|j]]]; [reflexivity..|lia].
  - reflexivity.
Defined.

(** The characters sent are code points, not bytes: a text of three
    characters, two of them outside ASCII, is sent as three keys. *)
Example type_like_human_sample :
  st_trace (snd (type_like_human (world_serving (fun _ => bare_page))
                   "username" "pé日" init_state))
  = [EvSendKeys "p"; EvPause; EvSendKeys "é"; EvPause;
     EvSendKeys "日"; EvPause].
Proof. vm_compute. reflexivity. Qed.

(* ===================================================================== *)
(** * Cookies and browser start *)
(* ===================================================================== *)

Lemma cookie_loop_run (cookies : list cookie) : forall st,
  Forall expiry_converts cookies ->
  for_each cookies add_cookie st
  = (Ok tt, traced (flat_map cookie_events cookies) st).
Proof.
  induction cookies as [|c cookies IH]; intros st Hc.
  - cbn. now rewrite traced_nil.
  - inversion Hc as [|? ? Hc1 Hc2]; subst.
    cbn [for_each flat_map]. rewrite bind_unfold.
    assert (E : add_cookie c st = (Ok tt, traced (cookie_events c) st)).
    { unfold add_cookie, cookie_events.
      destruct (ck_expiry c) as [[z|e]|] eqn:Ee;
        [|exfalso; exact (Hc1 e Ee)|];
        destruct (ck_add c) as [[]|e']; msimpl; reflexivity. }
    rewrite E, IH by exact Hc2. now rewrite traced_traced.
Qed.

(** X17. A cookie the browser refuses does not stop [load_cookies]: when
    the cookie file is read, the two page loads succeed and every expiry
    field converts, the function returns [True] after visiting the site
    once and refreshing once; each cookie in file order is either added
    or skipped with a warning that carries the exception. *)
Theorem load_cookies_skips_rejected (cfg : config) (w : world)
    (cookies : list cookie) (st : state) :
  w_cookie_file w = Some (Ok cookies) ->
  pg_load (w_page w (S (st_navs st))) = Ok tt ->
  pg_load (w_page w (S (S (st_navs st)))) = Ok tt ->
  Forall expiry_converts cookies ->
  exists st',
    load_cookies cfg w st = (Ok true, st')
    /\ st_navs st' = S (S (st_navs st))
    /\ calm st st'
    /\ st_trace st'
       = st_trace st
         ++ [EvGet "https://www.linkedin.com"; EvRandomDelay 1 2]
         ++ flat_map cookie_events cookies
         ++ [EvRefresh; EvRandomDelay 2 3; EvLog INFO "成功加载Cookie"].
Proof.
  intros Hfile H1 H2 Hc. unfold load_cookies. rewrite Hfile.
  rewrite try_except_unfold. msimpl. rewrite H1. msimpl.
  match goal with |- context [for_each cookies ?f ?s] =>
    change (for_each cookies f s) with (for_each cookies add_cookie s);
    rewrite (cookie_loop_run cookies s Hc)
  end.
  unfold traced. msimpl. rewrite H2. msimpl.
  eexists. split; [reflexivity|]. cbn [st_navs st_trace].
  split; [reflexivity|]. split; [repeat split|].
  rewrite <- !app_assoc. reflexivity.
Qed.

Lemma load_cookies_skips_rejected_witness :
  exists st',
    load_cookies test_config
      (world_with_cookies [sample_cookie; rejected_cookie; sample_cookie]
         (fun _ => bare_page)) init_state
    = (Ok true, st')
    /\ st_navs st' = S (S (st_navs init_state))
    /\ calm init_state st'
    /\ st_trace st'
       = st_trace init_state
         ++ [EvGet "https://www.linkedin.com"; EvRandomDelay 1 2]
         ++ flat_map cookie_events
              [sample_cookie; rejected_cookie; sample_cookie]
         ++ [EvRefresh; EvRandomDelay 2 3; EvLog INFO "成功加载Cookie"].
Proof.
  apply load_cookies_skips_rejected.
  - reflexivity.
  - reflexivity.
  - reflexivity.
  - repeat constructor; intros e; discriminate.
Defined.


(** X19. [setup_driver] succeeds exactly when the section ['browser']
    exists and the user-agent lookup (if enabled), the browser start and
    the page-load timeout setting all succeed.  When the browser starts,
    [setup_anti_detection] runs next and never stops the setup: a failure
    of the stealth patches is logged there, a failure of the JavaScript
    evasions is logged by [apply_js_evasions] itself.  On success the
    driver handle is set and the success is logged last; otherwise the
    exception of the first failing step is logged and raised unchanged.
    The driver handle is set exactly when the browser started, and no
    page is loaded. *)
Theorem setup_driver_outcome (cfg : config) (w : world) (st : state) :
  exists st',
    setup_driver cfg w st
    = (match setup_failure cfg w with
       | None => Ok tt
       | Some e => Raise e
       end, st')
    /\ st_driver st'
       = (if browser_started cfg w then Some true else st_driver st)
    /\ st_navs st' = st_navs st
    /\ st_trace st'
       = st_trace st
         ++ (if browser_started cfg w
             then EvChrome :: anti_detection_events w
             else [])
         ++ [match setup_failure cfg w with
             | None => EvLog INFO "WebDriver初始化成功"
             | Some e => EvLog ERROR ("WebDriver初始化失败: " +:+ str_exn e)
             end]
    /\ (forall e,
          browser_started cfg w = true -> w_stealth w = Raise e ->
          In (EvLog ERROR ("应用反检测措施时出错: " +:+ str_exn e))
            (anti_detection_events w)
          /\ ~ In (EvLog INFO "已应用反检测措施") (anti_detection_events w))
    /\ (forall e,
          browser_started cfg w = true -> w_stealth w = Ok tt ->
          w_js_evasions w = Raise e ->
          anti_detection_events w
          = [EvLog ERROR ("应用JavaScript反检测脚本时出错: " +:+ str_exn e);
             EvLog INFO "已应用反检测措施"]).
Proof.
  assert (Hrun : exists st',
    setup_driver cfg w st
    = (match setup_failure cfg w with
       | None => Ok tt
       | Some e => Raise e
       end, st')
    /\ st_driver st'
       = (if browser_started cfg w then Some true else st_driver st)
    /\ st_navs st' = st_navs st
    /\ st_trace st'
       = st_trace st
         ++ (if browser_started cfg w
             then EvChrome :: anti_detection_events w
             else [])
         ++ [match setup_failure cfg w with
             | None => EvLog INFO "WebDriver初始化成功"
             | Some e => EvLog ERROR ("WebDriver初始化失败: " +:+ str_exn e)
             end]).
  { unfold setup_failure, browser_started, anti_detection_events,
      js_evasions_events, setup_driver, setup_anti_detection,
      apply_js_evasions.
    rewrite try_except_unfold.
    destruct (cfg_browser cfg) as [b|]; cbn [getsection]; msimpl;
      [|eexists; repeat split].
    destruct (random_user_agent cfg);
      [destruct (w_user_agent w) as [ua|e0]|];
      msimpl; try (eexists; repeat split; fail);
      (destruct (w_chrome w) as [[]|e1]; msimpl;
       [|eexists; repeat split]);
      (destruct (w_stealth w) as [[]|e2]; msimpl;
       [destruct (w_js_evasions w) as [[]|e4]; msimpl|]);
      destruct (w_set_page_load_timeout w) as [[]|e3]; msimpl;
      eexists; (split; [reflexivity|]); cbn [st_driver st_navs st_trace];
      (split; [reflexivity|]); (split; [reflexivity|]);
      rewrite <- ?app_assoc; reflexivity. }
  destruct Hrun as (st' & E & Hd & Hn & Ht).
  exists st'. split; [exact E|]. split; [exact Hd|]. split; [exact Hn|].
  split; [exact Ht|]. split.
  - intros e _ He. unfold anti_detection_events. rewrite He. split.
    + now left.
    + intros [H|[]]. discriminate H.
  - intros e _ Hs He. unfold anti_detection_events, js_evasions_events.
    rewrite Hs, He. reflexivity.
Qed.

(** Failing stealth patches do not stop the browser setup. *)
Example setup_driver_without_stealth :
  setup_driver test_config world_without_stealth init_state
  = (Ok tt,
     {| st_driver := Some true; st_navs := 0;
        st_trace := [EvChrome;
                     EvLog ERROR "应用反检测措施时出错: stealth failed";
                     EvLog INFO "WebDriver初始化成功"];
        st_job_listings := []; st_detailed_jobs := [];
        st_all_job_listings := []; st_job_data := [] |}).
Proof. vm_compute. reflexivity. Qed.

(** Without the section ['browser'] the options cannot be built: the
    browser is not started and the [KeyError] is logged and raised. *)
Example setup_driver_without_browser_section :
  setup_driver (with_section_browser None test_config)
    (world_serving (fun _ => bare_page)) init_state
  = (Raise (KeyError "browser"),
     logged ERROR "WebDriver初始化失败: 'browser'" init_state).
Proof. vm_compute. reflexivity. Qed.

(** X20. For a fixed keyword and location, different page numbers give
    different search URLs. *)
Theorem construct_search_url_page_inj (keyword location : string)
    (page page' : Z) :
  page <> page' ->
  construct_search_url keyword location page
  <> construct_search_url keyword location page'.
Proof.
  intros Hne H. apply Hne.
  unfold construct_search_url, PyStr.join in H. cbn [String.concat] in H.
  repeat match type of H with
         | ?a +:+ _ = ?a +:+ _ => apply (inj (String.app a)) in H
         end.
  apply (inj pretty) in H. lia.
Qed.

Lemma construct_search_url_page_inj_witness :
  construct_search_url "Python Developer" "United States" 1
  <> construct_search_url "Python Developer" "United States" 2.
Proof.
  apply construct_search_url_page_inj. lia.
Defined.

(* ===================================================================== *)
(** * Job ids *)
(* ===================================================================== *)

Section JobId.

Lemma prefix_char (c x : ascii) (s : string) :
  String.prefix (String c "") (String x s) = bool_decide (c = x).
Proof.
  cbn [String.prefix]. destruct (ascii_dec c x) as [->|Hne].
  - symmetry. destruct s; now apply bool_decide_eq_true.
  - symmetry. now apply bool_decide_eq_false.
Qed.

Lemma cut_char_before (c : ascii) (s a b : string) :
  PyStr.cut (String c "") s = Some (a, b) ->
  PyStr.contains (String c "") a = false.
Proof.
  revert a b. induction s as [|x s IH]; intros a b.
  - cbn. discriminate.
  - cbn [PyStr.cut]. rewrite prefix_char.
    destruct (decide (c = x)) as [->|Hne].
    + rewrite bool_decide_eq_true_2 by reflexivity. intros [= <- _].
      reflexivity.
    + rewrite bool_decide_eq_false_2 by exact Hne.
      destruct (PyStr.cut (String c "") s) as [[a' b']|] eqn:E; [|discriminate].
      intros [= <- <-]. cbn [PyStr.contains]. rewrite prefix_char.
      rewrite bool_decide_eq_false_2 by exact Hne. cbn [orb].
      exact (IH a' b' eq_refl).
Qed.

Lemma cut_none_char (c : ascii) (s : string) :
  PyStr.cut (String c "") s = None -> PyStr.contains (String c "") s = false.
Proof.
  induction s as [|x s IH].
  - reflexivity.
  - cbn [PyStr.cut PyStr.contains]. rewrite prefix_char.
    destruct (bool_decide (c = x)); [discriminate|].
    destruct (PyStr.cut (String c "") s) as [[a b]|]; [discriminate|].
    intros _. cbn [orb]. now apply IH.
Qed.

Lemma split_head_char (c : ascii) (s : string) :
  PyStr.contains (String c "") (nth 0 (PyStr.split (String c "") s) "") = false.
Proof.
  unfold PyStr.split. destruct s as [|x s].
  - reflexivity.
  - cbn [String.length PyStr.split_rounds].
    destruct (PyStr.cut (String c "") (String x s)) as [[a b]|] eqn:E.
    + cbn [nth]. eapply cut_char_before, E.
    + cbn [nth]. now apply cut_none_char.
Qed.

Lemma substring_all (s : string) : String.substring 0 (String.length s) s = s.
Proof. induction s as [|c s IH]; [reflexivity|]. cbn. now rewrite IH. Qed.

Lemma prefix_substring (sep s : string) :
  String.prefix sep s = true ->
  s = sep +:+ String.substring (String.length sep)
                (String.length s - String.length sep) s.
Proof.
  revert s. induction sep as [|c sep IH]; intros s H.
  - rewrite append_empty_l. cbn [String.length]. rewrite Nat.sub_0_r.
    now rewrite substring_all.
  - destruct s as [|x s]; [discriminate|]. cbn [String.prefix] in H.
    destruct (ascii_dec c x) as [->|]; [|discriminate].
    rewrite append_cons. cbn [String.length String.substring Nat.sub].
    f_equal. now apply IH.
Qed.

Lemma cut_split (sep s a b : string) :
  PyStr.cut sep s = Some (a, b) -> s = a +:+ sep +:+ b.
Proof.
  revert a b. induction s as [|x s IH]; intros a b.
  - cbn [PyStr.cut]. destruct (String.prefix sep "") eqn:E; [|discriminate].
    intros [= <- <-]. rewrite append_empty_l. now apply prefix_substring.
  - cbn [PyStr.cut]. destruct (String.prefix sep (String x s)) eqn:E.
    + intros [= <- <-]. rewrite append_empty_l. now apply prefix_substring.
    + destruct (PyStr.cut sep s) as [[a' b']|]; [|discriminate].
      intros [= <- <-]. rewrite append_cons. f_equal. now apply IH.
Qed.

Lemma contains_cut (sep s : string) :
  PyStr.contains sep s = true -> exists a b, PyStr.cut sep s = Some (a, b).
Proof.
  induction s as [|x s IH]; cbn [PyStr.contains PyStr.cut];
    destruct (String.prefix sep _) eqn:E; cbn [orb]; try discriminate;
    intros H; eauto.
  destruct (IH H) as (a & b & ->). eauto.
Qed.

Lemma rounds_head_prefix (n : nat) (sep b : string) :
  exists rest, b = nth 0 (PyStr.split_rounds n sep b) "" +:+ rest.
Proof.
  destruct n as [|n]; cbn [PyStr.split_rounds].
  - exists "". cbn [nth]. now rewrite append_empty_r.
  - destruct (PyStr.cut sep b) as [[a2 b2]|] eqn:E; cbn [nth].
    + exists (sep +:+ b2). now apply cut_split.
    + exists "". now rewrite append_empty_r.
Qed.

Lemma split_second (sep s : string) :
  PyStr.contains sep s = true ->
  exists before after rest,
    s = before +:+ sep +:+ after
    /\ after = nth 1 (PyStr.split sep s) "" +:+ rest.
Proof.
  intros H. destruct (contains_cut sep s H) as (a & b & E).
  exists a, b. unfold PyStr.split.
  destruct (String.length s) as [|n]; cbn [PyStr.split_rounds].
  - exists b. cbn [nth]. split; [now apply cut_split | reflexivity].
  - rewrite E. cbn [nth].
    destruct (rounds_head_prefix n sep b) as (rest & Hrest).
    exists rest. split; [now apply cut_split | exact Hrest].
Qed.

Lemma extracted_between (sep : string) (stop : ascii) (s : string) :
  PyStr.contains sep s = true ->
  exists before after rest,
    s = before +:+ sep +:+ after
    /\ after
       = nth 0 (PyStr.split (String stop "") (nth 1 (PyStr.split sep s) "")) ""
         +:+ rest.
Proof.
  intros H. destruct (split_second sep s H) as (before & after & r1 & Hs & Ha).
  destruct (rounds_head_prefix
              (String.length (nth 1 (PyStr.split sep s) ""))
              (String stop "") (nth 1 (PyStr.split sep s) ""))
    as (r2 & Hr2).
  exists before, after, (r2 +:+ r1). split; [exact Hs|].
  rewrite <- append_assoc. unfold PyStr.split at 1. now rewrite <- Hr2.
Qed.

End JobId.

(** X21. The id [extract_job_id] takes from a URL that has a
    [currentJobId=] parameter is the text that follows an occurrence of
    [currentJobId=] in the URL, cut before its first ["&"]: it is found
    in the URL right after the marker and contains no ["&"].  The id it
    takes from a URL with a [/view/] segment (and no such parameter) is
    found likewise after [/view/] and contains no ["/"].  For any other
    URL the result is the generated fallback
    [unknown_<time>_<r>] with [r] between 1000 and 9999. *)
Theorem extract_job_id_delimiters (time randint : Z) (job_url : string) :
  if PyStr.contains "currentJobId=" job_url then
    PyStr.contains "&" (extract_job_id time randint job_url) = false
    /\ exists before after rest,
         job_url = before +:+ "currentJobId=" +:+ after
         /\ after = extract_job_id time randint job_url +:+ rest
  else if PyStr.contains "/view/" job_url then
    PyStr.contains "/" (extract_job_id time randint job_url) = false
    /\ exists before after rest,
         job_url = before +:+ "/view/" +:+ after
         /\ after = extract_job_id time randint job_url +:+ rest
  else
    exists r,
      1000 <= r <= 9999
      /\ extract_job_id time randint job_url
         = "unknown_" +:+ pretty time +:+ "_" +:+ pretty r.
Proof.
  unfold extract_job_id.
  destruct (PyStr.contains "currentJobId=" job_url) eqn:E1.
  - split; [apply split_head_char|].
    exact (extracted_between "currentJobId=" "&" job_url E1).
  - destruct (PyStr.contains "/view/" job_url) eqn:E2.
    + split; [apply split_head_char|].
      exact (extracted_between "/view/" "/" job_url E2).
    + exists (1000 + randint `mod` 9000). split; [|reflexivity].
      pose proof (Z.mod_pos_bound randint 9000). lia.
Qed.

Example extract_job_id_samples :
  extract_job_id 0 0
    "https://www.linkedin.com/jobs/search/?currentJobId=3812345678&keywords=x"
  = "3812345678"
  /\ extract_job_id 0 0
       "https://www.linkedin.com/jobs/view/3812345678/?refId=abc"
     = "3812345678"
  /\ extract_job_id 1700000000 42 "https://www.linkedin.com/jobs/"
     = "unknown_1700000000_1042".
Proof. repeat split; vm_compute; reflexivity. Qed.

(* ===================================================================== *)
(** * Deduplication: failure *)
(* ===================================================================== *)

Lemma dedup_loop_raises (l : list job) : forall d e,
  dedup_loop l d = Raise e ->
  e = KeyError "job_id" /\ Exists (fun j : job => j !! "job_id" = None) l.
Proof.
  induction l as [|j l IH]; intros d e; cbn [dedup_loop]; [discriminate|].
  unfold getitem. destruct (j !! "job_id") as [k|] eqn:Ek.
  - destruct (negb (ODict.mem k d)); intros H; apply IH in H as [-> H];
      (split; [reflexivity | now right]).
  - intros [= <-]. split; [reflexivity | now left].
Qed.

Lemma dedup_loop_missing (l : list job) : forall d,
  Exists (fun j : job => j !! "job_id" = None) l ->
  dedup_loop l d = Raise (KeyError "job_id").
Proof.
  induction l as [|j l IH]; intros d H; [inversion H|].
  cbn [dedup_loop]. unfold getitem.
  destruct (j !! "job_id") as [k|] eqn:Ek.
  - inversion H as [? ? Hj|? ? Hl]; subst; [congruence|].
    destruct (negb (ODict.mem k d)); now apply IH.
  - reflexivity.
Qed.

(** X22. The deduplication loop of [run] fails exactly when some record
    lacks the key [job_id], and the only exception it can raise is the
    [KeyError] for that key; no partial result is produced. *)
Theorem deduplicate_raises_iff (all_job_listings : list job) (e : exn) :
  deduplicate all_job_listings = Raise e
  <-> e = KeyError "job_id"
      /\ Exists (fun j : job => j !! "job_id" = None) all_job_listings.
Proof.
  unfold deduplicate. split.
  - destruct (dedup_loop all_job_listings ODict.empty) as [d|e'] eqn:E;
      [discriminate|].
    intros [= <-]. eapply dedup_loop_raises, E.
  - intros [-> H]. now rewrite (dedup_loop_missing _ _ H).
Qed.
(* ===================================================================== *)
(** * Empty searches *)
(* ===================================================================== *)

Section EmptySearch.

Context (cfg : config) (w : world) (search : search_section).

Lemma search_loop_no_locations ks st :
  search_loop cfg w search ks [] st = (Ok tt, st).
Proof.
  unfold search_loop. induction ks as [|k ks IH]; [reflexivity|].
  cbn [for_each]. rewrite bind_unfold. cbn [ret]. exact IH.
Qed.

End EmptySearch.

(** X24. With an empty keyword list or an empty location list in the
    section ['search'], the search, deduplication and detail stages of
    [run] load no page: they log the two zero counts, return the empty
    list and store it in [self.job_data]. *)
Theorem run_stages_empty_search (cfg : config) (w : world)
    (search : search_section) (st : state) :
  cfg_search cfg = Some search ->
  keywords search = [] \/ locations search = [] ->
  exists st',
    run_stages cfg w st = (Ok [], st')
    /\ st_navs st' = st_navs st
    /\ st_trace st'
       = st_trace st ++ [EvLog INFO "总共找到 0 个职位列表项";
                         EvLog INFO "去重后剩余 0 个职位"]
    /\ st_job_data st' = []
    /\ st_driver st' = st_driver st.
Proof.
  intros Hsec Hempty. unfold run_stages. rewrite Hsec. cbn [getsection].
  rewrite bind_unfold. cbn [lift]. rewrite bind_unfold.
  cbn [set_all_job_listings]. rewrite bind_unfold.
  match goal with |- context [for_each (keywords search) ?f ?s] =>
    change (for_each (keywords search) f s)
      with (search_loop cfg w search (keywords search) (locations search) s);
    assert (E : search_loop cfg w search (keywords search)
                  (locations search) s = (Ok tt, s))
  end.
  { destruct Hempty as [-> | ->];
      [reflexivity | apply search_loop_no_locations]. }
  rewrite E. msimpl. unfold deduplicate; cbn [dedup_loop ODict.empty
    ODict.values map]. msimpl.
  unfold scrape_job_details. msimpl. cbn [enumerate enumerate_from for_each].
  msimpl. eexists. split; [reflexivity|]. cbn [st_navs st_trace st_job_data
    st_driver].
  rewrite <- !app_assoc. repeat split.
Qed.

Lemma run_stages_empty_search_witness :
  exists st',
    run_stages (with_search ["Python Developer"] [] test_config)
      (world_serving (fun _ => bare_page)) init_state = (Ok [], st')
    /\ st_navs st' = st_navs init_state
    /\ st_trace st'
       = st_trace init_state ++ [EvLog INFO "总共找到 0 个职位列表项";
                                 EvLog INFO "去重后剩余 0 个职位"]
    /\ st_job_data st' = []
    /\ st_driver st' = st_driver init_state.
Proof.
  apply (run_stages_empty_search
           (with_search ["Python Developer"] [] test_config)
           (world_serving (fun _ => bare_page))
           {| keywords := ["Python Developer"]; locations := [];
              pages_per_search := 1 |}).
  - reflexivity.
  - right. reflexivity.
Defined.

(** X25. [scrape_job_listings] with a page count of zero or less loads no
    page, logs nothing and returns the empty list. *)
Theorem scrape_job_listings_no_pages (cfg : config) (w : world)
    (keyword location : string) (pages : Z) (st : state) :
  pages <= 0 ->
  exists st',
    scrape_job_listings cfg w keyword location pages st = (Ok [], st')
    /\ st_navs st' = st_navs st
    /\ st_trace st' = st_trace st
    /\ calm_but_listings st st'.
Proof.
  intros Hp. unfold scrape_job_listings, range.
  replace (Z.to_nat (pages + 1 - 1)) with 0%nat by lia.
  cbn [seq map for_each]. msimpl.
  eexists. split; [reflexivity|]. repeat split.
Qed.

Lemma scrape_job_listings_no_pages_witness :
  exists st',
    scrape_job_listings test_config (world_serving (fun _ => bare_page))
      "Python Developer" "United States" 0 init_state = (Ok [], st')
    /\ st_navs st' = st_navs init_state
    /\ st_trace st' = st_trace init_state
    /\ calm_but_listings init_state st'.
Proof.
  apply scrape_job_listings_no_pages. lia.
Defined.

(* ===================================================================== *)
(** * Login with credentials *)
(* ===================================================================== *)

Section Credentials.

Context (cfg : config) (w : world).

Lemma is_logged_in_result st :
  exists st',
    is_logged_in w st = (Ok (shows_session (w_page w (S (st_navs st)))), st')
    /\ st_navs st' = S (st_navs st).
Proof.
  unfold is_logged_in, shows_session. msimpl.
  destruct (pg_load (w_page w (S (st_navs st)))) as [[]|e1]; msimpl;
    [destruct (pg_profile_nav (w_page w (S (st_navs st)))) as [n|e2]; msimpl;
     [destruct (pg_nav_button (w_page w (S (st_navs st)))) as [m|e3]; msimpl|]|];
    (eexists; split; reflexivity).
Qed.

Lemma save_cookies_run st :
  save_cookies cfg w st = (Ok tt, traced (save_cookies_events cfg w) st).
Proof.
  unfold save_cookies, save_cookies_events. msimpl.
  destruct (w_save_cookies w) as [[]|e]; msimpl; unfold traced;
    rewrite <- ?app_assoc; reflexivity.
Qed.

Lemma type_like_human_accepts field text st :
  (forall k, pg_send_keys (w_page w (st_navs st)) field k = Ok tt) ->
  type_like_human w field text st
  = (Ok tt, traced (keys_events (PyStr.chars text)) st).
Proof.
  intros Hok. rewrite type_like_human_loop. unfold enumerate.
  apply keys_loop_ok. intros j _. apply Hok.
Qed.

Lemma login_with_credentials_session (creds : credentials_section) st :
  cfg_credentials cfg = Some creds ->
  use_credentials creds = true ->
  email creds <> "" -> password creds <> "" ->
  login_form (w_page w (S (st_navs st))) ->
  shows_session (w_page w (S (S (st_navs st)))) = true ->
  exists st',
    login_with_credentials cfg w st = (Ok true, st')
    /\ st_navs st' = S (S (st_navs st))
    /\ exists t,
         st_trace st'
         = st_trace st
           ++ EvGet "https://www.linkedin.com/login" :: EvRandomDelay 2 3
              :: keys_events (PyStr.chars (email creds))
           ++ keys_events (PyStr.chars (password creds))
           ++ EvClick :: EvRandomDelay 5 8 :: t
           ++ EvLog INFO "使用账号密码成功登录" :: save_cookies_events cfg w.
Proof.
  intros Hsec Hu He Hp (Hl & Hun & Hpw & Hsub & Hkeys) Hs.
  unfold login_with_credentials. rewrite Hsec. cbn [getsection].
  rewrite bind_unfold. cbn [lift]. rewrite Hu, try_except_unfold.
  rewrite (bool_decide_eq_false_2 _ He), (bool_decide_eq_false_2 _ Hp).
  cbn [orb]. msimpl. rewrite Hl. msimpl. rewrite Hun. msimpl.
  rewrite type_like_human_accepts by (intros k; apply Hkeys).
  cbn [traced st_navs]. rewrite Hpw. msimpl.
  rewrite type_like_human_accepts by (intros k; apply Hkeys).
  cbn [traced st_navs st_trace st_driver st_job_listings st_detailed_jobs
       st_all_job_listings st_job_data]. rewrite Hsub. msimpl.
  match goal with |- context [is_logged_in w ?s] =>
    destruct (is_logged_in_result s) as (s1 & E1 & N1);
    pose proof (is_logged_in_quiet w s) as Q1
  end.
  cbn [st_navs] in E1. rewrite Hs in E1.
  rewrite E1 in Q1 |- *. cbn [snd st_navs] in Q1, N1. msimpl. rewrite save_cookies_run. msimpl.
  destruct Q1 as (evs & Ht & _). cbn [st_trace] in Ht.
  eexists. split; [reflexivity|]. cbn [traced st_navs st_trace].
  split; [exact N1|]. exists evs. rewrite Ht, <- !app_assoc.
  cbn [app]. reflexivity.
Qed.

End Credentials.

(** X26. With credentials configured, after a failed cookie attempt
    [login] opens the login page, types the e-mail and then the password
    character by character (code point by code point), clicks the submit
    button and checks the feed; when the feed shows a session it returns
    [True] after saving the cookies, and it still returns [True] when
    saving the cookies fails (that failure is only logged). *)
Theorem login_with_credentials_succeeds (cfg : config) (w : world)
    (creds : credentials_section) (st st1 : state) :
  cfg_credentials cfg = Some creds ->
  use_credentials creds = true ->
  email creds <> "" -> password creds <> "" ->
  cookie_attempt_failed cfg w st st1 ->
  login_form (w_page w (S (st_navs st1))) ->
  shows_session (w_page w (S (S (st_navs st1)))) = true ->
  exists st',
    login cfg w st = (Ok true, st')
    /\ st_navs st' = S (S (st_navs st1))
    /\ exists t,
         st_trace st'
         = st_trace st1
           ++ EvGet "https://www.linkedin.com/login" :: EvRandomDelay 2 3
              :: keys_events (PyStr.chars (email creds))
           ++ keys_events (PyStr.chars (password creds))
           ++ EvClick :: EvRandomDelay 5 8 :: t
           ++ EvLog INFO "使用账号密码成功登录" :: save_cookies_events cfg w.
Proof.
  intros Hsec Hu He Hp Hc Hform Hs.
  destruct (login_with_credentials_session cfg w creds st1 Hsec Hu He Hp
              Hform Hs)
    as (st' & E & Hn & Ht).
  exists st'. split; [|split; assumption].
  destruct Hc as [Ec | (st0 & Ec & Ec')]; unfold login;
    rewrite bind_unfold, Ec; cbn iota beta;
    rewrite ?bind_unfold, ?Ec'; cbn iota beta; exact E.
Qed.

Lemma login_with_credentials_succeeds_witness :
  exists st',
    login (with_credentials true "a@b.c" "pässwörd" test_config)
      (world_read_only login_pages) init_state = (Ok true, st')
    /\ st_navs st'
       = S (S (st_navs (logged WARNING "Cookie文件不存在: linkedin_cookies.json"
                          init_state)))
    /\ exists t,
         st_trace st'
         = st_trace (logged WARNING "Cookie文件不存在: linkedin_cookies.json"
                       init_state)
           ++ EvGet "https://www.linkedin.com/login" :: EvRandomDelay 2 3
              :: keys_events
                   (PyStr.chars
                      (email {| use_credentials := true; email := "a@b.c";
                                password := "pässwörd" |}))
           ++ keys_events
                (PyStr.chars
                   (password {| use_credentials := true; email := "a@b.c";
                                password := "pässwörd" |}))
           ++ EvClick :: EvRandomDelay 5 8 :: t
           ++ EvLog INFO "使用账号密码成功登录"
              :: save_cookies_events
                   (with_credentials true "a@b.c" "pässwörd" test_config)
                   (world_read_only login_pages).
Proof.
  apply (login_with_credentials_succeeds
           (with_credentials true "a@b.c" "pässwörd" test_config)
           (world_read_only login_pages)
           {| use_credentials := true; email := "a@b.c";
              password := "pässwörd" |}).
  - reflexivity.
  - reflexivity.
  - discriminate.
  - discriminate.
  - left. reflexivity.
  - repeat split.
  - reflexivity.
Defined.

(** The password of the witness has eight characters, two of them
    outside ASCII: eight keys are sent for it. *)
Example login_password_keys :
  length (keys_events (PyStr.chars "pässwörd")) = 16%nat.
Proof. vm_compute. reflexivity. Qed.

(* ===================================================================== *)
(** * Criteria of a detail page *)
(* ===================================================================== *)

(** X27. The criteria loop of [scrape_job_details] stops at the first
    item whose header or text cannot be read: the entries of the items
    before it are kept, the items after it are ignored, and the failure
    is silent. *)
Theorem criteria_loop_stops_at_failure (lower : string -> string)
    (before after : list (result (string * string)))
    (e : exn) (job_details : job) :
  criteria_loop lower (before ++ Raise e :: after) job_details
  = criteria_loop lower (before ++ [Raise e]) job_details
  /\ (Forall (fun item => exists label value, item = Ok (label, value)) before ->
      criteria_loop lower (before ++ Raise e :: after) job_details
      = criteria_loop lower before job_details).
Proof.
  split.
  - revert job_details. induction before as [|item before IH]; intros d.
    + reflexivity.
    + cbn [app criteria_loop]. destruct item as [[l v]|e']; [apply IH|reflexivity].
  - intros Hok. revert job_details.
    induction Hok as [|item before (l & v & ->) _ IH]; intros d.
    + reflexivity.
    + cbn [app criteria_loop]. apply IH.
Qed.

(** X28. With credentials configured, when the login page loads but the
    wait for the e-mail field raises [e], [login] does not raise: it
    logs the error, attempts the screenshot [login_error] and returns
    [False]; no key has been sent and nothing was clicked. *)
Theorem login_form_missing (cfg : config) (w : world)
    (creds : credentials_section) (st st1 : state) (e : exn) :
  cfg_credentials cfg = Some creds ->
  use_credentials creds = true ->
  email creds <> "" -> password creds <> "" ->
  cookie_attempt_failed cfg w st st1 ->
  pg_load (w_page w (S (st_navs st1))) = Ok tt ->
  pg_username (w_page w (S (st_navs st1))) = Raise e ->
  exists st',
    login cfg w st = (Ok false, st')
    /\ st_navs st' = S (st_navs st1)
    /\ st_trace st'
       = st_trace st1
         ++ [EvGet "https://www.linkedin.com/login"; EvRandomDelay 2 3;
             EvLog ERROR ("登录过程中出错: " +:+ str_exn e)]
         ++ screenshot_events cfg (w_page w (S (st_navs st1))) "login_error".
Proof.
  intros Hsec Hu He Hp Hc Hl Hun.
  assert (E : exists st',
             login_with_credentials cfg w st1 = (Ok false, st')
             /\ st_navs st' = S (st_navs st1)
             /\ st_trace st'
                = st_trace st1
                  ++ [EvGet "https://www.linkedin.com/login"; EvRandomDelay 2 3;
                      EvLog ERROR ("登录过程中出错: " +:+ str_exn e)]
                  ++ screenshot_events cfg (w_page w (S (st_navs st1)))
                       "login_error").
  { unfold login_with_credentials. rewrite Hsec. cbn [getsection].
    rewrite bind_unfold. cbn [lift]. rewrite Hu, try_except_unfold.
    rewrite (bool_decide_eq_false_2 _ He), (bool_decide_eq_false_2 _ Hp).
    cbn [orb]. msimpl. rewrite Hl. msimpl. rewrite Hun. msimpl.
    run_screenshot. msimpl.
    match goal with H : st_trace _ = _ ++ screenshot_events _ _ _ |- _ =>
      rename H into Hs end.
    match goal with H : st_navs _ = _ |- _ => rename H into Hn end.
    cbn [st_navs st_trace] in Hs, Hn.
    eexists. split; [reflexivity|]. split; [exact Hn|].
    rewrite Hs, <- !app_assoc. reflexivity. }
  destruct E as (st' & E & Hn & Ht). exists st'.
  split; [|split; assumption].
  destruct Hc as [Ec | (st0 & Ec & Ec')]; unfold login;
    rewrite bind_unfold, Ec; cbn iota beta;
    rewrite ?bind_unfold, ?Ec'; cbn iota beta; exact E.
Qed.

Lemma login_form_missing_witness :
  exists st',
    login (with_credentials true "a@b.c" "pw" test_config)
      (world_serving (fun _ => bare_page)) init_state = (Ok false, st')
    /\ st_navs st'
       = S (st_navs (logged WARNING "Cookie文件不存在: linkedin_cookies.json"
                       init_state))
    /\ st_trace st'
       = st_trace (logged WARNING "Cookie文件不存在: linkedin_cookies.json"
                     init_state)
         ++ [EvGet "https://www.linkedin.com/login"; EvRandomDelay 2 3;
             EvLog ERROR ("登录过程中出错: "
                          +:+ str_exn (TimeoutException "Message: "))]
         ++ screenshot_events (with_credentials true "a@b.c" "pw" test_config)
              (w_page (world_serving (fun _ => bare_page))
                 (S (st_navs (logged WARNING
                                "Cookie文件不存在: linkedin_cookies.json"
                                init_state))))
              "login_error".
Proof.
  apply (login_form_missing
           (with_credentials true "a@b.c" "pw" test_config)
           (world_serving (fun _ => bare_page))
           {| use_credentials := true; email := "a@b.c"; password := "pw" |}).
  - reflexivity.
  - reflexivity.
  - discriminate.
  - discriminate.
  - left. reflexivity.
  - reflexivity.
  - reflexivity.
Defined.

(* ===================================================================== *)
(** * Orchestration: a browser that starts and then fails *)
(* ===================================================================== *)

(** X29. When the browser starts but [setup_driver] fails afterwards (the
    page-load timeout cannot be set), [run] raises that exception and
    still quits the browser it had started: the error is logged by
    [setup_driver] and by [run], then the session is closed. *)
Theorem run_quits_half_started_browser (cfg : config) (w : world)
    (st : state) (e : exn) :
  is_Some (cfg_browser cfg) ->
  (random_user_agent cfg = true -> exists ua, w_user_agent w = Ok ua) ->
  w_chrome w = Ok tt ->
  w_set_page_load_timeout w = Raise e ->
  exists st',
    run cfg w st = (Raise e, st')
    /\ st_driver st' = Some false
    /\ exists t,
         st_trace st'
         = st_trace st ++ EvChrome :: t
           ++ [EvLog ERROR ("WebDriver初始化失败: " +:+ str_exn e);
               EvLog ERROR ("爬虫运行时出错: " +:+ str_exn e);
               EvQuit; EvLog INFO "WebDriver已关闭"].
Proof.
  intros [b Hb] Hua Hc Ht.
  assert (E : exists st1 t,
             setup_driver cfg w st = (Raise e, st1)
             /\ st_driver st1 = Some true
             /\ st_trace st1
                = st_trace st ++ EvChrome :: t
                  ++ [EvLog ERROR ("WebDriver初始化失败: " +:+ str_exn e)]).
  { unfold setup_driver. rewrite try_except_unfold, Hb. cbn [getsection].
    destruct (random_user_agent cfg);
      [destruct Hua as [ua ->]; [reflexivity|]|];
      msimpl; rewrite Hc; msimpl;
      unfold setup_anti_detection, apply_js_evasions; msimpl;
      (destruct (w_stealth w) as [[]|e2] eqn:Es; msimpl;
       [destruct (w_js_evasions w) as [[]|e4] eqn:Ej; msimpl|]);
      rewrite Ht; msimpl;
      eexists; exists (anti_detection_events w);
      unfold anti_detection_events, js_evasions_events;
      rewrite Es, ?Ej;
      (split; [reflexivity|]); cbn [st_driver st_trace];
      (split; [reflexivity|]); rewrite <- ?app_assoc; reflexivity. }
  destruct E as (st1 & t & E & Hd & Htr).
  assert (Et : run_try cfg w st = (Raise e, st1)).
  { unfold run_try. rewrite bind_unfold, E. reflexivity. }
  unfold run, try_finally. rewrite try_except_unfold, Et. msimpl.
  unfold run_finally. msimpl. rewrite Hd. msimpl.
  eexists. split; [reflexivity|]. cbn [st_driver st_trace].
  split; [reflexivity|]. exists t. rewrite Htr, <- !app_assoc.
  cbn [app]. rewrite <- !app_assoc. reflexivity.
Qed.

Lemma run_quits_half_started_browser_witness :
  exists st',
    run test_config world_half_started init_state
    = (Raise (WebDriverException "session deleted"), st')
    /\ st_driver st' = Some false
    /\ exists t,
         st_trace st'
         = st_trace init_state ++ EvChrome :: t
           ++ [EvLog ERROR ("WebDriver初始化失败: "
                            +:+ str_exn (WebDriverException "session deleted"));
               EvLog ERROR ("爬虫运行时出错: "
                            +:+ str_exn (WebDriverException "session deleted"));
               EvQuit; EvLog INFO "WebDriver已关闭"].
Proof.
  apply run_quits_half_started_browser.
  - eexists. reflexivity.
  - intros _. eexists. reflexivity.
  - reflexivity.
  - reflexivity.
Defined.
